(** * DiabetesAI: the logistic-regression core

    A shallow embedding of [src/utils/mlModel.ts] (the trainer, the feature
    extractor, the normalizer, the 80/20 split and the metrics evaluator) and
    of the static "pretrained" scorer, with the properties the specification
    states about them.  Around the core, the code that feeds it: the CSV
    reader and the dataset validator of [src/utils/csvParser.ts], the upload
    handler that chains them, and the accounts of [src/utils/auth.ts], with
    further properties read off the source.

    The source computes on ECMAScript Numbers.  The embedding is written once,
    over the interface [Number] of the operations the source applies to them,
    and is read at two instances:

    - [IEEE]: binary64 floating point, the kernel's primitive floats, which
      is what an engine runs; everything over it evaluates;
    - [Ideal]: the same operations in exact arithmetic on the reals extended
      with [NaN] and the two infinities: no rounding, no overflow and a single
      zero.  The arithmetic statements of the specification are read here. *)

From Stdlib Require Import String Ascii.
From Stdlib Require Import List Bool Arith ZArith QArith Lia.
From Stdlib Require Import Reals Lra Qreals.
From Stdlib Require Import Floats.
From Stdlib Require Import Permutation.
Import ListNotations.

Close Scope R_scope.
Close Scope Q_scope.
Close Scope Z_scope.

Set Implicit Arguments.

(** * ECMAScript Numbers *)

(** The result of the abstract operation ToIntegerOrInfinity. *)
Inductive IntegerOrInfinity : Type :=
| NegInfinity
| Integer (z : Z)
| PosInfinity.

(** The operations of the source on Numbers.  [lit] reads a decimal literal,
    [of_length] is an array's [length], [truthy] is ToBoolean (what [||]
    tests), [strict_eq] is [===]. *)
Class Number (number : Type) : Type := {
  lit : Q -> number;
  NaN : number;
  of_length : nat -> number;
  add : number -> number -> number;
  sub : number -> number -> number;
  mul : number -> number -> number;
  div : number -> number -> number;
  neg : number -> number;
  Math_max : number -> number -> number;
  Math_min : number -> number -> number;
  Math_sqrt : number -> number;
  Math_floor : number -> number;
  Math_abs : number -> number;
  isNaN : number -> bool;
  gt : number -> number -> bool;
  ge : number -> number -> bool;
  strict_eq : number -> number -> bool;
  truthy : number -> bool;
  ToIntegerOrInfinity : number -> IntegerOrInfinity
}.

(** [Math.exp] is kept apart: ECMAScript leaves its result
    implementation-approximated, so binary64 alone does not determine it. *)
Class MathExp (number : Type) : Type :=
  Math_exp : number -> number.

Arguments lit : simpl never.
Arguments NaN : simpl never.
Arguments of_length : simpl never.
Arguments add : simpl never.
Arguments sub : simpl never.
Arguments mul : simpl never.
Arguments div : simpl never.
Arguments neg : simpl never.
Arguments Math_max : simpl never.
Arguments Math_min : simpl never.
Arguments Math_sqrt : simpl never.
Arguments Math_floor : simpl never.
Arguments Math_abs : simpl never.
Arguments isNaN : simpl never.
Arguments gt : simpl never.
Arguments ge : simpl never.
Arguments strict_eq : simpl never.
Arguments truthy : simpl never.
Arguments ToIntegerOrInfinity : simpl never.
Arguments Math_exp : simpl never.

Declare Scope js_scope.
Delimit Scope js_scope with js.
Arguments lit {number Number} q%_Q.

Notation "x + y" := (add x y) : js_scope.
Notation "x - y" := (sub x y) : js_scope.
Notation "x * y" := (mul x y) : js_scope.
Notation "x / y" := (div x y) : js_scope.
Notation "- x" := (neg x) : js_scope.
Notation "x >= y" := (ge x y) : js_scope.
Notation "x > y" := (gt x y) : js_scope.
Notation "x === y" := (strict_eq x y) (at level 70, no associativity) : js_scope.

(** [x || d] on Numbers: [x] when it is truthy, else [d]. *)
Definition or_else {number : Type} {N : Number number} (x d : number)
    : number :=
  if truthy x then x else d.

Notation "x '|||' d" := (or_else x d)
  (at level 50, left associativity) : js_scope.

(** ** Exact arithmetic *)

Inductive ideal : Type :=
| INaN
| IPInf
| INInf
| Fin (r : R).

Module IdealOps.

Definition Rltb (a b : R) : bool := if Rlt_dec a b then true else false.
Definition Reqb (a b : R) : bool := if Req_dec_T a b then true else false.

Definition neg (x : ideal) : ideal :=
  match x with
  | INaN => INaN
  | IPInf => INInf
  | INInf => IPInf
  | Fin r => Fin (- r)
  end.

Definition add (x y : ideal) : ideal :=
  match x, y with
  | INaN, _ | _, INaN => INaN
  | IPInf, INInf | INInf, IPInf => INaN
  | IPInf, _ | _, IPInf => IPInf
  | INInf, _ | _, INInf => INInf
  | Fin a, Fin b => Fin (a + b)
  end.

Definition sub (x y : ideal) : ideal := add x (neg y).

(** An infinity of the sign of [r] ([NaN] at zero). *)
Definition signed_inf (r : R) : ideal :=
  if Rltb 0 r then IPInf else if Rltb r 0 then INInf else INaN.

Definition mul (x y : ideal) : ideal :=
  match x, y with
  | INaN, _ | _, INaN => INaN
  | IPInf, IPInf | INInf, INInf => IPInf
  | IPInf, INInf | INInf, IPInf => INInf
  | IPInf, Fin r | Fin r, IPInf => signed_inf r
  | INInf, Fin r | Fin r, INInf => signed_inf (- r)
  | Fin a, Fin b => Fin (a * b)
  end.

(** Division; the single zero of this model divides as [+0]. *)
Definition div (x y : ideal) : ideal :=
  match x, y with
  | INaN, _ | _, INaN => INaN
  | (IPInf | INInf), (IPInf | INInf) => INaN
  | IPInf, Fin b => if Rltb b 0 then INInf else IPInf
  | INInf, Fin b => if Rltb b 0 then IPInf else INInf
  | Fin _, (IPInf | INInf) => Fin 0
  | Fin a, Fin b => if Reqb b 0 then signed_inf a else Fin (a / b)
  end.

Definition max (x y : ideal) : ideal :=
  match x, y with
  | INaN, _ | _, INaN => INaN
  | IPInf, _ | _, IPInf => IPInf
  | INInf, z | z, INInf => z
  | Fin a, Fin b => Fin (Rmax a b)
  end.

Definition min (x y : ideal) : ideal :=
  match x, y with
  | INaN, _ | _, INaN => INaN
  | INInf, _ | _, INInf => INInf
  | IPInf, z | z, IPInf => z
  | Fin a, Fin b => Fin (Rmin a b)
  end.

Definition sqrt (x : ideal) : ideal :=
  match x with
  | INaN | INInf => INaN
  | IPInf => IPInf
  | Fin r => if Rltb r 0 then INaN else Fin (R_sqrt.sqrt r)
  end.

Definition floor (x : ideal) : ideal :=
  match x with
  | Fin r => Fin (IZR (Zfloor r))
  | _ => x
  end.

Definition abs (x : ideal) : ideal :=
  match x with
  | INaN => INaN
  | IPInf | INInf => IPInf
  | Fin r => Fin (Rabs r)
  end.

Definition exp (x : ideal) : ideal :=
  match x with
  | INaN => INaN
  | IPInf => IPInf
  | INInf => Fin 0
  | Fin r => Fin (Rtrigo_def.exp r)
  end.

Definition isNaN (x : ideal) : bool :=
  match x with INaN => true | _ => false end.

Definition gt (x y : ideal) : bool :=
  match x, y with
  | INaN, _ | _, INaN => false
  | IPInf, IPInf | INInf, _ | _, IPInf => false
  | IPInf, _ | _, INInf => true
  | Fin a, Fin b => Rltb b a
  end.

Definition strict_eq (x y : ideal) : bool :=
  match x, y with
  | IPInf, IPInf | INInf, INInf => true
  | Fin a, Fin b => Reqb a b
  | _, _ => false
  end.

Definition ge (x y : ideal) : bool := gt x y || strict_eq x y.

Definition truthy (x : ideal) : bool :=
  match x with
  | INaN => false
  | Fin r => negb (Reqb r 0)
  | _ => true
  end.

(** Truncation towards zero. *)
Definition trunc (r : R) : Z :=
  if Rltb r 0 then (- Zfloor (- r))%Z else Zfloor r.

Definition ToIntegerOrInfinity (x : ideal) : IntegerOrInfinity :=
  match x with
  | INaN => Integer 0
  | IPInf => PosInfinity
  | INInf => NegInfinity
  | Fin r => Integer (trunc r)
  end.

End IdealOps.

#[export] Instance Ideal : Number ideal := {|
  lit := fun q => Fin (Q2R q);
  NaN := INaN;
  of_length := fun n => Fin (INR n);
  add := IdealOps.add;
  sub := IdealOps.sub;
  mul := IdealOps.mul;
  div := IdealOps.div;
  neg := IdealOps.neg;
  Math_max := IdealOps.max;
  Math_min := IdealOps.min;
  Math_sqrt := IdealOps.sqrt;
  Math_floor := IdealOps.floor;
  Math_abs := IdealOps.abs;
  isNaN := IdealOps.isNaN;
  gt := IdealOps.gt;
  ge := IdealOps.ge;
  strict_eq := IdealOps.strict_eq;
  truthy := IdealOps.truthy;
  ToIntegerOrInfinity := IdealOps.ToIntegerOrInfinity
|}.

#[export] Instance IdealExp : MathExp ideal := IdealOps.exp.

(** ** binary64 *)

Module IEEEOps.

(** The binary64 nearest to an integer. *)
Definition of_Z (z : Z) : float :=
  SF2Prim (binary_normalize prec emax z 0 false).

(** A decimal literal [n/d]: both terms are exact for the literals of the
    source, and the division rounds their quotient correctly. *)
Definition lit (q : Q) : float :=
  PrimFloat.div (of_Z (Qnum q)) (of_Z (Zpos (Qden q))).

Definition max (x y : float) : float :=
  if PrimFloat.is_nan x || PrimFloat.is_nan y then PrimFloat.nan
  else if PrimFloat.ltb x y then y
  else if PrimFloat.ltb y x then x
  else if PrimFloat.get_sign x then y else x.

Definition min (x y : float) : float :=
  if PrimFloat.is_nan x || PrimFloat.is_nan y then PrimFloat.nan
  else if PrimFloat.ltb x y then x
  else if PrimFloat.ltb y x then y
  else if PrimFloat.get_sign x then x else y.

(** The floor of [(-1)^s * m * 2^e], a finite number with [e < 0]. *)
Definition floorZ (s : bool) (m : positive) (e : Z) : Z :=
  let d := (2 ^ (- e))%Z in
  if s then (- ((Zpos m + d - 1) / d))%Z else (Zpos m / d)%Z.

Definition floor (x : float) : float :=
  match Prim2SF x with
  | S754_finite s m e =>
      if (0 <=? e)%Z then x
      else let z := floorZ s m e in
           if (z =? 0)%Z then PrimFloat.zero else of_Z z
  | _ => x
  end.

Definition ToIntegerOrInfinity (x : float) : IntegerOrInfinity :=
  match Prim2SF x with
  | S754_nan | S754_zero _ => Integer 0
  | S754_infinity s => if s then NegInfinity else PosInfinity
  | S754_finite s m e =>
      let a := if (0 <=? e)%Z then (Zpos m * 2 ^ e)%Z
               else (Zpos m / 2 ^ (- e))%Z in
      Integer (if s then - a else a)
  end.

End IEEEOps.

#[export] Instance IEEE : Number float | 10 := {|
  lit := IEEEOps.lit;
  NaN := PrimFloat.nan;
  of_length := fun n => IEEEOps.of_Z (Z.of_nat n);
  add := PrimFloat.add;
  sub := PrimFloat.sub;
  mul := PrimFloat.mul;
  div := PrimFloat.div;
  neg := PrimFloat.opp;
  Math_max := IEEEOps.max;
  Math_min := IEEEOps.min;
  Math_sqrt := PrimFloat.sqrt;
  Math_floor := IEEEOps.floor;
  Math_abs := PrimFloat.abs;
  isNaN := PrimFloat.is_nan;
  gt := fun x y => PrimFloat.ltb y x;
  ge := fun x y => PrimFloat.leb y x;
  strict_eq := PrimFloat.eqb;
  truthy := fun x => negb (PrimFloat.is_nan x || PrimFloat.is_zero x);
  ToIntegerOrInfinity := IEEEOps.ToIntegerOrInfinity
|}.

(** * Exceptions and arrays *)

(** The exceptions of the source: its four [throw new Error(...)], by
    message, and the engine's [TypeError] on reading a property of
    [undefined].  The specification calls the first two ConfigurationError,
    [NoValidData] NoDataError and [ExpectedFeatures] DimensionError. *)
Inductive error : Type :=
| UnsupportedDatasetFormat            (* 'Unsupported dataset format' *)
| TargetColumnNotFound (target : string)
                                      (* `Target column '${target}' not found` *)
| NoValidData                         (* 'No valid data found for training' *)
| ExpectedFeatures (expected got : nat)
                                      (* `Expected ${expected} features, got ${got}` *)
| TypeError.

Inductive Result (A : Type) : Type :=
| Ok (a : A)
| Throw (e : error).

Arguments Ok {A} a.
Arguments Throw {A} e.

Section Arrays.

Context {number : Type} {N : Number number}.

(** [a[i]] where a Number is expected: out of range the read is
    [undefined], which every arithmetic operator converts to [NaN]. *)
Definition get (a : list number) (i : nat) : number := nth i a NaN.

(** [a[i] = v]; past the end the array grows, the holes reading as
    [undefined]. *)
Definition set (a : list number) (i : nat) (v : number) : list number :=
  firstn i a ++ repeat NaN (i - length a) ++ v :: skipn (S i) a.

(** [new Array(n).fill(v)] *)
Definition Array_fill (n : nat) (v : number) : list number := repeat v n.

(** [a.reduce((acc, val, idx) => f acc val idx, init)] *)
Fixpoint reduce_from {A B : Type} (f : B -> A -> nat -> B) (idx : nat)
    (a : list A) (acc : B) : B :=
  match a with
  | [] => acc
  | val :: a' => reduce_from f (S idx) a' (f acc val idx)
  end.

Definition reduce {A B : Type} (f : B -> A -> nat -> B) (a : list A)
    (init : B) : B :=
  reduce_from f 0 a init.

(** [a.map((val, idx) => f val idx)] *)
Fixpoint mapi_from {A B : Type} (f : A -> nat -> B) (idx : nat)
    (a : list A) : list B :=
  match a with
  | [] => []
  | val :: a' => f val idx :: mapi_from f (S idx) a'
  end.

Definition mapi {A B : Type} (f : A -> nat -> B) (a : list A) : list B :=
  mapi_from f 0 a.

(** [for (let i = start; i < start + count; i++) s = body i s] *)
Fixpoint for_from {S : Type} (start count : nat) (body : nat -> S -> S)
    (s : S) : S :=
  match count with
  | O => s
  | Datatypes.S count' => for_from (Datatypes.S start) count' body (body start s)
  end.

(** [for (let i = 0; i < n; i++) s = body i s] *)
Definition for_loop {S : Type} (n : nat) (body : nat -> S -> S) (s : S) : S :=
  for_from 0 n body s.

(** [a.slice(start, end)], with [end] absent when [None]. *)
Definition relative_index (len : nat) (i : IntegerOrInfinity) : nat :=
  match i with
  | NegInfinity => 0
  | Integer z =>
      if (z <? 0)%Z then Z.to_nat (Z.max (Z.of_nat len + z) 0)
      else Nat.min (Z.to_nat z) len
  | PosInfinity => len
  end.

Definition slice {A : Type} (a : list A) (start : number)
    (end_ : option number) : list A :=
  let len := length a in
  let k := relative_index len (ToIntegerOrInfinity start) in
  let final :=
    match end_ with
    | None => len
    | Some e => relative_index len (ToIntegerOrInfinity e)
    end in
  firstn (final - k) (skipn k a).

End Arrays.

(** * The trainer: class LogisticRegression *)

Section LogisticRegression.

Context {number : Type} {N : Number number} {E : MathExp number}.
Local Open Scope js_scope.

Record LogisticRegression : Type := {
  weights : list number;
  bias : number;
  learningRate : number;
  iterations : nat
}.

(** [new LogisticRegression(learningRate, iterations)] *)
Definition new_LogisticRegression (learningRate : number) (iterations : nat)
    : LogisticRegression :=
  {| weights := []; bias := lit 0;
     learningRate := learningRate; iterations := iterations |}.

Definition sigmoid (z : number) : number :=
  lit 1 / (lit 1 + Math_exp (- Math_max (- lit 250) (Math_min (lit 250) z))).

(** The linear score [row.reduce((sum, val, idx) => sum + val * w[idx], b)]. *)
Definition score (w : list number) (b : number) (row : list number) : number :=
  reduce (fun sum val idx => sum + val * get w idx) row b.

(** One pass of the outer loop of [train]: forward propagation, the two
    gradient loops, the update. *)
Definition train_iteration (lr : number) (X : list (list number))
    (y : list number) (m n : nat) (wb : list number * number)
    : list number * number :=
  let '(w, b) := wb in
  let predictions := map (fun row => sigmoid (score w b row)) X in
  let '(dw, db) :=
    for_loop m
      (fun j '(dw, db) =>
         let error := get predictions j - get y j in
         let db := db + error in
         let dw :=
           for_loop n
             (fun k dw => set dw k (get dw k + error * get (nth j X []) k))
             dw in
         (dw, db))
      (Array_fill n (lit 0), lit 0) in
  let w :=
    for_loop n
      (fun k w => set w k (get w k - (lr * get dw k) / of_length m)) w in
  let b := b - (lr * db) / of_length m in
  (w, b).

(** [train(X, y)]: the fields of [this] after the call, or the [TypeError]
    of [X[0].length] on an empty [X]. *)
Definition train (self : LogisticRegression) (X : list (list number))
    (y : list number) : Result LogisticRegression :=
  let m := length X in
  match X with
  | [] => Throw TypeError
  | row0 :: _ =>
      let n := length row0 in
      let '(w, b) :=
        for_loop (iterations self)
          (fun _ wb => train_iteration (learningRate self) X y m n wb)
          (Array_fill n (lit 0), lit 0) in
      Ok {| weights := w; bias := b;
            learningRate := learningRate self;
            iterations := iterations self |}
  end.

Definition predictProbability (self : LogisticRegression)
    (X : list number) : number :=
  sigmoid (score (weights self) (bias self) X).

Definition predict (self : LogisticRegression) (X : list number) : number :=
  let probability := sigmoid (score (weights self) (bias self) X) in
  if probability >= lit 0.5 then lit 1 else lit 0.

End LogisticRegression.

Arguments LogisticRegression : clear implicits.

(** * Datasets ([src/types], [src/utils/csvParser.ts]) *)

(** A cell of a row: a number or a text by [DatasetRow]'s type, and [null]
    as the CSV parser stores an empty field.  A column the row lacks reads as
    [undefined], [None] below. *)
Inductive cell (number : Type) : Type :=
| CNumber (x : number)
| CString (s : string)
| CNull.

Arguments CNumber {number} x.
Arguments CString {number} s.
Arguments CNull {number}.

Definition DatasetRow (number : Type) : Type :=
  list (string * cell number).

Record Dataset (number : Type) : Type := {
  data : list (DatasetRow number);
  columns : list string
}.

(** [obj[key]] on an object used as a map; the binding written last is at
    the head. *)
Fixpoint lookup {A : Type} (obj : list (string * A)) (key : string) : option A :=
  match obj with
  | [] => None
  | (k, v) :: obj' => if String.eqb k key then Some v else lookup obj' key
  end.

(** [a.includes(s)] *)
Definition includes (a : list string) (s : string) : bool :=
  existsb (String.eqb s) a.

(** ** Strings

    A string of the program is a sequence of UTF-16 code units.  It is kept
    here as the UTF-8 text of the same characters, which a [string] holds
    byte by byte; a string with a lone surrogate has no such text and is
    not covered.  Equality, [includes], [endsWith] and the classes
    [[a-z0-9]] and [\d] read the same on both forms: the bytes below 128
    are the characters below 128, and no other character has such a byte.
    The two built-ins that look at characters, [toLowerCase] and [trim],
    are given on the text, with the character tables of Unicode 14.0. *)

(** The value of a byte. *)
Definition byte (c : ascii) : N := N_of_ascii c.

(** The bytes [10xxxxxx], which continue a character. *)
Definition continuation (c : ascii) : bool :=
  ((0x80 <=? byte c) && (byte c <=? 0xBF))%N.

(** The character [l] starts with: its code point and the number of its
    bytes.  There is none where the bytes are not the encoding of a
    character in its shortest form. *)
Definition scalar_at (l : list ascii) : option (N * nat) :=
  match l with
  | [] => None
  | b0 :: rest =>
      let n0 := byte b0 in
      if (n0 <? 0x80)%N then Some (n0, 1%nat)
      else if (n0 <? 0xE0)%N then
        match rest with
        | b1 :: _ =>
            let p := ((n0 - 0xC0) * 64 + (byte b1 - 0x80))%N in
            if continuation b1 && (0xC0 <=? n0)%N && (0x80 <=? p)%N
            then Some (p, 2%nat) else None
        | _ => None
        end
      else if (n0 <? 0xF0)%N then
        match rest with
        | b1 :: b2 :: _ =>
            let p := ((n0 - 0xE0) * 4096 + (byte b1 - 0x80) * 64
                      + (byte b2 - 0x80))%N in
            if continuation b1 && continuation b2 && (0x800 <=? p)%N
               && negb ((0xD800 <=? p) && (p <=? 0xDFFF))%N
            then Some (p, 3%nat) else None
        | _ => None
        end
      else
        match rest with
        | b1 :: b2 :: b3 :: _ =>
            let p := ((n0 - 0xF0) * 262144 + (byte b1 - 0x80) * 4096
                      + (byte b2 - 0x80) * 64 + (byte b3 - 0x80))%N in
            if continuation b1 && continuation b2 && continuation b3
               && (0x10000 <=? p)%N && (p <=? 0x10FFFF)%N
            then Some (p, 4%nat) else None
        | _ => None
        end
  end.

(** What a text is made of: characters, by code point, and the bytes that
    belong to none. *)
Inductive element : Type :=
| Scalar (p : N)
| Stray (b : ascii).

(** The elements of a text; [skip] counts the bytes still to pass of the
    character read last. *)
Fixpoint elements_from (skip : nat) (l : list ascii) : list element :=
  match l with
  | [] => []
  | b :: l' =>
      match skip with
      | S k => elements_from k l'
      | O =>
          match scalar_at l with
          | Some (p, n) => Scalar p :: elements_from (n - 1) l'
          | None => Stray b :: elements_from 0 l'
          end
      end
  end.

Definition elements (l : list ascii) : list element := elements_from 0 l.

(** The UTF-8 encoding of a code point. *)
Definition utf8 (p : N) : list ascii :=
  (if p <? 0x80 then [ascii_of_N p]
   else if p <? 0x800 then
     [ascii_of_N (0xC0 + p / 64); ascii_of_N (0x80 + p mod 64)]
   else if p <? 0x10000 then
     [ascii_of_N (0xE0 + p / 4096); ascii_of_N (0x80 + (p / 64) mod 64);
      ascii_of_N (0x80 + p mod 64)]
   else
     [ascii_of_N (0xF0 + p / 262144); ascii_of_N (0x80 + (p / 4096) mod 64);
      ascii_of_N (0x80 + (p / 64) mod 64); ascii_of_N (0x80 + p mod 64)])%N.

Definition text (l : list element) : list ascii :=
  flat_map (fun e => match e with Scalar p => utf8 p | Stray b => [b] end) l.

Definition within (ranges : list (N * N)) (p : N) : bool :=
  existsb (fun r => (fst r <=? p) && (p <=? snd r))%N ranges.

(** The lowercase mappings of [UnicodeData.txt], in runs
    [(first, last, step, image of first)]: the code points
    [first], [first + step], ... up to [last] map to the image of [first]
    moved by as much. *)
Definition lowercase_runs : list (N * N * N * N) :=
  [(0x41, 0x5A, 1, 0x61); (0xC0, 0xD6, 1, 0xE0); (0xD8, 0xDE, 1, 0xF8);
   (0x100, 0x12E, 2, 0x101); (0x132, 0x136, 2, 0x133);
   (0x139, 0x147, 2, 0x13A); (0x14A, 0x176, 2, 0x14B);
   (0x178, 0x178, 1, 0xFF); (0x179, 0x17D, 2, 0x17A);
   (0x181, 0x181, 1, 0x253); (0x182, 0x184, 2, 0x183);
   (0x186, 0x186, 1, 0x254); (0x187, 0x187, 1, 0x188);
   (0x189, 0x18A, 1, 0x256); (0x18B, 0x18B, 1, 0x18C);
   (0x18E, 0x18E, 1, 0x1DD); (0x18F, 0x18F, 1, 0x259);
   (0x190, 0x190, 1, 0x25B); (0x191, 0x191, 1, 0x192);
   (0x193, 0x193, 1, 0x260); (0x194, 0x194, 1, 0x263);
   (0x196, 0x196, 1, 0x269); (0x197, 0x197, 1, 0x268);
   (0x198, 0x198, 1, 0x199); (0x19C, 0x19C, 1, 0x26F);
   (0x19D, 0x19D, 1, 0x272); (0x19F, 0x19F, 1, 0x275);
   (0x1A0, 0x1A4, 2, 0x1A1); (0x1A6, 0x1A6, 1, 0x280);
   (0x1A7, 0x1A7, 1, 0x1A8); (0x1A9, 0x1A9, 1, 0x283);
   (0x1AC, 0x1AC, 1, 0x1AD); (0x1AE, 0x1AE, 1, 0x288);
   (0x1AF, 0x1AF, 1, 0x1B0); (0x1B1, 0x1B2, 1, 0x28A);
   (0x1B3, 0x1B5, 2, 0x1B4); (0x1B7, 0x1B7, 1, 0x292);
   (0x1B8, 0x1B8, 1, 0x1B9); (0x1BC, 0x1BC, 1, 0x1BD);
   (0x1C4, 0x1C4, 1, 0x1C6); (0x1C5, 0x1C5, 1, 0x1C6);
   (0x1C7, 0x1C7, 1, 0x1C9); (0x1C8, 0x1C8, 1, 0x1C9);
   (0x1CA, 0x1CA, 1, 0x1CC); (0x1CB, 0x1DB, 2, 0x1CC);
   (0x1DE, 0x1EE, 2, 0x1DF); (0x1F1, 0x1F1, 1, 0x1F3);
   (0x1F2, 0x1F4, 2, 0x1F3); (0x1F6, 0x1F6, 1, 0x195);
   (0x1F7, 0x1F7, 1, 0x1BF); (0x1F8, 0x21E, 2, 0x1F9);
   (0x220, 0x220, 1, 0x19E); (0x222, 0x232, 2, 0x223);
   (0x23A, 0x23A, 1, 0x2C65); (0x23B, 0x23B, 1, 0x23C);
   (0x23D, 0x23D, 1, 0x19A); (0x23E, 0x23E, 1, 0x2C66);
   (0x241, 0x241, 1, 0x242); (0x243, 0x243, 1, 0x180);
   (0x244, 0x244, 1, 0x289); (0x245, 0x245, 1, 0x28C);
   (0x246, 0x24E, 2, 0x247); (0x370, 0x372, 2, 0x371);
   (0x376, 0x376, 1, 0x377); (0x37F, 0x37F, 1, 0x3F3);
   (0x386, 0x386, 1, 0x3AC); (0x388, 0x38A, 1, 0x3AD);
   (0x38C, 0x38C, 1, 0x3CC); (0x38E, 0x38F, 1, 0x3CD);
   (0x391, 0x3A1, 1, 0x3B1); (0x3A3, 0x3AB, 1, 0x3C3);
   (0x3CF, 0x3CF, 1, 0x3D7); (0x3D8, 0x3EE, 2, 0x3D9);
   (0x3F4, 0x3F4, 1, 0x3B8); (0x3F7, 0x3F7, 1, 0x3F8);
   (0x3F9, 0x3F9, 1, 0x3F2); (0x3FA, 0x3FA, 1, 0x3FB);
   (0x3FD, 0x3FF, 1, 0x37B); (0x400, 0x40F, 1, 0x450);
   (0x410, 0x42F, 1, 0x430); (0x460, 0x480, 2, 0x461);
   (0x48A, 0x4BE, 2, 0x48B); (0x4C0, 0x4C0, 1, 0x4CF);
   (0x4C1, 0x4CD, 2, 0x4C2); (0x4D0, 0x52E, 2, 0x4D1);
   (0x531, 0x556, 1, 0x561); (0x10A0, 0x10C5, 1, 0x2D00);
   (0x10C7, 0x10C7, 1, 0x2D27); (0x10CD, 0x10CD, 1, 0x2D2D);
   (0x13A0, 0x13EF, 1, 0xAB70); (0x13F0, 0x13F5, 1, 0x13F8);
   (0x1C90, 0x1CBA, 1, 0x10D0); (0x1CBD, 0x1CBF, 1, 0x10FD);
   (0x1E00, 0x1E94, 2, 0x1E01); (0x1E9E, 0x1E9E, 1, 0xDF);
   (0x1EA0, 0x1EFE, 2, 0x1EA1); (0x1F08, 0x1F0F, 1, 0x1F00);
   (0x1F18, 0x1F1D, 1, 0x1F10); (0x1F28, 0x1F2F, 1, 0x1F20);
   (0x1F38, 0x1F3F, 1, 0x1F30); (0x1F48, 0x1F4D, 1, 0x1F40);
   (0x1F59, 0x1F5F, 2, 0x1F51); (0x1F68, 0x1F6F, 1, 0x1F60);
   (0x1F88, 0x1F8F, 1, 0x1F80); (0x1F98, 0x1F9F, 1, 0x1F90);
   (0x1FA8, 0x1FAF, 1, 0x1FA0); (0x1FB8, 0x1FB9, 1, 0x1FB0);
   (0x1FBA, 0x1FBB, 1, 0x1F70); (0x1FBC, 0x1FBC, 1, 0x1FB3);
   (0x1FC8, 0x1FCB, 1, 0x1F72); (0x1FCC, 0x1FCC, 1, 0x1FC3);
   (0x1FD8, 0x1FD9, 1, 0x1FD0); (0x1FDA, 0x1FDB, 1, 0x1F76);
   (0x1FE8, 0x1FE9, 1, 0x1FE0); (0x1FEA, 0x1FEB, 1, 0x1F7A);
   (0x1FEC, 0x1FEC, 1, 0x1FE5); (0x1FF8, 0x1FF9, 1, 0x1F78);
   (0x1FFA, 0x1FFB, 1, 0x1F7C); (0x1FFC, 0x1FFC, 1, 0x1FF3);
   (0x2126, 0x2126, 1, 0x3C9); (0x212A, 0x212A, 1, 0x6B);
   (0x212B, 0x212B, 1, 0xE5); (0x2132, 0x2132, 1, 0x214E);
   (0x2160, 0x216F, 1, 0x2170); (0x2183, 0x2183, 1, 0x2184);
   (0x24B6, 0x24CF, 1, 0x24D0); (0x2C00, 0x2C2F, 1, 0x2C30);
   (0x2C60, 0x2C60, 1, 0x2C61); (0x2C62, 0x2C62, 1, 0x26B);
   (0x2C63, 0x2C63, 1, 0x1D7D); (0x2C64, 0x2C64, 1, 0x27D);
   (0x2C67, 0x2C6B, 2, 0x2C68); (0x2C6D, 0x2C6D, 1, 0x251);
   (0x2C6E, 0x2C6E, 1, 0x271); (0x2C6F, 0x2C6F, 1, 0x250);
   (0x2C70, 0x2C70, 1, 0x252); (0x2C72, 0x2C72, 1, 0x2C73);
   (0x2C75, 0x2C75, 1, 0x2C76); (0x2C7E, 0x2C7F, 1, 0x23F);
   (0x2C80, 0x2CE2, 2, 0x2C81); (0x2CEB, 0x2CED, 2, 0x2CEC);
   (0x2CF2, 0x2CF2, 1, 0x2CF3); (0xA640, 0xA66C, 2, 0xA641);
   (0xA680, 0xA69A, 2, 0xA681); (0xA722, 0xA72E, 2, 0xA723);
   (0xA732, 0xA76E, 2, 0xA733); (0xA779, 0xA77B, 2, 0xA77A);
   (0xA77D, 0xA77D, 1, 0x1D79); (0xA77E, 0xA786, 2, 0xA77F);
   (0xA78B, 0xA78B, 1, 0xA78C); (0xA78D, 0xA78D, 1, 0x265);
   (0xA790, 0xA792, 2, 0xA791); (0xA796, 0xA7A8, 2, 0xA797);
   (0xA7AA, 0xA7AA, 1, 0x266); (0xA7AB, 0xA7AB, 1, 0x25C);
   (0xA7AC, 0xA7AC, 1, 0x261); (0xA7AD, 0xA7AD, 1, 0x26C);
   (0xA7AE, 0xA7AE, 1, 0x26A); (0xA7B0, 0xA7B0, 1, 0x29E);
   (0xA7B1, 0xA7B1, 1, 0x287); (0xA7B2, 0xA7B2, 1, 0x29D);
   (0xA7B3, 0xA7B3, 1, 0xAB53); (0xA7B4, 0xA7C2, 2, 0xA7B5);
   (0xA7C4, 0xA7C4, 1, 0xA794); (0xA7C5, 0xA7C5, 1, 0x282);
   (0xA7C6, 0xA7C6, 1, 0x1D8E); (0xA7C7, 0xA7C9, 2, 0xA7C8);
   (0xA7D0, 0xA7D0, 1, 0xA7D1); (0xA7D6, 0xA7D8, 2, 0xA7D7);
   (0xA7F5, 0xA7F5, 1, 0xA7F6); (0xFF21, 0xFF3A, 1, 0xFF41);
   (0x10400, 0x10427, 1, 0x10428); (0x104B0, 0x104D3, 1, 0x104D8);
   (0x10570, 0x10594, 2, 0x10597); (0x10571, 0x10579, 2, 0x10598);
   (0x1057D, 0x10589, 2, 0x105A4); (0x1058D, 0x10591, 2, 0x105B4);
   (0x10595, 0x10595, 1, 0x105BC); (0x10C80, 0x10CB2, 1, 0x10CC0);
   (0x118A0, 0x118BF, 1, 0x118C0); (0x16E40, 0x16E5F, 1, 0x16E60);
   (0x1E900, 0x1E921, 1, 0x1E922)]%N.

(** The code points with the property [Cased], and those with
    [Case_Ignorable], in ranges. *)
Definition Cased : list (N * N) :=
  [(0x41, 0x5A); (0x61, 0x7A); (0xAA, 0xAA); (0xB5, 0xB5); (0xBA, 0xBA);
   (0xC0, 0xD6); (0xD8, 0xF6); (0xF8, 0x1BA); (0x1BC, 0x1BF); (0x1C4, 0x293);
   (0x295, 0x2B8); (0x2C0, 0x2C1); (0x2E0, 0x2E4); (0x345, 0x345);
   (0x370, 0x373); (0x376, 0x377); (0x37A, 0x37D); (0x37F, 0x37F);
   (0x386, 0x386); (0x388, 0x38A); (0x38C, 0x38C); (0x38E, 0x3A1);
   (0x3A3, 0x3F5); (0x3F7, 0x481); (0x48A, 0x52F); (0x531, 0x556);
   (0x560, 0x588); (0x10A0, 0x10C5); (0x10C7, 0x10C7); (0x10CD, 0x10CD);
   (0x10D0, 0x10FA); (0x10FD, 0x10FF); (0x13A0, 0x13F5); (0x13F8, 0x13FD);
   (0x1C80, 0x1C88); (0x1C90, 0x1CBA); (0x1CBD, 0x1CBF); (0x1D00, 0x1DBF);
   (0x1E00, 0x1F15); (0x1F18, 0x1F1D); (0x1F20, 0x1F45); (0x1F48, 0x1F4D);
   (0x1F50, 0x1F57); (0x1F59, 0x1F59); (0x1F5B, 0x1F5B); (0x1F5D, 0x1F5D);
   (0x1F5F, 0x1F7D); (0x1F80, 0x1FB4); (0x1FB6, 0x1FBC); (0x1FBE, 0x1FBE);
   (0x1FC2, 0x1FC4); (0x1FC6, 0x1FCC); (0x1FD0, 0x1FD3); (0x1FD6, 0x1FDB);
   (0x1FE0, 0x1FEC); (0x1FF2, 0x1FF4); (0x1FF6, 0x1FFC); (0x2071, 0x2071);
   (0x207F, 0x207F); (0x2090, 0x209C); (0x2102, 0x2102); (0x2107, 0x2107);
   (0x210A, 0x2113); (0x2115, 0x2115); (0x2119, 0x211D); (0x2124, 0x2124);
   (0x2126, 0x2126); (0x2128, 0x2128); (0x212A, 0x212D); (0x212F, 0x2134);
   (0x2139, 0x2139); (0x213C, 0x213F); (0x2145, 0x2149); (0x214E, 0x214E);
   (0x2160, 0x217F); (0x2183, 0x2184); (0x24B6, 0x24E9); (0x2C00, 0x2CE4);
   (0x2CEB, 0x2CEE); (0x2CF2, 0x2CF3); (0x2D00, 0x2D25); (0x2D27, 0x2D27);
   (0x2D2D, 0x2D2D); (0xA640, 0xA66D); (0xA680, 0xA69D); (0xA722, 0xA787);
   (0xA78B, 0xA78E); (0xA790, 0xA7CA); (0xA7D0, 0xA7D1); (0xA7D3, 0xA7D3);
   (0xA7D5, 0xA7D9); (0xA7F5, 0xA7F6); (0xA7F8, 0xA7FA); (0xAB30, 0xAB5A);
   (0xAB5C, 0xAB68); (0xAB70, 0xABBF); (0xFB00, 0xFB06); (0xFB13, 0xFB17);
   (0xFF21, 0xFF3A); (0xFF41, 0xFF5A); (0x10400, 0x1044F); (0x104B0, 0x104D3);
   (0x104D8, 0x104FB); (0x10570, 0x1057A); (0x1057C, 0x1058A);
   (0x1058C, 0x10592); (0x10594, 0x10595); (0x10597, 0x105A1);
   (0x105A3, 0x105B1); (0x105B3, 0x105B9); (0x105BB, 0x105BC);
   (0x10780, 0x10780); (0x10783, 0x10785); (0x10787, 0x107B0);
   (0x107B2, 0x107BA); (0x10C80, 0x10CB2); (0x10CC0, 0x10CF2);
   (0x118A0, 0x118DF); (0x16E40, 0x16E7F); (0x1D400, 0x1D454);
   (0x1D456, 0x1D49C); (0x1D49E, 0x1D49F); (0x1D4A2, 0x1D4A2);
   (0x1D4A5, 0x1D4A6); (0x1D4A9, 0x1D4AC); (0x1D4AE, 0x1D4B9);
   (0x1D4BB, 0x1D4BB); (0x1D4BD, 0x1D4C3); (0x1D4C5, 0x1D505);
   (0x1D507, 0x1D50A); (0x1D50D, 0x1D514); (0x1D516, 0x1D51C);
   (0x1D51E, 0x1D539); (0x1D53B, 0x1D53E); (0x1D540, 0x1D544);
   (0x1D546, 0x1D546); (0x1D54A, 0x1D550); (0x1D552, 0x1D6A5);
   (0x1D6A8, 0x1D6C0); (0x1D6C2, 0x1D6DA); (0x1D6DC, 0x1D6FA);
   (0x1D6FC, 0x1D714); (0x1D716, 0x1D734); (0x1D736, 0x1D74E);
   (0x1D750, 0x1D76E); (0x1D770, 0x1D788); (0x1D78A, 0x1D7A8);
   (0x1D7AA, 0x1D7C2); (0x1D7C4, 0x1D7CB); (0x1DF00, 0x1DF09);
   (0x1DF0B, 0x1DF1E); (0x1E900, 0x1E943); (0x1F130, 0x1F149);
   (0x1F150, 0x1F169); (0x1F170, 0x1F189)]%N.

Definition Case_Ignorable : list (N * N) :=
  [(0x27, 0x27); (0x2E, 0x2E); (0x3A, 0x3A); (0x5E, 0x5E); (0x60, 0x60);
   (0xA8, 0xA8); (0xAD, 0xAD); (0xAF, 0xAF); (0xB4, 0xB4); (0xB7, 0xB8);
   (0x2B0, 0x36F); (0x374, 0x375); (0x37A, 0x37A); (0x384, 0x385);
   (0x387, 0x387); (0x483, 0x489); (0x559, 0x559); (0x55F, 0x55F);
   (0x591, 0x5BD); (0x5BF, 0x5BF); (0x5C1, 0x5C2); (0x5C4, 0x5C5);
   (0x5C7, 0x5C7); (0x5F4, 0x5F4); (0x600, 0x605); (0x610, 0x61A);
   (0x61C, 0x61C); (0x640, 0x640); (0x64B, 0x65F); (0x670, 0x670);
   (0x6D6, 0x6DD); (0x6DF, 0x6E8); (0x6EA, 0x6ED); (0x70F, 0x70F);
   (0x711, 0x711); (0x730, 0x74A); (0x7A6, 0x7B0); (0x7EB, 0x7F5);
   (0x7FA, 0x7FA); (0x7FD, 0x7FD); (0x816, 0x82D); (0x859, 0x85B);
   (0x888, 0x888); (0x890, 0x891); (0x898, 0x89F); (0x8C9, 0x902);
   (0x93A, 0x93A); (0x93C, 0x93C); (0x941, 0x948); (0x94D, 0x94D);
   (0x951, 0x957); (0x962, 0x963); (0x971, 0x971); (0x981, 0x981);
   (0x9BC, 0x9BC); (0x9C1, 0x9C4); (0x9CD, 0x9CD); (0x9E2, 0x9E3);
   (0x9FE, 0x9FE); (0xA01, 0xA02); (0xA3C, 0xA3C); (0xA41, 0xA42);
   (0xA47, 0xA48); (0xA4B, 0xA4D); (0xA51, 0xA51); (0xA70, 0xA71);
   (0xA75, 0xA75); (0xA81, 0xA82); (0xABC, 0xABC); (0xAC1, 0xAC5);
   (0xAC7, 0xAC8); (0xACD, 0xACD); (0xAE2, 0xAE3); (0xAFA, 0xAFF);
   (0xB01, 0xB01); (0xB3C, 0xB3C); (0xB3F, 0xB3F); (0xB41, 0xB44);
   (0xB4D, 0xB4D); (0xB55, 0xB56); (0xB62, 0xB63); (0xB82, 0xB82);
   (0xBC0, 0xBC0); (0xBCD, 0xBCD); (0xC00, 0xC00); (0xC04, 0xC04);
   (0xC3C, 0xC3C); (0xC3E, 0xC40); (0xC46, 0xC48); (0xC4A, 0xC4D);
   (0xC55, 0xC56); (0xC62, 0xC63); (0xC81, 0xC81); (0xCBC, 0xCBC);
   (0xCBF, 0xCBF); (0xCC6, 0xCC6); (0xCCC, 0xCCD); (0xCE2, 0xCE3);
   (0xD00, 0xD01); (0xD3B, 0xD3C); (0xD41, 0xD44); (0xD4D, 0xD4D);
   (0xD62, 0xD63); (0xD81, 0xD81); (0xDCA, 0xDCA); (0xDD2, 0xDD4);
   (0xDD6, 0xDD6); (0xE31, 0xE31); (0xE34, 0xE3A); (0xE46, 0xE4E);
   (0xEB1, 0xEB1); (0xEB4, 0xEBC); (0xEC6, 0xEC6); (0xEC8, 0xECD);
   (0xF18, 0xF19); (0xF35, 0xF35); (0xF37, 0xF37); (0xF39, 0xF39);
   (0xF71, 0xF7E); (0xF80, 0xF84); (0xF86, 0xF87); (0xF8D, 0xF97);
   (0xF99, 0xFBC); (0xFC6, 0xFC6); (0x102D, 0x1030); (0x1032, 0x1037);
   (0x1039, 0x103A); (0x103D, 0x103E); (0x1058, 0x1059); (0x105E, 0x1060);
   (0x1071, 0x1074); (0x1082, 0x1082); (0x1085, 0x1086); (0x108D, 0x108D);
   (0x109D, 0x109D); (0x10FC, 0x10FC); (0x135D, 0x135F); (0x1712, 0x1714);
   (0x1732, 0x1733); (0x1752, 0x1753); (0x1772, 0x1773); (0x17B4, 0x17B5);
   (0x17B7, 0x17BD); (0x17C6, 0x17C6); (0x17C9, 0x17D3); (0x17D7, 0x17D7);
   (0x17DD, 0x17DD); (0x180B, 0x180F); (0x1843, 0x1843); (0x1885, 0x1886);
   (0x18A9, 0x18A9); (0x1920, 0x1922); (0x1927, 0x1928); (0x1932, 0x1932);
   (0x1939, 0x193B); (0x1A17, 0x1A18); (0x1A1B, 0x1A1B); (0x1A56, 0x1A56);
   (0x1A58, 0x1A5E); (0x1A60, 0x1A60); (0x1A62, 0x1A62); (0x1A65, 0x1A6C);
   (0x1A73, 0x1A7C); (0x1A7F, 0x1A7F); (0x1AA7, 0x1AA7); (0x1AB0, 0x1ACE);
   (0x1B00, 0x1B03); (0x1B34, 0x1B34); (0x1B36, 0x1B3A); (0x1B3C, 0x1B3C);
   (0x1B42, 0x1B42); (0x1B6B, 0x1B73); (0x1B80, 0x1B81); (0x1BA2, 0x1BA5);
   (0x1BA8, 0x1BA9); (0x1BAB, 0x1BAD); (0x1BE6, 0x1BE6); (0x1BE8, 0x1BE9);
   (0x1BED, 0x1BED); (0x1BEF, 0x1BF1); (0x1C2C, 0x1C33); (0x1C36, 0x1C37);
   (0x1C78, 0x1C7D); (0x1CD0, 0x1CD2); (0x1CD4, 0x1CE0); (0x1CE2, 0x1CE8);
   (0x1CED, 0x1CED); (0x1CF4, 0x1CF4); (0x1CF8, 0x1CF9); (0x1D2C, 0x1D6A);
   (0x1D78, 0x1D78); (0x1D9B, 0x1DFF); (0x1FBD, 0x1FBD); (0x1FBF, 0x1FC1);
   (0x1FCD, 0x1FCF); (0x1FDD, 0x1FDF); (0x1FED, 0x1FEF); (0x1FFD, 0x1FFE);
   (0x200B, 0x200F); (0x2018, 0x2019); (0x2024, 0x2024); (0x2027, 0x2027);
   (0x202A, 0x202E); (0x2060, 0x2064); (0x2066, 0x206F); (0x2071, 0x2071);
   (0x207F, 0x207F); (0x2090, 0x209C); (0x20D0, 0x20F0); (0x2C7C, 0x2C7D);
   (0x2CEF, 0x2CF1); (0x2D6F, 0x2D6F); (0x2D7F, 0x2D7F); (0x2DE0, 0x2DFF);
   (0x2E2F, 0x2E2F); (0x3005, 0x3005); (0x302A, 0x302D); (0x3031, 0x3035);
   (0x303B, 0x303B); (0x3099, 0x309E); (0x30FC, 0x30FE); (0xA015, 0xA015);
   (0xA4F8, 0xA4FD); (0xA60C, 0xA60C); (0xA66F, 0xA672); (0xA674, 0xA67D);
   (0xA67F, 0xA67F); (0xA69C, 0xA69F); (0xA6F0, 0xA6F1); (0xA700, 0xA721);
   (0xA770, 0xA770); (0xA788, 0xA78A); (0xA7F2, 0xA7F4); (0xA7F8, 0xA7F9);
   (0xA802, 0xA802); (0xA806, 0xA806); (0xA80B, 0xA80B); (0xA825, 0xA826);
   (0xA82C, 0xA82C); (0xA8C4, 0xA8C5); (0xA8E0, 0xA8F1); (0xA8FF, 0xA8FF);
   (0xA926, 0xA92D); (0xA947, 0xA951); (0xA980, 0xA982); (0xA9B3, 0xA9B3);
   (0xA9B6, 0xA9B9); (0xA9BC, 0xA9BD); (0xA9CF, 0xA9CF); (0xA9E5, 0xA9E6);
   (0xAA29, 0xAA2E); (0xAA31, 0xAA32); (0xAA35, 0xAA36); (0xAA43, 0xAA43);
   (0xAA4C, 0xAA4C); (0xAA70, 0xAA70); (0xAA7C, 0xAA7C); (0xAAB0, 0xAAB0);
   (0xAAB2, 0xAAB4); (0xAAB7, 0xAAB8); (0xAABE, 0xAABF); (0xAAC1, 0xAAC1);
   (0xAADD, 0xAADD); (0xAAEC, 0xAAED); (0xAAF3, 0xAAF4); (0xAAF6, 0xAAF6);
   (0xAB5B, 0xAB5F); (0xAB69, 0xAB6B); (0xABE5, 0xABE5); (0xABE8, 0xABE8);
   (0xABED, 0xABED); (0xFB1E, 0xFB1E); (0xFBB2, 0xFBC2); (0xFE00, 0xFE0F);
   (0xFE13, 0xFE13); (0xFE20, 0xFE2F); (0xFE52, 0xFE52); (0xFE55, 0xFE55);
   (0xFEFF, 0xFEFF); (0xFF07, 0xFF07); (0xFF0E, 0xFF0E); (0xFF1A, 0xFF1A);
   (0xFF3E, 0xFF3E); (0xFF40, 0xFF40); (0xFF70, 0xFF70); (0xFF9E, 0xFF9F);
   (0xFFE3, 0xFFE3); (0xFFF9, 0xFFFB); (0x101FD, 0x101FD); (0x102E0, 0x102E0);
   (0x10376, 0x1037A); (0x10780, 0x10785); (0x10787, 0x107B0);
   (0x107B2, 0x107BA); (0x10A01, 0x10A03); (0x10A05, 0x10A06);
   (0x10A0C, 0x10A0F); (0x10A38, 0x10A3A); (0x10A3F, 0x10A3F);
   (0x10AE5, 0x10AE6); (0x10D24, 0x10D27); (0x10EAB, 0x10EAC);
   (0x10F46, 0x10F50); (0x10F82, 0x10F85); (0x11001, 0x11001);
   (0x11038, 0x11046); (0x11070, 0x11070); (0x11073, 0x11074);
   (0x1107F, 0x11081); (0x110B3, 0x110B6); (0x110B9, 0x110BA);
   (0x110BD, 0x110BD); (0x110C2, 0x110C2); (0x110CD, 0x110CD);
   (0x11100, 0x11102); (0x11127, 0x1112B); (0x1112D, 0x11134);
   (0x11173, 0x11173); (0x11180, 0x11181); (0x111B6, 0x111BE);
   (0x111C9, 0x111CC); (0x111CF, 0x111CF); (0x1122F, 0x11231);
   (0x11234, 0x11234); (0x11236, 0x11237); (0x1123E, 0x1123E);
   (0x112DF, 0x112DF); (0x112E3, 0x112EA); (0x11300, 0x11301);
   (0x1133B, 0x1133C); (0x11340, 0x11340); (0x11366, 0x1136C);
   (0x11370, 0x11374); (0x11438, 0x1143F); (0x11442, 0x11444);
   (0x11446, 0x11446); (0x1145E, 0x1145E); (0x114B3, 0x114B8);
   (0x114BA, 0x114BA); (0x114BF, 0x114C0); (0x114C2, 0x114C3);
   (0x115B2, 0x115B5); (0x115BC, 0x115BD); (0x115BF, 0x115C0);
   (0x115DC, 0x115DD); (0x11633, 0x1163A); (0x1163D, 0x1163D);
   (0x1163F, 0x11640); (0x116AB, 0x116AB); (0x116AD, 0x116AD);
   (0x116B0, 0x116B5); (0x116B7, 0x116B7); (0x1171D, 0x1171F);
   (0x11722, 0x11725); (0x11727, 0x1172B); (0x1182F, 0x11837);
   (0x11839, 0x1183A); (0x1193B, 0x1193C); (0x1193E, 0x1193E);
   (0x11943, 0x11943); (0x119D4, 0x119D7); (0x119DA, 0x119DB);
   (0x119E0, 0x119E0); (0x11A01, 0x11A0A); (0x11A33, 0x11A38);
   (0x11A3B, 0x11A3E); (0x11A47, 0x11A47); (0x11A51, 0x11A56);
   (0x11A59, 0x11A5B); (0x11A8A, 0x11A96); (0x11A98, 0x11A99);
   (0x11C30, 0x11C36); (0x11C38, 0x11C3D); (0x11C3F, 0x11C3F);
   (0x11C92, 0x11CA7); (0x11CAA, 0x11CB0); (0x11CB2, 0x11CB3);
   (0x11CB5, 0x11CB6); (0x11D31, 0x11D36); (0x11D3A, 0x11D3A);
   (0x11D3C, 0x11D3D); (0x11D3F, 0x11D45); (0x11D47, 0x11D47);
   (0x11D90, 0x11D91); (0x11D95, 0x11D95); (0x11D97, 0x11D97);
   (0x11EF3, 0x11EF4); (0x13430, 0x13438); (0x16AF0, 0x16AF4);
   (0x16B30, 0x16B36); (0x16B40, 0x16B43); (0x16F4F, 0x16F4F);
   (0x16F8F, 0x16F9F); (0x16FE0, 0x16FE1); (0x16FE3, 0x16FE4);
   (0x1AFF0, 0x1AFF3); (0x1AFF5, 0x1AFFB); (0x1AFFD, 0x1AFFE);
   (0x1BC9D, 0x1BC9E); (0x1BCA0, 0x1BCA3); (0x1CF00, 0x1CF2D);
   (0x1CF30, 0x1CF46); (0x1D167, 0x1D169); (0x1D173, 0x1D182);
   (0x1D185, 0x1D18B); (0x1D1AA, 0x1D1AD); (0x1D242, 0x1D244);
   (0x1DA00, 0x1DA36); (0x1DA3B, 0x1DA6C); (0x1DA75, 0x1DA75);
   (0x1DA84, 0x1DA84); (0x1DA9B, 0x1DA9F); (0x1DAA1, 0x1DAAF);
   (0x1E000, 0x1E006); (0x1E008, 0x1E018); (0x1E01B, 0x1E021);
   (0x1E023, 0x1E024); (0x1E026, 0x1E02A); (0x1E130, 0x1E13D);
   (0x1E2AE, 0x1E2AE); (0x1E2EC, 0x1E2EF); (0x1E8D0, 0x1E8D6);
   (0x1E944, 0x1E94B); (0x1F3FB, 0x1F3FF); (0xE0001, 0xE0001);
   (0xE0020, 0xE007F); (0xE0100, 0xE01EF)]%N.

(** The lowercase mapping of a code point that [UnicodeData.txt] gives. *)
Definition simple_lowercase (p : N) : N :=
  match find (fun '(lo, hi, step, _) =>
                (lo <=? p) && (p <=? hi) && ((p - lo) mod step =? 0))%N
             lowercase_runs with
  | Some (lo, _, _, to) => (to + (p - lo))%N
  | None => p
  end.

(** The mapping with [SpecialCasing.txt], whose one entry for lowercase that
    holds in every language and context is that of U+0130. *)
Definition lowercase (p : N) : list N :=
  if (p =? 0x130)%N then [0x69; 0x307]%N else [simple_lowercase p].

(** A cased letter follows, after case-ignorable characters if any. *)
Fixpoint cased_follows (l : list element) : bool :=
  match l with
  | Scalar p :: l' =>
      if within Case_Ignorable p then cased_follows l' else within Cased p
  | _ => false
  end.

(** Lowercasing from left to right; [before] tells that a cased letter
    comes before, case-ignorable characters apart.  A capital sigma
    (U+03A3) between such a letter and no such letter after is final, and
    becomes U+03C2 instead of U+03C3. *)
Fixpoint lower_from (before : bool) (l : list element) : list element :=
  match l with
  | [] => []
  | Stray b :: l' => Stray b :: lower_from false l'
  | Scalar p :: l' =>
      let image :=
        if (p =? 0x3A3)%N
        then if before && negb (cased_follows l') then [0x3C2]%N
             else [0x3C3]%N
        else lowercase p in
      let before := if within Case_Ignorable p then before
                    else within Cased p in
      (map Scalar image ++ lower_from before l')%list
  end.

(** [s.toLowerCase()] *)
Definition toLowerCase (s : string) : string :=
  string_of_list_ascii
    (text (lower_from false (elements (list_ascii_of_string s)))).

(** WhiteSpace and LineTerminator of ECMA-262: the characters [trim]
    removes. *)
Definition white_space : list N :=
  [0x9; 0xA; 0xB; 0xC; 0xD; 0x20; 0xA0; 0x1680; 0x2000; 0x2001; 0x2002;
   0x2003; 0x2004; 0x2005; 0x2006; 0x2007; 0x2008; 0x2009; 0x200A; 0x2028;
   0x2029; 0x202F; 0x205F; 0x3000; 0xFEFF]%N.

(** [l] without [prefix], if it starts with it. *)
Fixpoint without_prefix (prefix l : list ascii) : option (list ascii) :=
  match prefix, l with
  | [], _ => Some l
  | p :: prefix', c :: l' =>
      if Ascii.eqb p c then without_prefix prefix' l' else None
  | _ :: _, [] => None
  end.

(** [l] without the first of [patterns] it starts with. *)
Fixpoint without_one (patterns : list (list ascii)) (l : list ascii)
    : option (list ascii) :=
  match patterns with
  | [] => None
  | pattern :: patterns' =>
      match without_prefix pattern l with
      | Some rest => Some rest
      | None => without_one patterns' l
      end
  end.

(** [l] without the [patterns] it starts with, one after the other; each
    takes a byte at least, so [fuel] is the length of [l]. *)
Fixpoint without_all (fuel : nat) (patterns : list (list ascii))
    (l : list ascii) : list ascii :=
  match fuel with
  | O => l
  | S fuel' =>
      match without_one patterns l with
      | Some rest => without_all fuel' patterns rest
      | None => l
      end
  end.

(** On UTF-8 text a character is at the start, or at the end, exactly when
    its bytes are: the first byte of a character continues no other. *)
Definition trim_start (l : list ascii) : list ascii :=
  without_all (length l) (map utf8 white_space) l.

Definition trim_end (l : list ascii) : list ascii :=
  rev (without_all (length l) (map (fun p => rev (utf8 p)) white_space)
                   (rev l)).

(** [s.trim()] *)
Definition trim (s : string) : string :=
  string_of_list_ascii (trim_end (trim_start (list_ascii_of_string s))).

(** The class [[a-z0-9]]. *)
Definition is_lower_alnum (c : ascii) : bool :=
  let n := nat_of_ascii c in
  ((97 <=? n) && (n <=? 122)) || ((48 <=? n) && (n <=? 57)).

(** [s.replace(/[^a-z0-9]/g, '')] *)
Definition strip_non_alnum (s : string) : string :=
  string_of_list_ascii (filter is_lower_alnum (list_ascii_of_string s)).

(** [col.toLowerCase().trim().replace(/[^a-z0-9]/g, '')] *)
Definition normalizeColumn (col : string) : string :=
  strip_non_alnum (trim (toLowerCase col)).

Inductive DatasetType : Type :=
| comprehensive
| basic
| unknown.

Local Open Scope string_scope.

Definition getDatasetType {number : Type} (dataset : Dataset number)
    : DatasetType :=
  let normalizedColumns := map normalizeColumn (columns dataset) in
  let comprehensiveFeatures :=
    ["highbp"; "highchol"; "cholcheck"; "bmi"; "smoker"; "stroke";
     "heartdiseaseorattack"; "physactivity"; "fruits"; "veggies"] in
  let basicFeatures := ["glucose"; "bloodpressure"; "bmi"] in
  let hasComprehensiveFeatures :=
    (5 <=? List.length (filter (includes normalizedColumns) comprehensiveFeatures))%nat in
  let hasBasicFeatures :=
    (2 <=? List.length (filter (includes normalizedColumns) basicFeatures))%nat in
  if hasComprehensiveFeatures then comprehensive
  else if hasBasicFeatures then basic
  else unknown.

Local Close Scope string_scope.

(** * The metrics evaluator *)

Section Metrics.

Context {number : Type} {N : Number number}.
Local Open Scope js_scope.

Record ModelMetrics : Type := {
  accuracy : number;
  precision : number;
  recall : number;
  f1Score : number;
  confusionMatrix : list (list number)
}.

(** The four counters [tp], [fp], [tn], [fn] of [calculateMetrics]. *)
Record counters : Type := {
  tp : number;
  fp : number;
  tn : number;
  fn : number
}.

(** The body of the counting loop, on [t = yTrue[i]] and [p = yPred[i]]. *)
Definition count_pair (t p : number) (c : counters) : counters :=
  if (t === lit 1) && (p === lit 1)
  then {| tp := tp c + lit 1; fp := fp c; tn := tn c; fn := fn c |}
  else if (t === lit 0) && (p === lit 1)
  then {| tp := tp c; fp := fp c + lit 1; tn := tn c; fn := fn c |}
  else if (t === lit 0) && (p === lit 0)
  then {| tp := tp c; fp := fp c; tn := tn c + lit 1; fn := fn c |}
  else if (t === lit 1) && (p === lit 0)
  then {| tp := tp c; fp := fp c; tn := tn c; fn := fn c + lit 1 |}
  else c.

(** The counting loop. *)
Definition count_outcomes (yTrue yPred : list number) : counters :=
  for_loop (length yTrue)
    (fun i c => count_pair (get yTrue i) (get yPred i) c)
    {| tp := lit 0; fp := lit 0; tn := lit 0; fn := lit 0 |}.

Definition calculateMetrics (yTrue yPred : list number) : ModelMetrics :=
  let c := count_outcomes yTrue yPred in
  let accuracy := (tp c + tn c) / (tp c + fp c + tn c + fn c) in
  let precision := tp c / (tp c + fp c) ||| lit 0 in
  let recall := tp c / (tp c + fn c) ||| lit 0 in
  let f1Score :=
    lit 2 * (precision * recall) / (precision + recall) ||| lit 0 in
  {| accuracy := accuracy;
     precision := precision;
     recall := recall;
     f1Score := f1Score;
     confusionMatrix := [[tn c; fp c]; [fn c; tp c]] |}.

End Metrics.

Arguments ModelMetrics : clear implicits.
Arguments counters : clear implicits.

(** * [trainDiabetesModel] *)

Section TrainDiabetesModel.

Context {number : Type} {N : Number number} {E : MathExp number}.

(** [Number(s)] on a String, the engine's StringToNumber. *)
Variable StringToNumber : string -> number.

Local Open Scope js_scope.

(** [Number(row[column])] *)
Definition Number_of (v : option (cell number)) : number :=
  match v with
  | None => NaN
  | Some (CNumber x) => x
  | Some (CString s) => StringToNumber s
  | Some CNull => lit 0
  end.

(** The object [columnMapping]: normalized name to original name, filled
    in the order of [dataset.columns]. *)
Definition columnMapping (dataset : Dataset number) : list (string * string) :=
  fold_left (fun mapping originalCol =>
               (normalizeColumn originalCol, originalCol) :: mapping)
            (columns dataset) [].

Local Open Scope string_scope.

Definition comprehensive_features : list string :=
  ["highbp"; "highchol"; "cholcheck"; "bmi"; "smoker"; "stroke";
   "heartdiseaseorattack"; "physactivity"; "fruits"; "veggies";
   "hvyalcoholconsump"; "anyhealthcare"; "nodocbccost"; "genhlth";
   "menthlth"; "physhlth"; "diffwalk"; "sex"; "age"; "education"; "income"].

Definition basic_features : list string :=
  ["glucose"; "bloodpressure"; "bmi"; "age"].

(** The feature list and the target column by dataset type. *)
Definition resolve_features (dataset : Dataset number)
    : Result (list string * string) :=
  let normalizedColumns := map normalizeColumn (columns dataset) in
  match getDatasetType dataset with
  | comprehensive =>
      let features := filter (includes normalizedColumns) comprehensive_features in
      let targetColumn :=
        if includes normalizedColumns "diabetesbinary" then "diabetesbinary"
        else if includes normalizedColumns "diabetes012" then "diabetes012"
        else "" in
      Ok (features, targetColumn)
  | basic =>
      Ok (filter (includes normalizedColumns) basic_features, "outcome")
  | unknown => Throw UnsupportedDatasetFormat
  end.

(** The body of [features.forEach] inside the row loop, on the pair
    [(featureRow, isValid)].  [if (actualColumn)] fails on [undefined] and
    on the empty text. *)
Definition extract_feature (mapping : list (string * string))
    (row : DatasetRow number) (st : list number * bool) (feature : string)
    : list number * bool :=
  let '(featureRow, isValid) := st in
  match lookup mapping feature with
  | Some actualColumn =>
      if String.eqb actualColumn "" then (featureRow, false)
      else
        let value := Number_of (lookup row actualColumn) in
        let isValid := if isNaN value then false else isValid in
        ((featureRow ++ [value])%list, isValid)
  | None => (featureRow, false)
  end.

(** The body of [dataset.data.forEach] on the pair [(X, y)]. *)
Definition extract_row (mapping : list (string * string))
    (features : list string) (targetColumn actualTargetColumn : string)
    (Xy : list (list number) * list number) (row : DatasetRow number)
    : list (list number) * list number :=
  let '(X, y) := Xy in
  let '(featureRow, isValid) :=
    fold_left (extract_feature mapping row) features ([], true) in
  let target := Number_of (lookup row actualTargetColumn) in
  let target :=
    if String.eqb targetColumn "diabetes012"
    then (if target > lit 0 then lit 1 else lit 0)
    else target in
  if isNaN target || negb isValid then (X, y)
  else ((X ++ [featureRow])%list, (y ++ [target])%list).

Local Close Scope string_scope.

Definition extract (mapping : list (string * string))
    (features : list string) (targetColumn actualTargetColumn : string)
    (rows : list (DatasetRow number)) : list (list number) * list number :=
  fold_left (extract_row mapping features targetColumn actualTargetColumn)
            rows ([], []).

(** The loop that fills [means]. *)
Definition compute_means (k : nat) (X : list (list number)) : list number :=
  for_loop k
    (fun i means =>
       set means i
           (reduce (fun sum row _ => sum + get row i) X (lit 0)
            / of_length (length X)))
    (Array_fill k (lit 0)).

(** [Math.pow(x, 2)], which engines compute as [x * x]. *)
Definition Math_pow2 (x : number) : number := x * x.

(** The loop that fills [stds]. *)
Definition compute_stds (k : nat) (X : list (list number))
    (means : list number) : list number :=
  for_loop k
    (fun i stds =>
       let variance :=
         reduce (fun sum row _ => sum + Math_pow2 (get row i - get means i))
                X (lit 0)
         / of_length (length X) in
       set stds i (Math_sqrt variance ||| lit 1))
    (Array_fill k (lit 0)).

(** [row.map((val, idx) => stds[idx] === 0 ? 0 : (val - means[idx]) / stds[idx])] *)
Definition normalize_row (means stds : list number) (row : list number)
    : list number :=
  mapi (fun val idx =>
          if get stds idx === lit 0 then lit 0
          else (val - get means idx) / get stds idx)
       row.

(** What the returned [predict] closes over, and the three data fields of
    the returned object. *)
Record TrainedModel : Type := {
  model : LogisticRegression number;
  means : list number;
  stds : list number;
  features : list string;
  targetColumn : string;
  metrics : ModelMetrics number
}.

(** The [predict] of the returned object. *)
Definition TrainedModel_predict (tm : TrainedModel) (input : list number)
    : Result number :=
  if negb (length input =? length (features tm))%nat then
    Throw (ExpectedFeatures (length (features tm)) (length input))
  else
    let normalizedInput := normalize_row (means tm) (stds tm) input in
    Ok (predict (model tm) normalizedInput).

(** The 80/20 split of an array. *)
Definition splitIndex (n : nat) : number :=
  Math_floor (of_length n * lit 0.8).

Definition train_part {A : Type} (a : list A) (n : nat) : list A :=
  slice a (lit 0) (Some (splitIndex n)).

Definition test_part {A : Type} (a : list A) (n : nat) : list A :=
  slice a (splitIndex n) None.

(** The steps of [trainDiabetesModel] after the rows are extracted. *)
Definition fit (features : list string) (actualTargetColumn : string)
    (X : list (list number)) (y : list number) : Result TrainedModel :=
  if (length X =? 0)%nat then Throw NoValidData
  else
    let means := compute_means (length features) X in
    let stds := compute_stds (length features) X means in
    let XNormalized := map (normalize_row means stds) X in
    let XTrain := train_part XNormalized (length X) in
    let yTrain := train_part y (length X) in
    let XTest := test_part XNormalized (length X) in
    let yTest := test_part y (length X) in
    match train (new_LogisticRegression (lit 0.01) 1000) XTrain yTrain with
    | Throw e => Throw e
    | Ok model =>
        let predictions := map (predict model) XTest in
        let metrics := calculateMetrics yTest predictions in
        Ok {| model := model;
              means := means;
              stds := stds;
              features := features;
              targetColumn := actualTargetColumn;
              metrics := metrics |}
    end.

(** [if (!actualTargetColumn)] holds on [undefined] and on the empty
    text. *)
Definition trainDiabetesModel (dataset : Dataset number) : Result TrainedModel :=
  match resolve_features dataset with
  | Throw e => Throw e
  | Ok (features, targetColumn) =>
      let mapping := columnMapping dataset in
      match lookup mapping targetColumn with
      | None => Throw (TargetColumnNotFound targetColumn)
      | Some actualTargetColumn =>
          if String.eqb actualTargetColumn ""
          then Throw (TargetColumnNotFound targetColumn)
          else
            let '(X, y) :=
              extract mapping features targetColumn actualTargetColumn
                      (data dataset) in
            fit features actualTargetColumn X y
      end
  end.

End TrainDiabetesModel.

Arguments TrainedModel : clear implicits.

(** * The static scorer ([predictDiabetes], the "pretrained" model) *)

Module Pretrained.

Section Scorer.

Context {number : Type} {N : Number number} {E : MathExp number}.
Local Open Scope js_scope.

(** The eight medical fields, the argument of [predictDiabetes]. *)
Record Input : Type := {
  pregnancies : number;
  glucose : number;
  bloodpressure : number;
  skinthickness : number;
  insulin : number;
  bmi : number;
  diabetespedigreefunction : number;
  age : number
}.

(** [modelWeights]: [Input]'s fields and the bias. *)
Definition modelWeights : Input * number :=
  ({| pregnancies := lit 0.42;
      glucose := lit 1.24;
      bloodpressure := lit 0.18;
      skinthickness := lit 0.08;
      insulin := lit 0.35;
      bmi := lit 0.89;
      diabetespedigreefunction := lit 0.67;
      age := lit 0.52 |},
   - lit 4.1).

Record Params : Type := { mean : number; std : number }.

(** The fields of [normalizationParams]. *)
Inductive Feature : Type :=
| Pregnancies | Glucose | BloodPressure | SkinThickness
| Insulin | BMI | DiabetesPedigreeFunction | Age.

Definition normalizationParams (feature : Feature) : Params :=
  match feature with
  | Pregnancies => {| mean := lit 3.845; std := lit 3.369 |}
  | Glucose => {| mean := lit 120.894; std := lit 31.972 |}
  | BloodPressure => {| mean := lit 69.105; std := lit 19.355 |}
  | SkinThickness => {| mean := lit 20.536; std := lit 15.952 |}
  | Insulin => {| mean := lit 79.799; std := lit 115.244 |}
  | BMI => {| mean := lit 31.992; std := lit 7.884 |}
  | DiabetesPedigreeFunction => {| mean := lit 0.472; std := lit 0.331 |}
  | Age => {| mean := lit 33.241; std := lit 11.760 |}
  end.

Definition sigmoid (z : number) : number :=
  let clampedZ := Math_max (- lit 500) (Math_min (lit 500) z) in
  lit 1 / (lit 1 + Math_exp (- clampedZ)).

Definition normalizeValue (value : number) (feature : Feature) : number :=
  let params := normalizationParams feature in
  if std params === lit 0 then lit 0
  else (value - mean params) / std params.

(** The result of [engineerFeatures]: the input and three interaction
    terms. *)
Record Engineered : Type := {
  input : Input;
  glucoseBMI : number;
  agePregnancies : number;
  insulinGlucose : number
}.

Definition engineerFeatures (input : Input) : Engineered :=
  let glucoseBMI := (glucose input / lit 100) * (bmi input / lit 30) in
  let agePregnancies := (age input / lit 30) * (pregnancies input / lit 5) in
  let insulinGlucose :=
    if insulin input > lit 0
    then (insulin input / lit 100) * (glucose input / lit 100)
    else lit 0 in
  {| input := input;
     glucoseBMI := glucoseBMI;
     agePregnancies := agePregnancies;
     insulinGlucose := insulinGlucose |}.

Inductive Risk : Type := low | high.

Record Prediction : Type := {
  prediction : number;
  probability : number;
  risk : Risk;
  confidence : number
}.

(** [cleanedInput] *)
Definition cleanInput (input : Input) : Input :=
  {| pregnancies := Math_max (lit 0) (pregnancies input ||| lit 0);
     glucose := Math_max (lit 0) (glucose input ||| lit 100);
     bloodpressure := Math_max (lit 0) (bloodpressure input ||| lit 70);
     skinthickness := Math_max (lit 0) (skinthickness input ||| lit 20);
     insulin := Math_max (lit 0) (insulin input ||| lit 80);
     bmi := Math_max (lit 10) (bmi input ||| lit 25);
     diabetespedigreefunction :=
       Math_max (lit 0) (diabetespedigreefunction input ||| lit 0.5);
     age := Math_max (lit 18) (age input ||| lit 30) |}.

(** The weighted sum [z] of [predictDiabetes]. *)
Definition linear_score (engineeredFeatures : Engineered) : number :=
  let f := input engineeredFeatures in
  let w := fst modelWeights in
  let normalizedPregnancies := normalizeValue (pregnancies f) Pregnancies in
  let normalizedGlucose := normalizeValue (glucose f) Glucose in
  let normalizedBP := normalizeValue (bloodpressure f) BloodPressure in
  let normalizedSkinThickness :=
    normalizeValue (skinthickness f) SkinThickness in
  let normalizedInsulin := normalizeValue (insulin f) Insulin in
  let normalizedBMI := normalizeValue (bmi f) BMI in
  let normalizedDPF :=
    normalizeValue (diabetespedigreefunction f) DiabetesPedigreeFunction in
  let normalizedAge := normalizeValue (age f) Age in
  normalizedPregnancies * pregnancies w +
  normalizedGlucose * glucose w +
  normalizedBP * bloodpressure w +
  normalizedSkinThickness * skinthickness w +
  normalizedInsulin * insulin w +
  normalizedBMI * bmi w +
  normalizedDPF * diabetespedigreefunction w +
  normalizedAge * age w +
  (glucoseBMI engineeredFeatures * lit 0.15) +
  (agePregnancies engineeredFeatures * lit 0.08) +
  (insulinGlucose engineeredFeatures * lit 0.12) +
  snd modelWeights.

Definition predictDiabetes (input : Input) : Prediction :=
  let cleanedInput := cleanInput input in
  let engineeredFeatures := engineerFeatures cleanedInput in
  let z := linear_score engineeredFeatures in
  let probability := sigmoid z in
  let prediction := if probability >= lit 0.5 then lit 1 else lit 0 in
  let risk := if prediction === lit 1 then high else low in
  let confidence := Math_abs (probability - lit 0.5) * lit 2 in
  {| prediction := prediction;
     probability := probability;
     risk := risk;
     confidence := Math_min (lit 0.95) (Math_max (lit 0.6) confidence) |}.

End Scorer.

Arguments Input : clear implicits.
Arguments Params : clear implicits.
Arguments Engineered : clear implicits.
Arguments Prediction : clear implicits.

End Pretrained.

(** * The dataset validator ([validateDiabetesDataset], csvParser.ts) *)

(** The messages [validateDiabetesDataset] pushes, by template; the
    arguments are the values interpolated. *)
Inductive validation_error (number : Type) : Type :=
| DatasetTooSmall (rows : nat)
    (* `Dataset too small: only ${rows} rows found. Need at least 5 rows for training.` *)
| TooFewColumns (count : nat)
    (* `Too few columns: only ${count} found. Need at least 3 columns (features + target).` *)
| MissingTargetColumn
    (* `Missing target column. Expected one of: diabetesbinary, diabetes012, outcome` *)
| MissingAge
    (* 'Missing required column: age' *)
| FormatNotRecognized
    (* 'Dataset format not recognized. Please ensure you have either: ...' *)
| NoValidRows
    (* 'No valid data rows found. Please check that your data contains valid values.' *)
| DataQualityIssue (validRowCount sampleSize : nat)
    (* `Data quality issue: only ${validRowCount} out of ${sampleSize} sample rows are valid. ...` *)
| HighMissingValues (nullPercentage : number).
    (* `High percentage of missing values (${nullPercentage.toFixed(1)}%). Consider data cleaning.` *)

Arguments DatasetTooSmall {number} rows.
Arguments TooFewColumns {number} count.
Arguments MissingTargetColumn {number}.
Arguments MissingAge {number}.
Arguments FormatNotRecognized {number}.
Arguments NoValidRows {number}.
Arguments DataQualityIssue {number} validRowCount sampleSize.
Arguments HighMissingValues {number} nullPercentage.

Section Validator.

Context {number : Type} {N : Number number}.
Variable StringToNumber : string -> number.
Local Open Scope js_scope.

(** [value === null || value === undefined || value === ''] on a cell; a
    cell of a row is never [undefined]. *)
Definition is_empty_value (value : cell number) : bool :=
  match value with
  | CNull => true
  | CString s => String.eqb s ""
  | CNumber _ => false
  end.

(** The counters of the quality loop.  They count up from 0 by 1, and are
    kept as natural numbers; [of_length] gives the Number where the source
    computes with one. *)
Record quality : Type := {
  validRowCount : nat;
  nullValueCount : nat;
  totalValueCount : nat
}.

(** The body of [Object.entries(row).forEach], on the triple
    [(counts, rowNullCount, rowValid)]. *)
Definition inspect_entry (st : quality * nat * bool)
    (entry : string * cell number) : quality * nat * bool :=
  let '(q, rowNullCount, rowValid) := st in
  let '(key, value) := entry in
  let q := {| validRowCount := validRowCount q;
              nullValueCount := nullValueCount q;
              totalValueCount := S (totalValueCount q) |} in
  let '(q, rowNullCount) :=
    if is_empty_value value
    then ({| validRowCount := validRowCount q;
             nullValueCount := S (nullValueCount q);
             totalValueCount := totalValueCount q |},
          S rowNullCount)
    else (q, rowNullCount) in
  let rowValid :=
    if String.eqb key "age"
       && (match value with CNull => true | _ => false end
           || isNaN (Number_of StringToNumber (Some value)))
    then false else rowValid in
  (q, rowNullCount, rowValid).

(** The body of the loop over the sample, on one row. *)
Definition inspect_row (q : quality) (row : DatasetRow number) : quality :=
  let '(q, rowNullCount, _) :=
    fold_left inspect_entry row (q, 0, true) in
  if of_length (length row) * lit 0.5 > of_length rowNullCount
  then {| validRowCount := S (validRowCount q);
          nullValueCount := nullValueCount q;
          totalValueCount := totalValueCount q |}
  else q.

(** The quality checks, run when no error was found before. *)
Definition data_quality (data : list (DatasetRow number))
    : list (validation_error number) :=
  let sampleSize := Nat.min (length data) 50 in
  let q :=
    for_loop sampleSize
      (fun i q => inspect_row q (nth i data []))
      {| validRowCount := 0; nullValueCount := 0; totalValueCount := 0 |} in
  let nullPercentage :=
    (of_length (nullValueCount q) / of_length (totalValueCount q))
    * lit 100 in
  let errors :=
    if (validRowCount q =? 0)%nat then [NoValidRows]
    else if of_length sampleSize * lit 0.3 > of_length (validRowCount q)
    then [DataQualityIssue (validRowCount q) sampleSize]
    else [] in
  if nullPercentage > lit 50
  then (errors ++ [HighMissingValues nullPercentage])%list
  else errors.

Local Open Scope string_scope.

(** The checks on the shape of the dataset. *)
Definition structure_errors (dataset : Dataset number)
    : list (validation_error number) :=
  let errors := [] in
  let errors :=
    if (length (data dataset) <? 5)%nat
    then (errors ++ [DatasetTooSmall (length (data dataset))])%list
    else errors in
  let errors :=
    if (length (columns dataset) <? 3)%nat
    then (errors ++ [TooFewColumns (length (columns dataset))])%list
    else errors in
  let normalizedColumns := map normalizeColumn (columns dataset) in
  let targetColumns := ["diabetesbinary"; "diabetes012"; "outcome"] in
  let hasTargetColumn := existsb (includes normalizedColumns) targetColumns in
  let errors :=
    if negb hasTargetColumn then (errors ++ [MissingTargetColumn])%list
    else errors in
  let errors :=
    if negb (includes normalizedColumns "age")
    then (errors ++ [MissingAge])%list
    else errors in
  let comprehensiveFeatures :=
    ["highbp"; "highchol"; "cholcheck"; "bmi"; "smoker"; "stroke";
     "heartdiseaseorattack"; "physactivity"; "fruits"; "veggies"] in
  let basicFeatures := ["glucose"; "bloodpressure"; "bmi"] in
  let hasComprehensiveFeatures :=
    (5 <=? length (filter (includes normalizedColumns)
                          comprehensiveFeatures))%nat in
  let hasBasicFeatures :=
    (2 <=? length (filter (includes normalizedColumns) basicFeatures))%nat in
  if negb hasComprehensiveFeatures && negb hasBasicFeatures
  then (errors ++ [FormatNotRecognized])%list
  else errors.

Local Close Scope string_scope.

Definition validateDiabetesDataset (dataset : Dataset number)
    : list (validation_error number) :=
  let errors := structure_errors dataset in
  if (length errors =? 0)%nat
  then (errors ++ data_quality (data dataset))%list
  else errors.

End Validator.

(** * The CSV reader ([parseCSV], csvParser.ts) *)

(** [parseCSV] hands the file to the library Papa Parse with three
    callbacks, and settles its promise from what the library reports.  The
    callbacks and the settling are modelled; the library is not: its report
    is an argument. *)

(** How a promise settles. *)
Inductive settled (A Err : Type) : Type :=
| Resolved (a : A)
| Rejected (e : Err).

Arguments Resolved {A Err} a.
Arguments Rejected {A Err} e.

(** The rejections of [parseCSV], by message. *)
Inductive csv_error : Type :=
| FileTooLarge
    (* 'File too large for browser processing. Please use a file smaller than 100MB.' *)
| CSVFormatError (message : string)
    (* `CSV format error: ${message}. Please check your file format.` *)
| NoDataFound
    (* 'No data found in CSV file. Please check that your file contains data rows.' *)
| NoColumnHeaders
    (* 'No column headers found. Please ensure your CSV file has a header row with column names.' *)
| NoValidDataRows
    (* 'No valid data rows found. All rows appear to be empty.' *)
| FailedToParse (message : string).
    (* `Failed to parse CSV file: ${message}. Please check your file format.` *)

(** The [type] of an error the library reports. *)
Inductive papa_error_type : Type :=
| Quotes
| Delimiter
| FieldMismatch.

Record papa_error : Type := {
  error_type : papa_error_type;
  error_message : string
}.

Section ParseCSV.

Context {number : Type} {N : Number number}.

(** The engine's [parseFloat]. *)
Variable parseFloat : string -> number.

(** [header.trim().toLowerCase().replace(/[^a-z0-9]/g, '')] *)
Definition transformHeader (header : string) : string :=
  strip_non_alnum (toLowerCase (trim header)).

(** The class [\d]. *)
Definition is_digit (c : ascii) : bool :=
  let n := nat_of_ascii c in (48 <=? n) && (n <=? 57).

Fixpoint skip_digits (l : list ascii) : list ascii :=
  match l with
  | c :: l' => if is_digit c then skip_digits l' else l
  | [] => []
  end.

(** [\d*\.?\d+$]: digits, at least one; or digits, a point, and digits, at
    least one. *)
Definition digits_point_digits (l : list ascii) : bool :=
  match skip_digits l with
  | [] => negb (length l =? 0)%nat
  | c :: fraction =>
      Ascii.eqb c "."
      && negb (length fraction =? 0)%nat
      && forallb is_digit fraction
  end.

(** [/^-?\d*\.?\d+$/.test(s)] *)
Definition looks_numeric (s : string) : bool :=
  match list_ascii_of_string s with
  | c :: l =>
      if Ascii.eqb c "-" then digits_point_digits l
      else digits_point_digits (c :: l)
  | [] => false
  end.

(** The callback [transform], on the text of a field. *)
Definition transform (value : string) : cell number :=
  let trimmed := trim value in
  if String.eqb trimmed "" || String.eqb trimmed "NULL"
     || String.eqb trimmed "null" || String.eqb trimmed "N/A"
  then CNull
  else if looks_numeric trimmed then
    let num := parseFloat trimmed in
    if isNaN num then CString trimmed else CNumber num
  else CString trimmed.

(** What the library reports to [complete]: the rows, its errors and the
    header fields ([meta.fields], which may be absent). *)
Record papa_results : Type := {
  results_data : list (DatasetRow number);
  results_errors : list papa_error;
  results_fields : option (list string)
}.

(** [error.type === 'Delimiter' || error.type === 'Quotes'] *)
Definition is_critical (e : papa_error) : bool :=
  match error_type e with
  | Delimiter | Quotes => true
  | FieldMismatch => false
  end.

(** [Object.values(row).some(value => value !== null && value !== undefined
    && value !== '')] *)
Definition has_value (row : DatasetRow number) : bool :=
  existsb (fun entry => negb (is_empty_value (snd entry))) row.

(** The callback [complete]. *)
Definition complete (results : papa_results)
    : settled (Dataset number) csv_error :=
  let criticalErrors := filter is_critical (results_errors results) in
  match results_errors results, criticalErrors with
  | _ :: _, critical :: _ => Rejected (CSVFormatError (error_message critical))
  | _, _ =>
      let data := results_data results in
      let columns :=
        match results_fields results with
        | Some fields => fields
        | None => []
        end in
      if (length data =? 0)%nat then Rejected NoDataFound
      else if (length columns =? 0)%nat then Rejected NoColumnHeaders
      else
        let filteredData := filter has_value data in
        if (length filteredData =? 0)%nat then Rejected NoValidDataRows
        else Resolved {| data := filteredData; columns := columns |}
  end.

(** What the library does with the file: it calls [complete] with its
    results, or [error] with a message. *)
Inductive papa_report : Type :=
| Completes (results : papa_results)
| Fails (message : string).

(** [parseCSV], on the size of the file in bytes and the library's
    report. *)
Definition parseCSV (size : BinNums.N) (report : papa_report)
    : settled (Dataset number) csv_error :=
  if (100 * 1024 * 1024 <? size)%N then Rejected FileTooLarge
  else
    match report with
    | Completes results => complete results
    | Fails message => Rejected (FailedToParse message)
    end.

End ParseCSV.

(** * The upload ([UploadData], components/DataExplorer.tsx) *)

(** What the upload reads of a [File]; [file_size] is in bytes. *)
Record File : Type := {
  file_name : string;
  file_size : BinNums.N;
  file_type : string
}.

(** The messages of [validateFile]. *)
Inductive file_error : Type :=
| NotCSV
    (* 'Please select a CSV file (.csv extension required)' *)
| EmptyFile
    (* 'The selected file is empty' *)
| FileSizeTooLarge (size : BinNums.N).
    (* `File size too large (${(size / 1024 / 1024).toFixed(1)}MB). Maximum allowed: 50MB` *)

(** [l] starts with [prefix]. *)
Fixpoint starts_with (prefix l : list ascii) : bool :=
  match prefix, l with
  | [], _ => true
  | p :: prefix', c :: l' => Ascii.eqb p c && starts_with prefix' l'
  | _ :: _, [] => false
  end.

(** [s.endsWith(suffix)] *)
Definition endsWith (s suffix : string) : bool :=
  starts_with (rev (list_ascii_of_string suffix))
              (rev (list_ascii_of_string s)).

(** [validateFile]; its check of the MIME type only logs. *)
Definition validateFile (file : File) : list file_error :=
  let errors := [] in
  let errors :=
    if negb (endsWith (toLowerCase (file_name file)) ".csv")
    then (errors ++ [NotCSV])%list
    else errors in
  if (file_size file =? 0)%N then (errors ++ [EmptyFile])%list
  else if (50 * 1024 * 1024 <? file_size file)%N
  then (errors ++ [FileSizeTooLarge (file_size file)])%list
  else errors.

Section Upload.

Context {number : Type} {N : Number number}.
Variable StringToNumber : string -> number.

(** How [handleFileUpload] ends: with the errors it displays, or with the
    dataset it hands to [onDatasetUploaded].  Of an error caught the model
    keeps the rejection, not the text the handler derives from it. *)
Inductive upload : Type :=
| FileErrors (errors : list file_error)
| Caught (e : csv_error)
| ValidationErrors (errors : list (validation_error number))
| Uploaded (dataset : Dataset number).

(** [handleFileUpload], on the file and on what the library reports of
    it. *)
Definition handleFileUpload (file : File)
    (report : papa_report (number := number)) : upload :=
  let fileErrors := validateFile file in
  if (0 <? length fileErrors)%nat then FileErrors fileErrors
  else
    match parseCSV (file_size file) report with
    | Rejected e => Caught e
    | Resolved dataset =>
        let validationErrors :=
          validateDiabetesDataset StringToNumber dataset in
        if (0 <? length validationErrors)%nat
        then ValidationErrors validationErrors
        else Uploaded dataset
    end.

End Upload.

(** * Accounts ([src/utils/auth.ts]) *)

(** The accounts live in [localStorage], under two keys, as JSON text.  The
    model keeps the values the text stands for: what [JSON.parse] gives back
    of what [JSON.stringify] wrote.  A date is kept in the form it has in
    that text; the type [D] of dates and the type [P] of the records of a
    prediction are left open, the functions below reading neither. *)

Module Auth.

Section Accounts.

Variables D P : Type.

Record User : Type := {
  id : string;
  email : string;
  name : string;
  createdAt : D;
  predictions : list P
}.

(** The two items of [localStorage]: [diabetes_app_users] and
    [diabetes_app_current_user]; [None] is an item that is not there. *)
Record Storage : Type := {
  users_item : option (list User);
  current_user_item : option User
}.

Definition empty : Storage :=
  {| users_item := None; current_user_item := None |}.

(** The rejections of [signUp] and [signIn], by message. *)
Inductive auth_error : Type :=
| UserAlreadyExists   (* 'User already exists with this email' *)
| UserNotFound.       (* 'User not found' *)

Definition getStoredUsers (s : Storage) : list User :=
  match users_item s with
  | Some users => users
  | None => []
  end.

(** [users.findIndex(p)]: [None] stands for [-1]. *)
Fixpoint findIndex (p : User -> bool) (users : list User) : option nat :=
  match users with
  | [] => None
  | u :: users' =>
      if p u then Some 0
      else match findIndex p users' with
           | Some i => Some (S i)
           | None => None
           end
  end.

(** [users[i] = user], for [i] in range. *)
Fixpoint assign (users : list User) (i : nat) (user : User) : list User :=
  match users, i with
  | [], _ => []
  | _ :: users', 0 => user :: users'
  | u :: users', S i' => u :: assign users' i' user
  end.

Definition saveUser (user : User) (s : Storage) : Storage :=
  let users := getStoredUsers s in
  let existingIndex :=
    findIndex (fun u => String.eqb (email u) (email user)) users in
  let users :=
    match existingIndex with
    | Some i => assign users i user
    | None => (users ++ [user])%list
    end in
  {| users_item := Some users; current_user_item := current_user_item s |}.

Definition getCurrentUser (s : Storage) : option User :=
  current_user_item s.

(** [setCurrentUser(user)], [None] being [null]. *)
Definition setCurrentUser (user : option User) (s : Storage) : Storage :=
  {| users_item := users_item s; current_user_item := user |}.

(** [signUp(email, password, name)], with the two readings of the clock:
    [now] is [Date.now().toString()] and [date] is [new Date()].  The
    executor of the promise runs at once, so the storage after the call is
    part of the result. *)
Definition signUp (email_ password name_ : string) (now : string) (date : D)
    (s : Storage) : settled User auth_error * Storage :=
  let users := getStoredUsers s in
  match find (fun u => String.eqb (email u) email_) users with
  | Some _ => (Rejected UserAlreadyExists, s)
  | None =>
      let newUser :=
        {| id := now; email := email_; name := name_; createdAt := date;
           predictions := [] |} in
      let s := saveUser newUser s in
      let s := setCurrentUser (Some newUser) s in
      (Resolved newUser, s)
  end.

Definition signIn (email_ password : string) (s : Storage)
    : settled User auth_error * Storage :=
  let users := getStoredUsers s in
  match find (fun u => String.eqb (email u) email_) users with
  | None => (Rejected UserNotFound, s)
  | Some user => (Resolved user, setCurrentUser (Some user) s)
  end.

Definition signOut (s : Storage) : Storage := setCurrentUser None s.

(** [users[userIndex].predictions.push(prediction)] on the parsed copy. *)
Definition with_prediction (u : User) (prediction : P) : User :=
  {| id := id u; email := email u; name := name u;
     createdAt := createdAt u;
     predictions := (predictions u ++ [prediction])%list |}.

Definition updateUserPredictions (userId : string) (prediction : P)
    (s : Storage) : Storage :=
  let users := getStoredUsers s in
  match findIndex (fun u => String.eqb (id u) userId) users with
  | Some userIndex =>
      match nth_error users userIndex with
      | Some u =>
          let updated := with_prediction u prediction in
          let s := saveUser updated s in
          setCurrentUser (Some updated) s
      | None => s
      end
  | None => s
  end.

(** ** Terms of the properties of the accounts *)

(** The stored user of an email: the first, as [find] and [findIndex]
    take it. *)
Definition user_of_email (e : string) (s : Storage) : option User :=
  find (fun u => String.eqb (email u) e) (getStoredUsers s).

Definition user_of_id (i : string) (s : Storage) : option User :=
  find (fun u => String.eqb (id u) i) (getStoredUsers s).

(** No two stored users have one email. *)
Definition unique_emails (s : Storage) : Prop :=
  NoDup (map email (getStoredUsers s)).

(** The storages a session reaches from the empty one by signing up,
    signing in, signing out and recording predictions. *)
Inductive reachable : Storage -> Prop :=
| reach_empty : reachable empty
| reach_signUp e pw n now date s :
    reachable s -> reachable (snd (signUp e pw n now date s))
| reach_signIn e pw s :
    reachable s -> reachable (snd (signIn e pw s))
| reach_signOut s :
    reachable s -> reachable (signOut s)
| reach_update i p s :
    reachable s -> reachable (updateUserPredictions i p s).

End Accounts.

Arguments UserAlreadyExists : clear implicits.
Arguments UserNotFound : clear implicits.

End Auth.

(** * The specification's terms

    What the properties below are stated with: the training algorithm as the
    specification words it, the parts of the source's loops that the proofs
    name, statistics on the reals, and the datasets of the examples. *)

Section Terms.

Context {number : Type} {N : Number number} {E : MathExp number}.
Variable StringToNumber : string -> number.
Local Open Scope js_scope.

(** ** Gradient descent, as the specification words it *)

(** A sum over the rows. *)
Definition spec_sum (l : list number) : number :=
  fold_right add (lit 0) l.

(** [dot(row, weights)] *)
Definition spec_dot (row w : list number) : number :=
  spec_sum (map (fun '(x, wj) => x * wj) (combine row w)).

(** [prediction = sigmoid(dot(row, weights) + bias)] *)
Definition spec_prediction (w : list number) (b : number)
    (row : list number) : number :=
  sigmoid (spec_dot row w + b).

(** One step: the errors [prediction - label], the gradients
    [sum of error * x[j]] and [sum of error], the two updates. *)
Definition spec_step (lr : number) (X : list (list number))
    (y : list number) (wb : list number * number) : list number * number :=
  let '(w, b) := wb in
  let n := of_length (length X) in
  let errors :=
    map (fun '(row, label) => spec_prediction w b row - label) (combine X y) in
  let gradient_w (j : nat) :=
    spec_sum (map (fun '(e, row) => e * get row j) (combine errors X)) in
  let gradient_b := spec_sum errors in
  (map (fun '(j, wj) => wj - lr * gradient_w j / n)
       (combine (seq 0 (length w)) w),
   b - lr * gradient_b / n).

(** [iters] steps from the zero weights of length [k] and the bias 0. *)
Definition spec_train (lr : number) (iters : nat) (X : list (list number))
    (y : list number) (k : nat) : list number * number :=
  Nat.iter iters (spec_step lr X y) (repeat (lit 0) k, lit 0).

(** ** Parts of the source's loops *)

(** What the gradient loops of [train_iteration] leave in [dw[k]] and in
    [db]. *)
Definition dw_sum (X : list (list number)) (y predictions : list number)
    (k : nat) : number :=
  fold_left
    (fun acc j =>
       acc + (get predictions j - get y j) * get (nth j X []) k)
    (seq 0 (length X)) (lit 0).

Definition db_sum (X : list (list number)) (y predictions : list number)
    : number :=
  fold_left (fun acc j => acc + (get predictions j - get y j))
            (seq 0 (length X)) (lit 0).

(** [1 / (1 + Math.exp(-z))], without the clamp. *)
Definition sigmoid_unclamped (z : number) : number :=
  lit 1 / (lit 1 + Math_exp (- z)).

(** What [features.forEach] pushes for one feature, and whether it leaves
    [isValid] alone. *)
Definition feature_values (mapping : list (string * string))
    (row : DatasetRow number) (feature : string) : list number :=
  match lookup mapping feature with
  | Some actualColumn =>
      if String.eqb actualColumn "" then []
      else [Number_of StringToNumber (lookup row actualColumn)]
  | None => []
  end.

Definition feature_ok (mapping : list (string * string))
    (row : DatasetRow number) (feature : string) : bool :=
  match lookup mapping feature with
  | Some actualColumn =>
      negb (String.eqb actualColumn "")
      && negb (isNaN (Number_of StringToNumber (lookup row actualColumn)))
  | None => false
  end.

(** The label of a row, as [extract_row] computes it. *)
Definition row_target (targetColumn actualTargetColumn : string)
    (row : DatasetRow number) : number :=
  let target := Number_of StringToNumber (lookup row actualTargetColumn) in
  if String.eqb targetColumn "diabetes012"
  then (if target > lit 0 then lit 1 else lit 0)
  else target.

(** A row is kept when the loop leaves [isValid] set and the label is not
    [NaN]. *)
Definition row_kept (mapping : list (string * string))
    (features : list string) (targetColumn actualTargetColumn : string)
    (row : DatasetRow number) : bool :=
  forallb (feature_ok mapping row) features
  && negb (isNaN (row_target targetColumn actualTargetColumn row)).

(** [Number(row[column])] for the column of a feature. *)
Definition feature_value (mapping : list (string * string))
    (row : DatasetRow number) (feature : string) : number :=
  Number_of StringToNumber
    (lookup row (match lookup mapping feature with
                 | Some c => c
                 | None => ""%string
                 end)).

(** The mean of column [i], as the loop of [compute_means] computes it. *)
Definition column_mean (X : list (list number)) (i : nat) : number :=
  reduce (fun sum row _ => sum + get row i) X (lit 0) / of_length (length X).

(** The standard deviation of column [i], as the loop of [compute_stds]
    stores it. *)
Definition column_std (X : list (list number)) (means : list number)
    (i : nat) : number :=
  Math_sqrt
    (reduce (fun sum row _ => sum + Math_pow2 (get row i - get means i))
            X (lit 0)
     / of_length (length X))
  ||| lit 1.

End Terms.

(** ** Statistics on the reals *)

Section RealTerms.

Local Open Scope R_scope.

Definition Rsum (l : list R) : R := fold_right Rplus 0 l.

(** The arithmetic mean. *)
Definition population_mean (c : list R) : R := Rsum c / INR (length c).

(** The variance with denominator [n]. *)
Definition population_variance (c : list R) : R :=
  Rsum (map (fun x => (x - population_mean c) ^ 2) c) / INR (length c).

(** The standard deviation as the normalizer stores it: 1 in place of 0. *)
Definition stored_std (c : list R) : R :=
  if Req_dec_T (R_sqrt.sqrt (population_variance c)) 0 then 1
  else R_sqrt.sqrt (population_variance c).

(** A column all of whose entries are equal. *)
Definition constant (c : list R) : Prop :=
  forall x y, In x c -> In y c -> x = y.

(** The logistic function. *)
Definition logistic (x : R) : R := 1 / (1 + Rtrigo_def.exp (- x)).

(** The clamp of the trainer's sigmoid, and that of the static scorer's. *)
Definition clamp250 (x : R) : R := Rmax (- 250) (Rmin 250 x).

Definition clamp500 (x : R) : R := Rmax (- 500) (Rmin 500 x).

(** [x / y], and 0 when the denominator is 0. *)
Definition ratio (x y : R) : R := if Req_dec_T y 0 then 0 else x / y.

(** Column [i] of a matrix. *)
Definition column (i : nat) (M : list (list R)) : list R :=
  map (fun row => nth i row 0) M.

(** The z-scores of a matrix, column by column. *)
Definition z_scores (M : list (list R)) : list (list R) :=
  map (mapi (fun x i =>
               (x - population_mean (column i M)) / stored_std (column i M)))
      M.

End RealTerms.

(** ** Finite numbers, labels, counts *)

Section ExactTerms.

Local Open Scope js_scope.

(** A matrix of finite numbers. *)
Definition finite (M : list (list R)) : list (list ideal) :=
  map (map Fin) M.

(** A label or a prediction: 1 or 0. *)
Definition bit (b : bool) : ideal := if b then lit 1 else lit 0.

(** The number of positions whose label is [t] and whose prediction is
    [p]. *)
Definition tally (t p : bool) (ts ps : list bool) : nat :=
  length (filter (fun '(a, b) => Bool.eqb a t && Bool.eqb b p)
                 (combine ts ps)).

(** The four counters at given counts. *)
Definition counted (a b c d : nat) : counters ideal :=
  {| tp := of_length a; fp := of_length b;
     tn := of_length c; fn := of_length d |}.

(** The metrics in closed form, on [n] labels and [n] predictions. *)
Definition spec_metrics (ts ps : list bool) : ModelMetrics ideal :=
  let TP := tally true true ts ps in
  let FP := tally false true ts ps in
  let TN := tally false false ts ps in
  let FN := tally true false ts ps in
  let precision := ratio (INR TP) (INR (TP + FP)) in
  let recall := ratio (INR TP) (INR (TP + FN)) in
  {| accuracy := of_length (TP + TN) / of_length (TP + FP + TN + FN);
     precision := Fin precision;
     recall := Fin recall;
     f1Score :=
       Fin (ratio (2 * (precision * recall)) (precision + recall));
     confusionMatrix :=
       [[of_length TN; of_length FP]; [of_length FN; of_length TP]] |}.

(** A field the static scorer takes as missing: 0 or [NaN]. *)
Definition missing (v : ideal) : Prop := v = lit 0 \/ v = NaN.

(** The documented neutral input of the static scorer. *)
Definition neutral : Pretrained.Input ideal :=
  {| Pretrained.pregnancies := lit 1;
     Pretrained.glucose := lit 120;
     Pretrained.bloodpressure := lit 80;
     Pretrained.skinthickness := lit 20;
     Pretrained.insulin := lit 80;
     Pretrained.bmi := lit 25;
     Pretrained.diabetespedigreefunction := lit 0.5;
     Pretrained.age := lit 30 |}.

(** An input with another glucose. *)
Definition with_glucose (input : Pretrained.Input ideal) (g : ideal)
    : Pretrained.Input ideal :=
  {| Pretrained.pregnancies := Pretrained.pregnancies input;
     Pretrained.glucose := g;
     Pretrained.bloodpressure := Pretrained.bloodpressure input;
     Pretrained.skinthickness := Pretrained.skinthickness input;
     Pretrained.insulin := Pretrained.insulin input;
     Pretrained.bmi := Pretrained.bmi input;
     Pretrained.diabetespedigreefunction :=
       Pretrained.diabetespedigreefunction input;
     Pretrained.age := Pretrained.age input |}.

End ExactTerms.

(** ** Datasets of the examples *)

(** A Pima-style dataset of three complete rows. *)
Definition pima3 : Dataset ideal :=
  {| columns := ["Glucose"; "BloodPressure"; "BMI"; "Age"; "Outcome"]%string;
     data :=
       [[("Glucose", CNumber (Fin 148)); ("BloodPressure", CNumber (Fin 72));
         ("BMI", CNumber (Fin 33.6)); ("Age", CNumber (Fin 50));
         ("Outcome", CNumber (Fin 1))];
        [("Glucose", CNumber (Fin 85)); ("BloodPressure", CNumber (Fin 66));
         ("BMI", CNumber (Fin 26.6)); ("Age", CNumber (Fin 31));
         ("Outcome", CNumber (Fin 0))];
        [("Glucose", CNumber (Fin 183)); ("BloodPressure", CNumber (Fin 64));
         ("BMI", CNumber (Fin 23.3)); ("Age", CNumber (Fin 32));
         ("Outcome", CNumber (Fin 1))]]%string |}.

(** Four rows: complete, a [NaN] glucose, no blood pressure cell, complete. *)
Definition pima_gaps : Dataset ideal :=
  {| columns := ["Glucose"; "BloodPressure"; "BMI"; "Age"; "Outcome"]%string;
     data :=
       [[("Glucose", CNumber (Fin 148)); ("BloodPressure", CNumber (Fin 72));
         ("BMI", CNumber (Fin 33.6)); ("Age", CNumber (Fin 50));
         ("Outcome", CNumber (Fin 1))];
        [("Glucose", CNumber INaN); ("BloodPressure", CNumber (Fin 66));
         ("BMI", CNumber (Fin 26.6)); ("Age", CNumber (Fin 31));
         ("Outcome", CNumber (Fin 0))];
        [("Glucose", CNumber (Fin 183));
         ("BMI", CNumber (Fin 23.3)); ("Age", CNumber (Fin 32));
         ("Outcome", CNumber (Fin 1))];
        [("Glucose", CNumber (Fin 89)); ("BloodPressure", CNumber (Fin 66));
         ("BMI", CNumber (Fin 28.1)); ("Age", CNumber (Fin 21));
         ("Outcome", CNumber (Fin 0))]]%string |}.

(** Two rows an engine keeps: one with an infinite glucose, one whose blood
    pressure cell is [null], which [Number] converts to 0. *)
Definition pima_not_finite : Dataset float :=
  {| columns := ["Glucose"; "BloodPressure"; "BMI"; "Age"; "Outcome"]%string;
     data :=
       [[("Glucose", CNumber infinity); ("BloodPressure", CNumber 72%float);
         ("BMI", CNumber 33.5%float); ("Age", CNumber 50%float);
         ("Outcome", CNumber 1%float)];
        [("Glucose", CNumber 85%float); ("BloodPressure", CNull);
         ("BMI", CNumber 26.5%float); ("Age", CNumber 31%float);
         ("Outcome", CNumber 0%float)]]%string |}.

(** * Terms of the further properties *)

(** ** The static scorer on the reals *)

Section ScorerTerms.

Local Open Scope R_scope.

(** The linear score of [predictDiabetes] on cleaned fields that are real
    numbers. *)
Definition scorer_score (p g bp st ins m dpf a : R) : R :=
  (p - 3.845) / 3.369 * 0.42
  + (g - 120.894) / 31.972 * 1.24
  + (bp - 69.105) / 19.355 * 0.18
  + (st - 20.536) / 15.952 * 0.08
  + (ins - 79.799) / 115.244 * 0.35
  + (m - 31.992) / 7.884 * 0.89
  + (dpf - 0.472) / 0.331 * 0.67
  + (a - 33.241) / 11.760 * 0.52
  + g / 100 * (m / 30) * 0.15
  + a / 30 * (p / 5) * 0.08
  + (if Rlt_dec 0 ins then ins / 100 * (g / 100) else 0) * 0.12
  + - 4.1.

End ScorerTerms.

(** A field of the scorer's input, by name. *)
Definition field_of (f : Pretrained.Feature) (input : Pretrained.Input ideal)
    : ideal :=
  match f with
  | Pretrained.Pregnancies => Pretrained.pregnancies input
  | Pretrained.Glucose => Pretrained.glucose input
  | Pretrained.BloodPressure => Pretrained.bloodpressure input
  | Pretrained.SkinThickness => Pretrained.skinthickness input
  | Pretrained.Insulin => Pretrained.insulin input
  | Pretrained.BMI => Pretrained.bmi input
  | Pretrained.DiabetesPedigreeFunction =>
      Pretrained.diabetespedigreefunction input
  | Pretrained.Age => Pretrained.age input
  end.

(** One of the two infinities. *)
Definition infinite (v : ideal) : Prop := v = IPInf \/ v = INInf.

(** An input none of whose fields is an infinity: each is a real number or
    [NaN]. *)
Definition measured (input : Pretrained.Input ideal) : Prop :=
  forall f, ~ infinite (field_of f input).

(** The order of the reals, on finite numbers. *)
Definition finite_le (v w : ideal) : Prop :=
  match v, w with
  | Fin x, Fin y => (x <= y)%R
  | _, _ => False
  end.

(** ** The trainer on the reals *)

Section TrainerTerms.

Local Open Scope R_scope.

(** The dot product of two real vectors. *)
Definition Rdot (x w : list R) : R :=
  Rsum (map (fun '(a, b) => a * b) (combine x w)).

End TrainerTerms.

(** A vector of finite numbers. *)
Definition finite_vector (v : list R) : list ideal := map Fin v.

(** A number that is neither [NaN] nor an infinity. *)
Definition is_finite (v : ideal) : Prop := exists r : R, v = Fin r.

(** ** Columns *)

(** The normalized names of a dataset's columns. *)
Definition normalizedColumns {number : Type} (dataset : Dataset number)
    : list string :=
  map normalizeColumn (columns dataset).

(** The last column of a given normalized name. *)
Definition last_column_named {number : Type} (dataset : Dataset number)
    (name : string) : option string :=
  find (fun c => String.eqb (normalizeColumn c) name)
       (rev (columns dataset)).

(** ** The validator *)

Section ValidatorTerms.

Context {number : Type} {N : Number number}.
Local Open Scope js_scope.

(** The number of empty cells of a row. *)
Definition empties (row : DatasetRow number) : nat :=
  length (filter (fun entry => is_empty_value (snd entry)) row).

(** A row counts as valid when fewer than half of its cells are empty. *)
Definition row_counts_as_valid (row : DatasetRow number) : bool :=
  of_length (length row) * lit 0.5 > of_length (empties row).

(** The counters after the rows of a sample. *)
Definition sample_quality (sample : list (DatasetRow number)) : quality :=
  {| validRowCount := length (filter row_counts_as_valid sample);
     nullValueCount := list_sum (map empties sample);
     totalValueCount := list_sum (map (@length _) sample) |}.

End ValidatorTerms.

(** The quality checks as conditions on natural numbers: no valid row;
    valid rows fewer than 30% of the sample; empty cells more than half of
    the cells. *)
Definition quality_spec (data : list (DatasetRow ideal))
    : list (validation_error ideal) :=
  let sample := firstn 50 data in
  let valid :=
    length (filter (fun row => (2 * empties row <? length row)%nat) sample) in
  let nulls := list_sum (map empties sample) in
  let total := list_sum (map (@length _) sample) in
  ((if (valid =? 0)%nat then [NoValidRows]
    else if (10 * valid <? 3 * length sample)%nat
    then [DataQualityIssue valid (length sample)]
    else [])
   ++ (if (total <? 2 * nulls)%nat
       then [HighMissingValues (Fin (INR nulls / INR total * 100))]
       else []))%list.

(** Five rows of health indicators with the target [Outcome]. *)
Definition indicators_outcome : Dataset ideal :=
  let row (bp chol bmi age outcome : R) : DatasetRow ideal :=
    [("HighBP", CNumber (Fin bp)); ("HighChol", CNumber (Fin chol));
     ("CholCheck", CNumber (Fin 1)); ("BMI", CNumber (Fin bmi));
     ("Smoker", CNumber (Fin 0)); ("Age", CNumber (Fin age));
     ("Outcome", CNumber (Fin outcome))]%string in
  {| columns := ["HighBP"; "HighChol"; "CholCheck"; "BMI"; "Smoker"; "Age";
                 "Outcome"]%string;
     data := [row 1 1 40 9 0; row 0 0 25 7 0; row 1 1 28 9 1;
              row 1 0 27 11 0; row 1 1 24 11 1]%R |}.

(** ** Datasets of the further examples *)


(** ** Terms of the properties of strings *)

(** A byte that continues no character: where a text can be cut. *)
Definition breaks (l : list ascii) : Prop :=
  match l with
  | [] => True
  | b :: _ => continuation b = false
  end.

(** The text of one character. *)
Definition character (p : N) : string := string_of_list_ascii (utf8 p).

(** The characters of [[a-z0-9]] in the lowercase of an element. *)
Definition bare (e : element) : list ascii :=
  filter is_lower_alnum (text (lower_from false [e])).

(** * Loops and arrays: general facts *)

Section ArrayFacts.

Context {number : Type} {N : Number number}.

Lemma for_from_fold {S : Type} (body : nat -> S -> S) :
  forall count start s,
    for_from start count body s
    = fold_left (fun s i => body i s) (seq start count) s.
Proof.
  induction count as [|count IH]; intros start s; simpl; [reflexivity|].
  apply IH.
Qed.

Lemma for_loop_fold {S : Type} (body : nat -> S -> S) n s :
  for_loop n body s = fold_left (fun s i => body i s) (seq 0 n) s.
Proof. apply for_from_fold. Qed.

Lemma for_loop_iter {S : Type} (f : S -> S) n s :
  for_loop n (fun _ => f) s = Nat.iter n f s.
Proof.
  unfold for_loop. generalize 0 as start. revert s.
  induction n as [|n IH]; intros s start; simpl; [reflexivity|].
  rewrite IH. symmetry. apply Nat.iter_succ_r.
Qed.

Lemma get_middle (pre : list number) x rest :
  get (pre ++ x :: rest) (length pre) = x.
Proof. unfold get. apply nth_middle. Qed.

Lemma skipn_middle {A : Type} (pre : list A) x rest :
  skipn (Datatypes.S (length pre)) (pre ++ x :: rest) = rest.
Proof. induction pre as [|p pre IH]; simpl; auto. Qed.

Lemma set_middle (pre : list number) x rest v :
  set (pre ++ x :: rest) (length pre) v = pre ++ v :: rest.
Proof.
  unfold set.
  rewrite skipn_middle.
  rewrite firstn_app, Nat.sub_diag, firstn_all, firstn_O, app_nil_r.
  rewrite length_app. simpl length.
  replace (length pre - (length pre + Datatypes.S (length rest))) with 0 by lia.
  reflexivity.
Qed.

(** A loop that rewrites each entry in turn is an indexed map. *)
Lemma for_from_set (g : number -> nat -> number) :
  forall rest pre,
    for_from (length pre) (length rest)
             (fun k a => set a k (g (get a k) k)) (pre ++ rest)
    = pre ++ mapi_from g (length pre) rest.
Proof.
  induction rest as [|x rest IH]; intros pre; simpl; [reflexivity|].
  rewrite get_middle, set_middle.
  specialize (IH (pre ++ [g x (length pre)])).
  rewrite length_app, Nat.add_1_r, <- !app_assoc in IH. simpl in IH.
  exact IH.
Qed.

Lemma for_loop_set (g : number -> nat -> number) (a : list number) n :
  n = length a ->
  for_loop n (fun k a => set a k (g (get a k) k)) a = mapi g a.
Proof. intros ->. exact (for_from_set g a []). Qed.

Lemma mapi_from_length {A B : Type} (f : A -> nat -> B) :
  forall a idx, length (mapi_from f idx a) = length a.
Proof. induction a; intros; simpl; auto. Qed.

Lemma mapi_length {A B : Type} (f : A -> nat -> B) a :
  length (mapi f a) = length a.
Proof. apply mapi_from_length. Qed.

Lemma mapi_from_combine {A B : Type} (f : A -> nat -> B) :
  forall a idx,
    mapi_from f idx a
    = map (fun '(i, v) => f v i) (combine (seq idx (length a)) a).
Proof.
  induction a as [|v a IH]; intros idx; simpl; [reflexivity|].
  now rewrite IH.
Qed.

Lemma mapi_from_repeat {B : Type} (f : number -> nat -> B) v :
  forall n idx,
    mapi_from f idx (repeat v n) = map (f v) (seq idx n).
Proof.
  induction n as [|n IH]; intros idx; simpl; [reflexivity|].
  now rewrite IH.
Qed.

Lemma mapi_from_ext {A B : Type} (f g : A -> nat -> B) :
  forall a idx,
    (forall v i, f v i = g v i) -> mapi_from f idx a = mapi_from g idx a.
Proof.
  induction a as [|v a IH]; intros idx H; simpl; [reflexivity|].
  now rewrite H, IH.
Qed.

Lemma reduce_from_fold {A B : Type} (f : B -> A -> B) :
  forall a idx acc,
    reduce_from (fun acc v _ => f acc v) idx a acc = fold_left f a acc.
Proof.
  induction a as [|v a IH]; intros idx acc; simpl; [reflexivity|].
  apply IH.
Qed.

End ArrayFacts.

(** * The trainer: one iteration as sums *)

Section TrainerFacts.

Context {number : Type} {N : Number number} {E : MathExp number}.
Local Open Scope js_scope.

Lemma mapi_from_mapi_from {A B C : Type} (f : A -> nat -> B)
    (g : B -> nat -> C) :
  forall a idx,
    mapi_from g idx (mapi_from f idx a)
    = mapi_from (fun v i => g (f v i) i) idx a.
Proof.
  induction a as [|v a IH]; intros idx; simpl; [reflexivity|].
  now rewrite IH.
Qed.

Lemma nth_map_seq {B : Type} (f : nat -> B) m j d :
  (j < m)%nat -> nth j (map f (seq 0 m)) d = f j.
Proof.
  intros Hj.
  rewrite (nth_indep _ d (f 0%nat)) by now rewrite length_map, length_seq.
  rewrite map_nth, seq_nth by assumption. reflexivity.
Qed.

Lemma nth_map_in {A B : Type} (f : A -> B) l j d d' :
  (j < length l)%nat -> nth j (map f l) d = f (nth j l d').
Proof.
  intros Hj.
  rewrite (nth_indep _ d (f d')) by now rewrite length_map.
  apply map_nth.
Qed.

(** The two gradient loops: after the rows [js], entry [k] of [dw] has
    accumulated [error j * X[j][k]] and [db] has accumulated [error j]. *)
Lemma gradient_loops (e : nat -> number) (x : nat -> nat -> number) n :
  forall js dw db,
    length dw = n ->
    fold_left
      (fun s j =>
         (fun '(dw, db) =>
            let error := e j in
            let db := db + error in
            let dw :=
              for_loop n (fun k dw => set dw k (get dw k + error * x j k)) dw in
            (dw, db)) s)
      js (dw, db)
    = (mapi (fun d k => fold_left (fun acc j => acc + e j * x j k) js d) dw,
       fold_left (fun acc j => acc + e j) js db).
Proof.
  induction js as [|j js IH]; intros dw db Hn; simpl.
  - clear Hn. f_equal. unfold mapi. generalize 0%nat.
    induction dw as [|d dw IHd]; intros i; simpl; [reflexivity|].
    f_equal. apply IHd.
  - rewrite (for_loop_set (fun d k => d + e j * x j k)) by (symmetry; exact Hn).
    rewrite IH by (rewrite mapi_length; exact Hn).
    f_equal. unfold mapi. apply mapi_from_mapi_from.
Qed.

Lemma train_iteration_sums lr X y w b :
  let predictions := map (fun row => sigmoid (score w b row)) X in
  train_iteration lr X y (length X) (length w) (w, b)
  = (mapi (fun wk k =>
             wk - (lr * dw_sum X y predictions k) / of_length (length X)) w,
     b - (lr * db_sum X y predictions) / of_length (length X)).
Proof.
  intros predictions. unfold train_iteration.
  fold predictions.
  rewrite for_loop_fold.
  rewrite (gradient_loops
             (fun j => get predictions j - get y j)
             (fun j k => get (nth j X []) k)
             (n := length w))
    by apply repeat_length.
  fold (db_sum X y predictions).
  rewrite (for_loop_set
             (fun wk k =>
                wk - (lr * get (mapi
                  (fun d k0 =>
                     fold_left
                       (fun acc j =>
                          acc + (get predictions j - get y j)
                                * get (nth j X []) k0)
                       (seq 0 (length X)) d)
                  (Array_fill (length w) (lit 0))) k)
                     / of_length (length X)))
    by reflexivity.
  f_equal.
  unfold mapi, Array_fill. rewrite mapi_from_repeat.
  rewrite !mapi_from_combine.
  apply map_ext_in. intros [k wk] Hin.
  apply in_combine_l in Hin. apply in_seq in Hin.
  do 3 f_equal.
  unfold get. rewrite nth_map_seq by lia. reflexivity.
Qed.

Lemma train_iteration_length lr X y w b :
  length (fst (train_iteration lr X y (length X) (length w) (w, b)))
  = length w.
Proof. rewrite train_iteration_sums. simpl. apply mapi_length. Qed.

End TrainerFacts.

(** * Exact arithmetic: laws *)

(** Unfolds the operations of [Number] at [Ideal]. *)
Ltac unfold_ideal :=
  cbv beta iota delta
    [lit NaN of_length add sub mul div neg Math_max Math_min Math_sqrt
     Math_floor Math_abs isNaN gt ge strict_eq truthy ToIntegerOrInfinity
     Math_exp Ideal IdealExp].

Section IdealFacts.

Local Open Scope js_scope.

Lemma Rltb_true a b : (a < b)%R -> IdealOps.Rltb a b = true.
Proof. intros H. unfold IdealOps.Rltb. destruct (Rlt_dec a b); tauto. Qed.

Lemma Rltb_false a b : (b <= a)%R -> IdealOps.Rltb a b = false.
Proof.
  intros H. unfold IdealOps.Rltb. destruct (Rlt_dec a b); [lra|reflexivity].
Qed.

Lemma Reqb_true a b : a = b -> IdealOps.Reqb a b = true.
Proof. intros H. unfold IdealOps.Reqb. destruct (Req_dec_T a b); tauto. Qed.

Lemma Reqb_false a b : a <> b -> IdealOps.Reqb a b = false.
Proof. intros H. unfold IdealOps.Reqb. destruct (Req_dec_T a b); tauto. Qed.

Lemma Reqb_eq a b : IdealOps.Reqb a b = true <-> a = b.
Proof.
  unfold IdealOps.Reqb. destruct (Req_dec_T a b); split; intros; congruence.
Qed.

Lemma Rltb_lt a b : IdealOps.Rltb a b = true <-> (a < b)%R.
Proof.
  unfold IdealOps.Rltb. destruct (Rlt_dec a b); split; intros;
    try assumption; try reflexivity; try discriminate; tauto.
Qed.

(** ** Literals and finite operands *)

Lemma lit_Fin (q : Q) : lit q = Fin (Q2R q).
Proof. reflexivity. Qed.

Lemma lit_Z (z : Z) : lit (inject_Z z) = Fin (IZR z).
Proof. rewrite lit_Fin. f_equal. unfold Q2R. simpl. field. Qed.

Lemma lit_0 : lit 0 = Fin 0.
Proof. exact (lit_Z 0). Qed.

Lemma lit_1 : lit 1 = Fin 1.
Proof. exact (lit_Z 1). Qed.

Lemma lit_2 : lit 2 = Fin 2.
Proof. exact (lit_Z 2). Qed.

Lemma of_length_Fin (n : nat) : of_length n = Fin (INR n).
Proof. reflexivity. Qed.

Lemma Fin_add a b : Fin a + Fin b = Fin (a + b).
Proof. reflexivity. Qed.

Lemma Fin_sub a b : Fin a - Fin b = Fin (a - b).
Proof. reflexivity. Qed.

Lemma Fin_mul a b : Fin a * Fin b = Fin (a * b).
Proof. reflexivity. Qed.

Lemma Fin_neg a : - Fin a = Fin (- a).
Proof. reflexivity. Qed.

Lemma Fin_div a b : b <> 0%R -> Fin a / Fin b = Fin (a / b).
Proof.
  intros Hb. unfold_ideal. unfold IdealOps.div.
  now rewrite (Reqb_false Hb).
Qed.

Lemma Fin_exp a : Math_exp (Fin a) = Fin (Rtrigo_def.exp a).
Proof. reflexivity. Qed.

Lemma Fin_max a b : Math_max (Fin a) (Fin b) = Fin (Rmax a b).
Proof. reflexivity. Qed.

Lemma Fin_min a b : Math_min (Fin a) (Fin b) = Fin (Rmin a b).
Proof. reflexivity. Qed.

Lemma Fin_inj a b : Fin a = Fin b -> a = b.
Proof. intros H. now injection H. Qed.

(** ** Addition is a commutative monoid, whatever the operands *)

Lemma add_comm (x y : ideal) : x + y = y + x.
Proof.
  destruct x, y; try reflexivity. rewrite !Fin_add. f_equal. lra.
Qed.

Lemma add_assoc (x y z : ideal) : x + (y + z) = x + y + z.
Proof.
  destruct x, y, z; try reflexivity. rewrite !Fin_add. f_equal. lra.
Qed.

Lemma add_0_l (x : ideal) : lit 0 + x = x.
Proof.
  rewrite lit_0. destruct x; try reflexivity. rewrite Fin_add. f_equal. lra.
Qed.

Lemma add_0_r (x : ideal) : x + lit 0 = x.
Proof. rewrite add_comm. apply add_0_l. Qed.

(** A running sum is the sum of the specification, in whatever order. *)
Lemma fold_left_spec_sum {A : Type} (f : A -> ideal) :
  forall l acc,
    fold_left (fun acc a => acc + f a) l acc = acc + spec_sum (map f l).
Proof.
  induction l as [|a l IH]; intros acc; cbn [fold_left map].
  - symmetry. apply add_0_r.
  - rewrite IH. unfold spec_sum. cbn [fold_right].
    symmetry. apply add_assoc.
Qed.

Lemma running_sum {A : Type} (f : A -> ideal) l :
  fold_left (fun acc a => acc + f a) l (lit 0) = spec_sum (map f l).
Proof. rewrite fold_left_spec_sum. apply add_0_l. Qed.

(** The linear score of the source is the dot product plus the bias. *)
Lemma score_from :
  forall row (wpre wrest : list ideal) acc,
    length row = length wrest ->
    reduce_from (fun sum val idx => sum + val * get (wpre ++ wrest) idx)
                (length wpre) row acc
    = acc + spec_dot row wrest.
Proof.
  induction row as [|x row IH]; intros wpre [|wj wrest] acc Hlen;
    cbn [length] in Hlen; try discriminate.
  - cbn [reduce_from]. symmetry. apply add_0_r.
  - cbn [reduce_from]. rewrite get_middle.
    specialize (IH (wpre ++ [wj]) wrest (acc + x * wj)).
    rewrite length_app, Nat.add_1_r, <- app_assoc in IH.
    cbn [app length] in IH.
    rewrite IH by lia.
    unfold spec_dot, spec_sum. cbn [combine map fold_right].
    symmetry. apply add_assoc.
Qed.

Lemma score_spec_dot (w : list ideal) b row :
  length row = length w ->
  score w b row = spec_dot row w + b.
Proof.
  intros Hlen. unfold score, reduce.
  pose proof (score_from row [] w b Hlen) as H.
  cbn [app length] in H. rewrite H. apply add_comm.
Qed.

End IdealFacts.

(** * C1: the trainer is the specified gradient descent *)

Section TrainIsGradientDescent.

Local Open Scope js_scope.

(** Reading the rows by index is traversing them. *)
Lemma errors_indexed {number : Type} {N : Number number}
    (P : list number -> number) :
  forall X y,
    length y = length X ->
    map (fun i => get (map P X) i - get y i) (seq 0 (length X))
    = map (fun '(row, label) => P row - label) (combine X y).
Proof.
  induction X as [|row X IH]; intros [|label y] Hlen;
    cbn [length] in Hlen; try discriminate; [reflexivity|].
  cbn [length seq map combine]. f_equal.
  rewrite <- seq_shift, map_map. apply IH. lia.
Qed.

Lemma error_rows_indexed {number : Type} {N : Number number} {B : Type}
    (F : number -> list number -> B) (P : list number -> number) :
  forall X y,
    length y = length X ->
    map (fun i => F (get (map P X) i - get y i) (nth i X []))
        (seq 0 (length X))
    = map (fun '(e, row) => F e row)
          (combine (map (fun '(row, label) => P row - label) (combine X y))
                   X).
Proof.
  induction X as [|row X IH]; intros [|label y] Hlen;
    cbn [length] in Hlen; try discriminate; [reflexivity|].
  cbn [length seq map combine]. f_equal.
  rewrite <- seq_shift, map_map. apply IH. lia.
Qed.

Lemma train_iteration_spec lr (X : list (list ideal)) y w b k :
  Forall (fun row => length row = k) X ->
  length y = length X ->
  length w = k ->
  train_iteration lr X y (length X) k (w, b) = spec_step lr X y (w, b).
Proof.
  intros Hrows Hy Hw. subst k.
  rewrite train_iteration_sums. unfold spec_step.
  assert (Hpred : map (fun row => sigmoid (score w b row)) X
                  = map (spec_prediction w b) X).
  { apply map_ext_in. intros row Hin. unfold spec_prediction.
    rewrite score_spec_dot; [reflexivity|].
    rewrite Forall_forall in Hrows. now apply Hrows. }
  rewrite Hpred. f_equal.
  - unfold mapi. rewrite mapi_from_combine.
    apply map_ext_in. intros [j wj] _. do 3 f_equal.
    unfold dw_sum. rewrite running_sum.
    f_equal.
    exact (error_rows_indexed (fun e row => e * get row j)
                              (spec_prediction w b) X y Hy).
  - do 3 f_equal. unfold db_sum. rewrite running_sum.
    f_equal. exact (errors_indexed (spec_prediction w b) X y Hy).
Qed.

Lemma spec_step_length lr (X : list (list ideal)) y w b :
  length (fst (spec_step lr X y (w, b))) = length w.
Proof.
  unfold spec_step. cbn [fst].
  rewrite length_map, length_combine, length_seq. lia.
Qed.

Lemma spec_train_length lr iters (X : list (list ideal)) y k :
  length (fst (spec_train lr iters X y k)) = k.
Proof.
  unfold spec_train. induction iters as [|iters IH].
  - apply repeat_length.
  - rewrite Nat.iter_succ.
    destruct (Nat.iter iters _ _) as [w b].
    rewrite spec_step_length. exact IH.
Qed.

(** C1. On a matrix [X] of [n >= 1] rows of [k] entries each and [n]
    labels [y], in exact arithmetic, [train] returns the weights and bias of
    the specified full-batch gradient descent: from the zero vector of
    length [k] and bias 0, exactly [iterations] steps, each taking the
    predictions [sigmoid(dot(row, weights) + bias)], the errors
    [prediction - label], the gradients [sum of error * x[j]] and
    [sum of error], and the updates
    [weights[j] -= learningRate * gradient[j] / n],
    [bias -= learningRate * biasGradient / n]. *)
Theorem train_is_spec_gradient_descent :
  forall (self : LogisticRegression ideal) (X : list (list ideal))
         (y : list ideal) (k : nat),
    X <> [] ->
    Forall (fun row => length row = k) X ->
    length y = length X ->
    train self X y
    = Ok {| weights :=
              fst (spec_train (learningRate self) (iterations self) X y k);
            bias :=
              snd (spec_train (learningRate self) (iterations self) X y k);
            learningRate := learningRate self;
            iterations := iterations self |}.
Proof.
  intros self X y k HX Hrows Hy.
  unfold train. destruct X as [|row0 X']; [contradiction|].
  set (X := row0 :: X') in *.
  assert (Hk : length row0 = k) by (now inversion Hrows).
  rewrite Hk, for_loop_iter.
  assert (Hiter :
    Nat.iter (iterations self)
             (train_iteration (learningRate self) X y (length X) k)
             (Array_fill k (lit 0), lit 0)
    = spec_train (learningRate self) (iterations self) X y k).
  { unfold spec_train, Array_fill.
    induction (iterations self) as [|iters IH]; [reflexivity|].
    rewrite !Nat.iter_succ, IH.
    pose proof (spec_train_length (learningRate self) iters X y k) as Hlen.
    unfold spec_train in Hlen.
    destruct (Nat.iter iters (spec_step _ _ _) _) as [w b].
    cbn [fst] in Hlen.
    now apply train_iteration_spec. }
  match goal with
  | |- context [Nat.iter ?n ?f ?i] =>
      replace (Nat.iter n f i)
        with (spec_train (learningRate self) (iterations self) X y k)
        by (symmetry; exact Hiter)
  end.
  destruct (spec_train _ _ _ _ _) as [w b]. reflexivity.
Qed.

Lemma train_is_spec_gradient_descent_witness :
  train (new_LogisticRegression (lit 0.01) 1000)
        [[Fin 1; Fin 2]; [Fin 3; Fin 4]; [Fin 5; Fin 7]]
        [Fin 0; Fin 1; Fin 1]
  = Ok {| weights :=
            fst (spec_train (lit 0.01) 1000
                   [[Fin 1; Fin 2]; [Fin 3; Fin 4]; [Fin 5; Fin 7]]
                   [Fin 0; Fin 1; Fin 1] 2);
          bias :=
            snd (spec_train (lit 0.01) 1000
                   [[Fin 1; Fin 2]; [Fin 3; Fin 4]; [Fin 5; Fin 7]]
                   [Fin 0; Fin 1; Fin 1] 2);
          learningRate := lit 0.01;
          iterations := 1000 |}.
Proof.
  apply (@train_is_spec_gradient_descent
           (new_LogisticRegression (lit 0.01) 1000)
           [[Fin 1; Fin 2]; [Fin 3; Fin 4]; [Fin 5; Fin 7]]
           [Fin 0; Fin 1; Fin 1] 2).
  - discriminate.
  - repeat constructor.
  - reflexivity.
Defined.

End TrainIsGradientDescent.

(** * C4: the 80/20 split *)

Section Split.

Local Open Scope js_scope.

Lemma floor_four_fifths (n : nat) :
  Zfloor (INR n * Q2R 0.8) = Z.of_nat (4 * n / 5).
Proof.
  apply Zfloor_eq.
  rewrite Nat2Z.inj_div, INR_IZR_INZ.
  replace (Q2R 0.8) with (4 / 5)%R by (unfold Q2R; simpl; field).
  pose proof (Z.div_mod (Z.of_nat (4 * n)) (Z.of_nat 5) ltac:(lia)) as Hdiv.
  pose proof (Z.mod_pos_bound (Z.of_nat (4 * n)) (Z.of_nat 5) ltac:(lia))
    as Hmod.
  set (q := (Z.of_nat (4 * n) / Z.of_nat 5)%Z) in *.
  set (r := (Z.of_nat (4 * n) mod Z.of_nat 5)%Z) in *.
  assert (H4n : (4 * IZR (Z.of_nat n) = 5 * IZR q + IZR r)%R).
  { rewrite <- !mult_IZR, <- plus_IZR. f_equal. lia. }
  assert (Hr0 : (0 <= IZR r)%R) by (apply IZR_le; lia).
  assert (Hr5 : (IZR r < 5)%R) by (apply IZR_lt; lia).
  lra.
Qed.

Lemma ToInteger_splitIndex (n : nat) :
  ToIntegerOrInfinity (splitIndex (number := ideal) n)
  = Integer (Z.of_nat (4 * n / 5)).
Proof.
  unfold splitIndex. rewrite of_length_Fin, lit_Fin, Fin_mul.
  unfold_ideal. unfold IdealOps.floor, IdealOps.ToIntegerOrInfinity.
  f_equal. rewrite floor_four_fifths. unfold IdealOps.trunc.
  rewrite Rltb_false by (apply IZR_le; lia).
  apply ZfloorZ.
Qed.

Lemma ToInteger_zero : ToIntegerOrInfinity (lit 0 : ideal) = Integer 0.
Proof.
  rewrite lit_0. unfold_ideal.
  unfold IdealOps.ToIntegerOrInfinity, IdealOps.trunc.
  rewrite Rltb_false by lra. f_equal. exact (ZfloorZ 0).
Qed.

Lemma four_fifths_le (n : nat) : (4 * n / 5 <= n)%nat.
Proof.
  apply Nat.Div0.div_le_upper_bound. lia.
Qed.

Lemma train_part_firstn {A : Type} (a : list A) n :
  n = length a ->
  train_part (number := ideal) a n = firstn (4 * n / 5) a.
Proof.
  intros ->. unfold train_part, slice.
  rewrite ToInteger_zero, ToInteger_splitIndex.
  unfold relative_index.
  replace (0 <? 0)%Z with false by reflexivity.
  replace (Z.of_nat (4 * length a / 5) <? 0)%Z with false
    by (symmetry; apply Z.ltb_ge; lia).
  rewrite Nat2Z.id. cbn [Z.to_nat Nat.min skipn].
  pose proof (four_fifths_le (length a)).
  rewrite Nat.min_l, Nat.sub_0_r by assumption. reflexivity.
Qed.

Lemma test_part_skipn {A : Type} (a : list A) n :
  n = length a ->
  test_part (number := ideal) a n = skipn (4 * n / 5) a.
Proof.
  intros ->. unfold test_part, slice.
  rewrite ToInteger_splitIndex.
  unfold relative_index.
  replace (Z.of_nat (4 * length a / 5) <? 0)%Z with false
    by (symmetry; apply Z.ltb_ge; lia).
  rewrite Nat2Z.id.
  pose proof (four_fifths_le (length a)).
  rewrite Nat.min_l by assumption.
  apply firstn_all2. rewrite length_skipn. lia.
Qed.

(** C4. In exact arithmetic, on [n] rows [X] with their [n] labels [y],
    the split index is [floor (0.8 * n)]; the training partition is the
    first [floor (0.8 * n)] rows and labels in the order presented, the
    holdout partition the remaining [n - floor (0.8 * n)]; position for
    position they are the rows of [X], no row is in both, and their
    concatenation is [X] (and [y]). *)
Theorem split_is_first_four_fifths :
  forall (X : list (list ideal)) (y : list ideal),
    length y = length X ->
    let n := length X in
    let k := (4 * n / 5)%nat in
    Z.of_nat k = Zfloor (0.8 * INR n)
    /\ train_part (number := ideal) X n = firstn k X
    /\ train_part (number := ideal) y n = firstn k y
    /\ test_part (number := ideal) X n = skipn k X
    /\ test_part (number := ideal) y n = skipn k y
    /\ length (train_part (number := ideal) X n) = k
    /\ length (test_part (number := ideal) X n) = (n - k)%nat
    /\ (forall i, (i < k)%nat ->
          nth_error (train_part (number := ideal) X n) i = nth_error X i)
    /\ (forall i,
          nth_error (test_part (number := ideal) X n) i
          = nth_error X (k + i))
    /\ (train_part (number := ideal) X n
        ++ test_part (number := ideal) X n)%list = X
    /\ (train_part (number := ideal) y n
        ++ test_part (number := ideal) y n)%list = y.
Proof.
  intros X y Hy n k. subst n k.
  pose proof (four_fifths_le (length X)) as Hle.
  rewrite (train_part_firstn y (n := length X)) by (symmetry; exact Hy).
  rewrite (test_part_skipn y (n := length X)) by (symmetry; exact Hy).
  rewrite !(train_part_firstn X (n := length X)) by reflexivity.
  rewrite !(test_part_skipn X (n := length X)) by reflexivity.
  repeat split.
  - rewrite <- floor_four_fifths. f_equal.
    replace (Q2R 0.8) with 0.8%R by (unfold Q2R; simpl; field). lra.
  - rewrite length_firstn. lia.
  - apply length_skipn.
  - intros i Hi. rewrite nth_error_firstn.
    apply Nat.ltb_lt in Hi. now rewrite Hi.
  - intros i. apply nth_error_skipn.
  - apply firstn_skipn.
  - apply firstn_skipn.
Qed.

Lemma split_is_first_four_fifths_witness :
  let X := [[Fin 1]; [Fin 2]; [Fin 3]; [Fin 4]; [Fin 5]; [Fin 6]; [Fin 7]] in
  let y := [Fin 0; Fin 1; Fin 0; Fin 1; Fin 0; Fin 1; Fin 1] in
  train_part (number := ideal) X 7 = [[Fin 1]; [Fin 2]; [Fin 3]; [Fin 4]; [Fin 5]]
  /\ test_part (number := ideal) X 7 = [[Fin 6]; [Fin 7]]
  /\ train_part (number := ideal) y 7 = [Fin 0; Fin 1; Fin 0; Fin 1; Fin 0]
  /\ test_part (number := ideal) y 7 = [Fin 1; Fin 1].
Proof.
  intros X y.
  destruct (@split_is_first_four_fifths X y eq_refl)
    as (_ & HX1 & Hy1 & HX2 & Hy2 & _).
  repeat split; [exact HX1 | exact HX2 | exact Hy1 | exact Hy2].
Defined.

End Split.

(** * The feature extractor: what a row contributes *)

Section ExtractFacts.

Context {number : Type} {N : Number number} {E : MathExp number}.
Variable StringToNumber : string -> number.

Lemma extract_feature_step mapping row featureRow isValid feature :
  extract_feature StringToNumber mapping row (featureRow, isValid) feature
  = ((featureRow ++ feature_values StringToNumber mapping row feature)%list,
     isValid && feature_ok StringToNumber mapping row feature).
Proof.
  unfold extract_feature, feature_values, feature_ok.
  destruct (lookup mapping feature) as [c|].
  - destruct (String.eqb c ""); cbn [negb andb].
    + now rewrite app_nil_r, andb_false_r.
    + destruct (isNaN _), isValid; reflexivity.
  - now rewrite app_nil_r, andb_false_r.
Qed.

Lemma extract_features_fold mapping row :
  forall features featureRow isValid,
    fold_left (extract_feature StringToNumber mapping row) features
              (featureRow, isValid)
    = ((featureRow
        ++ flat_map (feature_values StringToNumber mapping row) features)%list,
       isValid && forallb (feature_ok StringToNumber mapping row) features).
Proof.
  intros features.
  induction features as [|f features IH]; intros featureRow isValid;
    cbn [fold_left flat_map forallb].
  - now rewrite app_nil_r, andb_true_r.
  - now rewrite extract_feature_step, IH, <- app_assoc, andb_assoc.
Qed.

Lemma extract_row_kept mapping features targetColumn actualTargetColumn
    X y row :
  extract_row StringToNumber mapping features targetColumn
              actualTargetColumn (X, y) row
  = if row_kept StringToNumber mapping features targetColumn
               actualTargetColumn row
    then ((X ++ [flat_map (feature_values StringToNumber mapping row)
                          features])%list,
          (y ++ [row_target StringToNumber targetColumn actualTargetColumn
                            row])%list)
    else (X, y).
Proof.
  unfold extract_row, row_kept. rewrite extract_features_fold.
  fold (row_target StringToNumber targetColumn actualTargetColumn row).
  cbn [app andb].
  destruct (forallb _ features), (isNaN _); reflexivity.
Qed.

(** The rows extracted are the rows kept, in order. *)
Lemma extract_filter mapping features targetColumn actualTargetColumn :
  forall rows,
    extract StringToNumber mapping features targetColumn actualTargetColumn
            rows
    = let kept :=
        filter (row_kept StringToNumber mapping features targetColumn actualTargetColumn)
               rows in
      (map (fun row => flat_map (feature_values StringToNumber mapping row) features) kept,
       map (row_target StringToNumber targetColumn actualTargetColumn) kept).
Proof.
  intros rows. unfold extract.
  enough (Hgen : forall X y,
    fold_left (extract_row StringToNumber mapping features targetColumn
                           actualTargetColumn) rows (X, y)
    = let kept :=
        filter (row_kept StringToNumber mapping features targetColumn actualTargetColumn)
               rows in
      ((X ++ map (fun row => flat_map (feature_values StringToNumber mapping row) features)
                 kept)%list,
       (y ++ map (row_target StringToNumber targetColumn actualTargetColumn) kept)%list))
    by exact (Hgen [] []).
  induction rows as [|row rows IH]; intros X y; cbn [fold_left filter].
  - cbn [map]. now rewrite !app_nil_r.
  - rewrite extract_row_kept.
    destruct (row_kept _ _ _ _ _ row).
    + rewrite IH. cbn zeta. cbn [map]. now rewrite <- !app_assoc.
    + apply IH.
Qed.

(** A kept row carries one value per feature. *)
Lemma kept_row_length mapping features row :
  forallb (feature_ok StringToNumber mapping row) features = true ->
  length (flat_map (feature_values StringToNumber mapping row) features) = length features.
Proof.
  induction features as [|f features IH]; cbn [forallb flat_map];
    [reflexivity|].
  intros H. apply andb_prop in H. destruct H as [Hf Hrest].
  rewrite length_app, IH by assumption.
  unfold feature_ok in Hf. unfold feature_values.
  destruct (lookup mapping f) as [c|]; [|discriminate].
  destruct (String.eqb c ""); [discriminate|reflexivity].
Qed.

Lemma extract_shape mapping features targetColumn actualTargetColumn rows
    X y :
  extract StringToNumber mapping features targetColumn actualTargetColumn
          rows = (X, y) ->
  Forall (fun row => length row = length features) X
  /\ length y = length X.
Proof.
  rewrite extract_filter. cbn zeta. intros H. injection H as <- <-.
  split.
  - apply Forall_forall. intros r Hin.
    apply in_map_iff in Hin. destruct Hin as (row & <- & Hin).
    apply filter_In in Hin. destruct Hin as [_ Hkept].
    apply andb_prop in Hkept. now apply kept_row_length.
  - now rewrite !length_map.
Qed.

End ExtractFacts.

(** * C2: [predict] against [predictProbability]; features against weights *)

Section ModelShape.

Context {number : Type} {N : Number number} {E : MathExp number}.
Variable StringToNumber : string -> number.
Local Open Scope js_scope.

Lemma predict_threshold (self : LogisticRegression number) X :
  predict self X
  = if predictProbability self X >= lit 0.5 then lit 1 else lit 0.
Proof. reflexivity. Qed.

Lemma train_loop_length lr (X : list (list number)) y n iters :
  length (fst (Nat.iter iters
                 (fun wb => train_iteration lr X y (length X) n wb)
                 (Array_fill n (lit 0), lit 0)))
  = n.
Proof.
  induction iters as [|iters IH].
  - apply repeat_length.
  - rewrite Nat.iter_succ.
    destruct (Nat.iter iters _ _) as [w b]. cbn [fst] in IH.
    rewrite <- IH at 1. rewrite train_iteration_length. exact IH.
Qed.

(** [train] succeeds exactly on a non-empty matrix, and leaves one weight
    per entry of the first row. *)
Lemma train_Ok (self : LogisticRegression number) X y m :
  train self X y = Ok m ->
  exists row0 rest,
    X = row0 :: rest /\ length (weights m) = length row0.
Proof.
  unfold train. destruct X as [|row0 rest]; [discriminate|].
  intros H. exists row0, rest. split; [reflexivity|].
  rewrite for_loop_iter in H.
  pose proof (train_loop_length (learningRate self) (row0 :: rest) y
                (length row0) (iterations self)) as Hlen.
  destruct (Nat.iter _ _ _) as [w b]. cbn [fst] in Hlen.
  injection H as <-. exact Hlen.
Qed.

Lemma train_nonempty (self : LogisticRegression number) row0 rest y :
  exists m, train self (row0 :: rest) y = Ok m.
Proof.
  unfold train.
  destruct (for_loop _ _ _) as [w b]. eexists. reflexivity.
Qed.

Lemma train_empty (self : LogisticRegression number) y :
  train self [] y = Throw TypeError.
Proof. reflexivity. Qed.

Lemma slice_In {A : Type} (a : list A) start end_ x :
  In x (slice a start end_) -> In x a.
Proof.
  unfold slice. intros H.
  set (k := relative_index _ (ToIntegerOrInfinity start)) in *.
  set (n := (_ - k)%nat) in *.
  rewrite <- (firstn_skipn k a). apply in_or_app. right.
  rewrite <- (firstn_skipn n (skipn k a)). apply in_or_app. now left.
Qed.

Lemma normalize_row_length means stds (row : list number) :
  length (normalize_row means stds row) = length row.
Proof. apply mapi_length. Qed.

Lemma fit_Ok_shape fs actualTargetColumn X y tm :
  Forall (fun row => length row = length fs) X ->
  fit fs actualTargetColumn X y = Ok tm ->
  features tm = fs /\ length (weights (model tm)) = length fs.
Proof.
  intros Hrows. unfold fit.
  destruct (length X =? 0)%nat; [discriminate|].
  destruct (train _ _ _) as [m|e] eqn:Htrain; [|discriminate].
  intros H. injection H as <-. cbn [features model].
  split; [reflexivity|].
  apply train_Ok in Htrain. destruct Htrain as (row0 & rest & HX & ->).
  assert (Hin : In row0 (train_part
            (map (normalize_row (compute_means (length fs) X)
                    (compute_stds (length fs) X
                       (compute_means (length fs) X))) X)
            (length X)))
    by (rewrite HX; now left).
  apply slice_In, in_map_iff in Hin. destruct Hin as (row & <- & Hin).
  rewrite normalize_row_length.
  rewrite Forall_forall in Hrows. now apply Hrows.
Qed.

Lemma trainDiabetesModel_shape dataset tm :
  trainDiabetesModel StringToNumber dataset = Ok tm ->
  length (features tm) = length (weights (model tm)).
Proof.
  unfold trainDiabetesModel.
  destruct (resolve_features dataset) as [[fs targetColumn]|e];
    [|discriminate].
  destruct (lookup _ targetColumn) as [actual|]; [|discriminate].
  destruct (String.eqb actual ""); [discriminate|].
  destruct (extract _ _ _ _ _ _) as [X y] eqn:Hextract.
  apply extract_shape in Hextract. destruct Hextract as [Hrows _].
  intros Hfit.
  destruct (fit_Ok_shape fs actual y Hrows Hfit) as [-> ->]. reflexivity.
Qed.

End ModelShape.

Section PredictAndShape.

Local Open Scope js_scope.

Lemma lit_1_neq_0 : (lit 1 : ideal) <> lit 0.
Proof. rewrite lit_0, lit_1. intros H. apply Fin_inj in H. lra. Qed.

(** With two rows or more the training partition is not empty, and
    [fit] returns a model. *)
Lemma fit_succeeds fs actualTargetColumn (X : list (list ideal)) y :
  (2 <= length X)%nat ->
  exists tm, fit fs actualTargetColumn X y = Ok tm.
Proof.
  intros Hn. unfold fit.
  destruct (length X =? 0)%nat eqn:H0;
    [apply Nat.eqb_eq in H0; lia|].
  cbv zeta.
  set (XN := map _ X).
  assert (HXN : length XN = length X) by apply length_map.
  rewrite (train_part_firstn XN) by (symmetry; exact HXN).
  assert (H1 : (1 <= 4 * length X / 5)%nat).
  { apply Nat.div_le_lower_bound; lia. }
  destruct XN as [|row0 rest]; [cbn [length] in HXN; lia|].
  destruct (4 * length X / 5)%nat as [|k]; [lia|].
  cbn [firstn].
  destruct (train_nonempty (new_LogisticRegression (lit 0.01) 1000)
              row0 (firstn k rest)
              (train_part (number := ideal) y (length X))) as [m ->].
  eexists. reflexivity.
Qed.

Lemma pima3_trains :
  exists tm, trainDiabetesModel (fun _ => INaN) pima3 = Ok tm.
Proof.
  unfold trainDiabetesModel.
  replace (resolve_features pima3)
    with (Ok (["glucose"; "bloodpressure"; "bmi"; "age"]%string,
              "outcome"%string))
    by reflexivity.
  replace (lookup (columnMapping pima3) "outcome")
    with (Some "Outcome"%string) by reflexivity.
  replace (String.eqb "Outcome" "") with false by reflexivity.
  destruct (extract _ _ _ _ _ _) as [X y] eqn:Hextract.
  rewrite extract_filter in Hextract.
  replace (filter _ (data pima3)) with (data pima3) in Hextract
    by reflexivity.
  cbn zeta in Hextract.
  apply pair_equal_spec in Hextract. destruct Hextract as [<- <-].
  apply fit_succeeds. rewrite length_map. cbn [length data pima3]. lia.
Qed.

(** C2. [predict(x)] is 1 exactly when [predictProbability(x) >= 0.5] and
    0 exactly when it is not; and a model returned by [trainDiabetesModel]
    has as many feature names as weights. *)
Theorem predict_iff_probability_and_shape :
  (forall (self : LogisticRegression ideal) (x : list ideal),
      (predict self x = lit 1
       <-> (predictProbability self x >= lit 0.5) = true)
      /\ (predict self x = lit 0
          <-> (predictProbability self x >= lit 0.5) = false))
  /\ (forall (StringToNumber : string -> ideal) (dataset : Dataset ideal)
             (tm : TrainedModel ideal),
        trainDiabetesModel StringToNumber dataset = Ok tm ->
        length (features tm) = length (weights (model tm))).
Proof.
  split.
  - intros self x. rewrite predict_threshold.
    pose proof lit_1_neq_0 as Hneq.
    destruct (predictProbability self x >= lit 0.5); repeat split;
      intros H; try reflexivity; try discriminate; congruence.
  - intros StringToNumber dataset tm. apply trainDiabetesModel_shape.
Qed.

Lemma predict_iff_probability_and_shape_witness :
  exists tm,
    trainDiabetesModel (fun _ => INaN) pima3 = Ok tm
    /\ length (features tm) = length (weights (model tm)).
Proof.
  destruct pima3_trains as [tm Htm]. exists tm. split; [exact Htm|].
  exact (proj2 predict_iff_probability_and_shape (fun _ => INaN) pima3 tm Htm).
Defined.

End PredictAndShape.

(** * C5: where a length mismatch is an error *)

Section DimensionCheck.

Local Open Scope js_scope.

(** C5, as the source has it.  The [predict] of a trained model throws
    [Expected k features, got m] whenever the input's length [m] differs
    from the feature count [k] (so on a vector of length [k - 1]), and
    answers otherwise; [train] checks no length and never throws that
    error. *)
Theorem predict_rejects_wrong_length :
  forall {number : Type} {N : Number number} {E : MathExp number},
    (forall (tm : TrainedModel number) (input : list number),
        length input <> length (features tm) ->
        TrainedModel_predict tm input
        = Throw (ExpectedFeatures (length (features tm)) (length input)))
    /\ (forall (tm : TrainedModel number) (input : list number),
          length input = length (features tm) ->
          exists label, TrainedModel_predict tm input = Ok label)
    /\ (forall (self : LogisticRegression number) X y expected got,
          train self X y <> Throw (ExpectedFeatures expected got)).
Proof.
  intros number N E. repeat split.
  - intros tm input Hlen. unfold TrainedModel_predict.
    apply Nat.eqb_neq in Hlen. now rewrite Hlen.
  - intros tm input Hlen. unfold TrainedModel_predict.
    apply Nat.eqb_eq in Hlen. rewrite Hlen. eexists. reflexivity.
  - intros self X y expected got. destruct X as [|row0 rest].
    + rewrite train_empty. discriminate.
    + destruct (train_nonempty self row0 rest y) as [m ->]. discriminate.
Qed.

(** A model of four features asked about three values. *)
Lemma predict_rejects_wrong_length_witness :
  let tm :=
    {| model := {| weights := [Fin 1; Fin 1; Fin 1; Fin 1]; bias := Fin 0;
                   learningRate := lit 0.01; iterations := 1000 |};
       means := [Fin 0; Fin 0; Fin 0; Fin 0];
       stds := [Fin 1; Fin 1; Fin 1; Fin 1];
       features := ["glucose"; "bloodpressure"; "bmi"; "age"]%string;
       targetColumn := "Outcome"%string;
       metrics := calculateMetrics [] [] |} in
  TrainedModel_predict tm [Fin 100; Fin 70; Fin 30]
  = Throw (ExpectedFeatures 4 3).
Proof.
  intros tm.
  apply (proj1 (@predict_rejects_wrong_length ideal Ideal IdealExp) tm
               [Fin 100; Fin 70; Fin 30]).
  cbn [length features tm]. lia.
Defined.

(** Training on rows of two and of one entries throws nothing. *)
Lemma train_accepts_uneven_rows :
  (exists m,
      train (new_LogisticRegression (lit 0.01) 1000)
            [[Fin 1; Fin 2]; [Fin 3]] [Fin 1; Fin 0]
      = Ok m)
  /\ train (new_LogisticRegression (lit 0.01) 1000)
           [[Fin 1; Fin 2]; [Fin 3]] [Fin 1; Fin 0]
     <> Throw (ExpectedFeatures 2 1).
Proof.
  destruct (train_nonempty (new_LogisticRegression (lit 0.01) 1000)
              [Fin 1; Fin 2] [[Fin 3]] [Fin 1; Fin 0]) as [m Hm].
  split; [now exists m|]. rewrite Hm. discriminate.
Qed.

End DimensionCheck.

(** * C6: which rows the extractor drops *)

Section RowFiltering.

Context {number : Type} {N : Number number} {E : MathExp number}.
Variable StringToNumber : string -> number.

Lemma columnMapping_rev (dataset : Dataset number) :
  columnMapping dataset
  = rev (map (fun c => (normalizeColumn c, c)) (columns dataset)).
Proof.
  unfold columnMapping.
  enough (H : forall cols acc,
    fold_left (fun mapping originalCol =>
                 (normalizeColumn originalCol, originalCol) :: mapping)
              cols acc
    = (rev (map (fun c => (normalizeColumn c, c)) cols) ++ acc)%list)
    by (rewrite H; apply app_nil_r).
  induction cols as [|c cols IH]; intros acc; cbn [fold_left map rev].
  - reflexivity.
  - now rewrite IH, <- app_assoc.
Qed.

Lemma lookup_In {A : Type} (obj : list (string * A)) key v :
  In (key, v) obj ->
  exists v', lookup obj key = Some v' /\ In (key, v') obj.
Proof.
  induction obj as [|[k a] obj IH]; intros Hin; [contradiction|].
  cbn [lookup]. destruct (String.eqb k key) eqn:Hk.
  - apply String.eqb_eq in Hk. subst k. exists a. split; [reflexivity|].
    now left.
  - destruct Hin as [Heq|Hin].
    + injection Heq as -> _. now rewrite String.eqb_refl in Hk.
    + destruct (IH Hin) as (v' & Hv' & Hin'). exists v'.
      split; [exact Hv'|now right].
Qed.

(** A normalized name among the columns is mapped to a column of that
    normalized name. *)
Lemma columnMapping_includes (dataset : Dataset number) name :
  includes (map normalizeColumn (columns dataset)) name = true ->
  exists c,
    lookup (columnMapping dataset) name = Some c
    /\ normalizeColumn c = name.
Proof.
  unfold includes. intros H.
  apply existsb_exists in H. destruct H as (n & Hin & Heq).
  apply String.eqb_eq in Heq. subst n.
  apply in_map_iff in Hin. destruct Hin as (c & Hc & Hin).
  assert (Hin' : In (name, c) (columnMapping dataset)).
  { rewrite columnMapping_rev. apply in_rev. rewrite rev_involutive.
    apply in_map_iff. exists c. now rewrite Hc. }
  destruct (lookup_In _ _ _ Hin') as (c' & Hlookup & Hin'').
  exists c'. split; [exact Hlookup|].
  rewrite columnMapping_rev in Hin''. apply in_rev in Hin''.
  apply in_map_iff in Hin''. destruct Hin'' as (c'' & Heq & _).
  injection Heq as Hn Hc'. now subst c''.
Qed.

Lemma feature_names_not_empty :
  Forall (fun f => f <> ""%string)
         (comprehensive_features ++ basic_features).
Proof. repeat constructor; discriminate. Qed.

(** Every resolved feature has a column, whose name is not empty. *)
Lemma resolved_features_mapped (dataset : Dataset number) fs target :
  resolve_features dataset = Ok (fs, target) ->
  forall f, In f fs ->
    exists c, lookup (columnMapping dataset) f = Some c /\ c <> ""%string.
Proof.
  intros Hres f Hf.
  assert (Hf' : includes (map normalizeColumn (columns dataset)) f = true
                /\ In f (comprehensive_features ++ basic_features)).
  { unfold resolve_features in Hres.
    set (normalizedColumns := map normalizeColumn (columns dataset)) in *.
    destruct (getDatasetType dataset); [| |discriminate].
    - assert (Hfs : fs = filter (includes normalizedColumns)
                                comprehensive_features) by congruence.
      subst fs. apply filter_In in Hf. destruct Hf as [Hin Hinc].
      split; [exact Hinc|]. apply in_or_app. left. exact Hin.
    - assert (Hfs : fs = filter (includes normalizedColumns)
                                basic_features) by congruence.
      subst fs. apply filter_In in Hf. destruct Hf as [Hin Hinc].
      split; [exact Hinc|]. apply in_or_app. right. exact Hin. }
  destruct Hf' as [Hinc Hname].
  destruct (columnMapping_includes _ _ Hinc) as (c & Hlookup & Hnorm).
  exists c. split; [exact Hlookup|].
  intros ->.
  pose proof feature_names_not_empty as Hne.
  rewrite Forall_forall in Hne. apply (Hne f Hname).
  now rewrite <- Hnorm.
Qed.

Lemma mapped_feature mapping row f c :
  lookup mapping f = Some c -> c <> ""%string ->
  feature_values StringToNumber mapping row f
  = [feature_value StringToNumber mapping row f]
  /\ feature_ok StringToNumber mapping row f
     = negb (isNaN (feature_value StringToNumber mapping row f)).
Proof.
  intros Hlookup Hc.
  unfold feature_values, feature_ok, feature_value. rewrite Hlookup.
  apply String.eqb_neq in Hc. rewrite Hc. split; reflexivity.
Qed.

Lemma forallb_ext_in {A : Type} (f g : A -> bool) l :
  (forall a, In a l -> f a = g a) -> forallb f l = forallb g l.
Proof.
  induction l as [|a l IH]; intros H; cbn [forallb]; [reflexivity|].
  rewrite (H a) by now left. f_equal.
  apply IH. intros a' Hin. apply H. now right.
Qed.

Lemma flat_map_singleton {A B : Type} (f : A -> list B) (g : A -> B) l :
  (forall a, In a l -> f a = [g a]) -> flat_map f l = map g l.
Proof.
  induction l as [|a l IH]; intros H; cbn [flat_map map]; [reflexivity|].
  rewrite (H a) by now left. cbn [app]. f_equal.
  apply IH. intros a' Hin. apply H. now right.
Qed.

Lemma trainDiabetesModel_NoValidData (dataset : Dataset number) fs target
    actual :
  resolve_features dataset = Ok (fs, target) ->
  lookup (columnMapping dataset) target = Some actual ->
  actual <> ""%string ->
  (trainDiabetesModel StringToNumber dataset = Throw NoValidData
   <-> fst (extract StringToNumber (columnMapping dataset) fs target actual
                    (data dataset)) = []).
Proof.
  intros Hres Hlookup Hactual.
  unfold trainDiabetesModel. rewrite Hres, Hlookup.
  apply String.eqb_neq in Hactual. rewrite Hactual.
  destruct (extract _ _ _ _ _ _) as [X y]. cbn [fst].
  unfold fit. destruct X as [|row0 X]; cbn [length Nat.eqb].
  - split; reflexivity.
  - split; [|discriminate].
    destruct (train _ _ _) as [m|e] eqn:Htrain; [discriminate|].
    intros H. injection H as ->.
    exfalso. revert Htrain.
    destruct (train_part _ _) as [|r rs].
    + rewrite train_empty. discriminate.
    + destruct (train_nonempty (new_LogisticRegression (lit 0.01) 1000)
                  r rs (train_part y (S (length X)))) as [m ->].
      discriminate.
Qed.

End RowFiltering.

(** C6, as the source has it.  For a dataset whose features and target
    resolve, the target not being [diabetes012]: a row is dropped exactly
    when [Number(...)] of one of its selected feature cells, or of its target
    cell, is [NaN]; the rows kept give [X] and [y] in order, each value as
    converted; and [trainDiabetesModel] throws
    ['No valid data found for training'] exactly when no row is kept. *)
Theorem rows_dropped_iff_NaN :
  forall {number : Type} {N : Number number} {E : MathExp number}
         (StringToNumber : string -> number) (dataset : Dataset number)
         (fs : list string) (target actual : string),
    resolve_features dataset = Ok (fs, target) ->
    lookup (columnMapping dataset) target = Some actual ->
    actual <> ""%string ->
    target <> "diabetes012"%string ->
    let mapping := columnMapping dataset in
    let label row := Number_of StringToNumber (lookup row actual) in
    let keep row :=
      forallb
        (fun f => negb (isNaN (feature_value StringToNumber mapping row f)))
        fs
      && negb (isNaN (label row)) in
    extract StringToNumber mapping fs target actual (data dataset)
    = (map (fun row => map (feature_value StringToNumber mapping row) fs)
           (filter keep (data dataset)),
       map label (filter keep (data dataset)))
    /\ (trainDiabetesModel StringToNumber dataset = Throw NoValidData
        <-> filter keep (data dataset) = []).
Proof.
  intros number N E StringToNumber dataset fs target actual
         Hres Hlookup Hactual Htarget mapping label keep.
  pose proof (resolved_features_mapped dataset Hres) as Hmapped.
  apply String.eqb_neq in Htarget.
  assert (Hlabel : forall row,
             row_target StringToNumber target actual row = label row).
  { intros row. unfold row_target. now rewrite Htarget. }
  assert (Hkeep : forall row,
             row_kept StringToNumber mapping fs target actual row = keep row).
  { intros row. unfold row_kept, keep. rewrite Hlabel. f_equal.
    apply forallb_ext_in. intros f Hf.
    destruct (Hmapped f Hf) as (c & Hc & Hne).
    now destruct (@mapped_feature number N StringToNumber mapping row f c
                   Hc Hne) as [_ ->]. }
  assert (Hextract :
    extract StringToNumber mapping fs target actual (data dataset)
    = (map (fun row => map (feature_value StringToNumber mapping row) fs)
           (filter keep (data dataset)),
       map label (filter keep (data dataset)))).
  { rewrite extract_filter. cbn zeta.
    rewrite (filter_ext _ _ Hkeep). f_equal.
    - apply map_ext. intros row. apply flat_map_singleton. intros f Hf.
      destruct (Hmapped f Hf) as (c & Hc & Hne).
      now destruct (@mapped_feature number N StringToNumber mapping row f c
                     Hc Hne) as [-> _].
    - apply map_ext. exact Hlabel. }
  split; [exact Hextract|].
  rewrite (trainDiabetesModel_NoValidData StringToNumber dataset
             Hres Hlookup Hactual).
  fold mapping. rewrite Hextract. cbn [fst].
  destruct (filter keep (data dataset)); cbn [map]; split;
    intros H; try reflexivity; discriminate.
Qed.

Lemma rows_dropped_iff_NaN_witness :
  extract (fun _ => INaN) (columnMapping pima_gaps)
          ["glucose"; "bloodpressure"; "bmi"; "age"]%string
          "outcome" "Outcome" (data pima_gaps)
  = ([[Fin 148; Fin 72; Fin 33.6; Fin 50]; [Fin 89; Fin 66; Fin 28.1; Fin 21]],
     [Fin 1; Fin 0])
  /\ trainDiabetesModel (fun _ => INaN) pima_gaps <> Throw NoValidData.
Proof.
  destruct (@rows_dropped_iff_NaN ideal Ideal IdealExp (fun _ => INaN)
              pima_gaps ["glucose"; "bloodpressure"; "bmi"; "age"]%string
              "outcome"%string "Outcome"%string)
    as [Hextract Hnone].
  - reflexivity.
  - reflexivity.
  - discriminate.
  - discriminate.
  - split.
    + rewrite Hextract. reflexivity.
    + intros H. apply Hnone in H. vm_compute in H. discriminate H.
Defined.

(** In binary64: a row whose glucose is [Infinity] and a row whose blood
    pressure cell is empty are both kept, the empty cell as 0. *)
Lemma extract_keeps_infinite_and_null :
  resolve_features pima_not_finite
  = Ok (["glucose"; "bloodpressure"; "bmi"; "age"]%string, "outcome"%string)
  /\ lookup (columnMapping pima_not_finite) "outcome" = Some "Outcome"%string
  /\ PrimFloat.is_finite infinity = false
  /\ extract (fun _ => PrimFloat.nan) (columnMapping pima_not_finite)
             ["glucose"; "bloodpressure"; "bmi"; "age"]%string
             "outcome" "Outcome" (data pima_not_finite)
     = ([[infinity; 72; 33.5; 50]; [85; 0; 26.5; 31]]%float, [1; 0]%float).
Proof. repeat split; vm_compute; reflexivity. Qed.

(** * C3: the metrics evaluator *)

Section MetricsFacts.

Context {number : Type} {N : Number number}.

Lemma fold_left_map {A B S : Type} (f : S -> B -> S) (g : A -> B) l s :
  fold_left f (map g l) s = fold_left (fun s a => f s (g a)) l s.
Proof. revert s. induction l as [|a l IH]; intros s; cbn; auto. Qed.

(** Reading two arrays of one length by index is traversing them. *)
Lemma fold_indexed_pairs {S : Type} (body : number -> number -> S -> S) :
  forall (a b : list number) s,
    length b = length a ->
    fold_left (fun s i => body (get a i) (get b i) s) (seq 0 (length a)) s
    = fold_left (fun s '(x, y) => body x y s) (combine a b) s.
Proof.
  induction a as [|x a IH]; intros [|y b] s Hlen;
    cbn [length] in Hlen; try discriminate; [reflexivity|].
  cbn [length seq fold_left combine].
  rewrite <- seq_shift, fold_left_map.
  apply (IH b). lia.
Qed.

Lemma count_outcomes_pairs (yTrue yPred : list number) :
  length yPred = length yTrue ->
  count_outcomes yTrue yPred
  = fold_left (fun c '(t, p) => count_pair t p c) (combine yTrue yPred)
              {| tp := lit 0; fp := lit 0; tn := lit 0; fn := lit 0 |}.
Proof.
  intros Hlen. unfold count_outcomes. rewrite for_loop_fold.
  exact (fold_indexed_pairs count_pair yTrue yPred _ Hlen).
Qed.

End MetricsFacts.

Section MetricsExact.

Local Open Scope js_scope.

Lemma strict_eq_Fin a b : (Fin a === Fin b) = IdealOps.Reqb a b.
Proof. reflexivity. Qed.

Lemma strict_eq_bit_1 b : (bit b === lit 1) = b.
Proof.
  unfold bit. rewrite lit_1. destruct b; rewrite ?lit_0, strict_eq_Fin.
  - now apply Reqb_true.
  - apply Reqb_false. lra.
Qed.

Lemma strict_eq_bit_0 b : (bit b === lit 0) = negb b.
Proof.
  unfold bit. rewrite lit_0. destruct b; rewrite ?lit_1, strict_eq_Fin.
  - apply Reqb_false. lra.
  - now apply Reqb_true.
Qed.

Lemma of_length_succ n : of_length n + lit 1 = (of_length (S n) : ideal).
Proof.
  rewrite lit_1, !of_length_Fin, Fin_add. f_equal.
  rewrite S_INR. reflexivity.
Qed.

Lemma of_length_add n m :
  of_length n + of_length m = (of_length (n + m) : ideal).
Proof.
  rewrite !of_length_Fin, Fin_add. f_equal. now rewrite plus_INR.
Qed.

Lemma count_pair_bits t p a b c d :
  count_pair (bit t) (bit p) (counted a b c d)
  = counted (a + tally true true [t] [p]) (b + tally false true [t] [p])
            (c + tally false false [t] [p]) (d + tally true false [t] [p]).
Proof.
  unfold count_pair.
  rewrite !strict_eq_bit_1, !strict_eq_bit_0.
  unfold counted. cbn [tp fp tn fn].
  destruct t, p; cbn [negb andb tally combine filter Bool.eqb length];
    rewrite ?of_length_succ, ?Nat.add_0_r, ?Nat.add_1_r; reflexivity.
Qed.

Lemma tally_cons x y t p ts ps :
  tally x y (t :: ts) (p :: ps) = (tally x y [t] [p] + tally x y ts ps)%nat.
Proof.
  unfold tally. cbn [combine filter].
  destruct (Bool.eqb t x && Bool.eqb p y); reflexivity.
Qed.

Lemma count_outcomes_tally ts ps :
  length ps = length ts ->
  count_outcomes (map bit ts) (map bit ps)
  = counted (tally true true ts ps) (tally false true ts ps)
            (tally false false ts ps) (tally true false ts ps).
Proof.
  intros Hlen.
  rewrite count_outcomes_pairs by now rewrite !length_map.
  replace {| tp := lit 0; fp := lit 0; tn := lit 0; fn := lit 0 |}
    with (counted 0 0 0 0)
    by (unfold counted; rewrite lit_0; reflexivity).
  enough (H : forall a b c d,
    fold_left (fun c0 '(t, p) => count_pair t p c0)
              (combine (map bit ts) (map bit ps)) (counted a b c d)
    = counted (a + tally true true ts ps) (b + tally false true ts ps)
              (c + tally false false ts ps) (d + tally true false ts ps))
    by exact (H 0%nat 0%nat 0%nat 0%nat).
  revert ps Hlen.
  induction ts as [|t ts IH]; intros [|p ps] Hlen a b c d;
    cbn [length] in Hlen; try discriminate.
  - cbn [map combine fold_left]. unfold tally. cbn [combine filter length].
    now rewrite !Nat.add_0_r.
  - cbn [map combine fold_left].
    rewrite count_pair_bits, IH by lia.
    rewrite !(tally_cons _ _ t p ts ps), !Nat.add_assoc. reflexivity.
Qed.

Lemma ratio_or_zero (x y : R) :
  (y = 0%R -> x = 0%R) ->
  (Fin x / Fin y ||| lit 0) = Fin (ratio x y).
Proof.
  intros Hzero. unfold or_else, ratio. rewrite lit_0.
  destruct (Req_dec_T y 0) as [Hy|Hy].
  - rewrite Hy, (Hzero Hy). unfold_ideal.
    unfold IdealOps.div, IdealOps.signed_inf.
    rewrite (Reqb_true (eq_refl 0%R)), !Rltb_false by lra. reflexivity.
  - rewrite Fin_div by exact Hy. unfold_ideal. unfold IdealOps.truthy.
    destruct (Req_dec_T (x / y) 0) as [H0|H0].
    + rewrite (Reqb_true H0). cbn [negb]. now rewrite H0.
    + now rewrite (Reqb_false H0).
Qed.

Lemma ratio_nonneg (x y : R) :
  (0 <= x)%R -> (0 <= y)%R -> (0 <= ratio x y)%R.
Proof.
  intros Hx Hy. unfold ratio. destruct (Req_dec_T y 0); [lra|].
  apply Rmult_le_pos; [exact Hx|].
  apply Rlt_le, Rinv_0_lt_compat. lra.
Qed.

Lemma calculateMetrics_exact ts ps :
  length ps = length ts ->
  calculateMetrics (map bit ts) (map bit ps) = spec_metrics ts ps.
Proof.
  intros Hlen. unfold calculateMetrics, spec_metrics.
  rewrite (count_outcomes_tally ts ps Hlen).
  cbv zeta. cbn [tp fp tn fn counted].
  set (TP := tally true true ts ps).
  set (FP := tally false true ts ps).
  set (TN := tally false false ts ps).
  set (FN := tally true false ts ps).
  rewrite !of_length_add.
  assert (Hp : (of_length TP / of_length (TP + FP) ||| lit 0)
               = Fin (ratio (INR TP) (INR (TP + FP)))).
  { rewrite !of_length_Fin. apply ratio_or_zero.
    rewrite plus_INR. pose proof (pos_INR TP). pose proof (pos_INR FP). lra. }
  assert (Hr : (of_length TP / of_length (TP + FN) ||| lit 0)
               = Fin (ratio (INR TP) (INR (TP + FN)))).
  { rewrite !of_length_Fin. apply ratio_or_zero.
    rewrite plus_INR. pose proof (pos_INR TP). pose proof (pos_INR FN). lra. }
  rewrite Hp, Hr.
  set (p := ratio (INR TP) (INR (TP + FP))).
  set (r := ratio (INR TP) (INR (TP + FN))).
  assert (Hp0 : (0 <= p)%R) by (apply ratio_nonneg; apply pos_INR).
  assert (Hr0 : (0 <= r)%R) by (apply ratio_nonneg; apply pos_INR).
  f_equal.
  rewrite lit_2, !Fin_mul, Fin_add. apply ratio_or_zero.
  intros Hsum. assert (Hp1 : p = 0%R) by lra. rewrite Hp1. lra.
Qed.

End MetricsExact.

Section MetricsTheorem.

Local Open Scope js_scope.

(** Closes an equation between finite numbers whose two sides are
    arithmetic on literals and lengths. *)
Ltac fin_arith :=
  rewrite ?lit_Fin, ?of_length_Fin;
  unfold ratio, Q2R; cbn [INR Qnum Qden Init.Nat.add];
  repeat match goal with
         | |- context [Req_dec_T ?a ?b] => destruct (Req_dec_T a b)
         | H : context [Req_dec_T ?a ?b] |- _ => destruct (Req_dec_T a b)
         end;
  rewrite ?Fin_div by lra;
  solve [f_equal; first [lra | field; lra]].

(** C3. In exact arithmetic, on labels and predictions in {0, 1} of one
    length, with TP, FP, TN, FN the numbers of positions of each outcome:
    accuracy is [(TP + TN) / (TP + FP + TN + FN)], precision
    [TP / (TP + FP)], recall [TP / (TP + FN)] and F1
    [2 * precision * recall / (precision + recall)], each of the last three
    0 when its denominator is 0, and the confusion matrix is
    [[TN, FP], [FN, TP]].  On labels [1,1,1] and predictions [1,1,1] this
    is 1, 1, 1, 1 and [[0,0],[0,3]]; on labels [0,0] and predictions
    [1,1] it is 0, 0, 0, 0 and [[0,2],[0,0]].  The evaluator is a total
    function: it throws on no input. *)
Theorem calculateMetrics_spec :
  (forall ts ps : list bool,
      length ps = length ts ->
      calculateMetrics (map bit ts) (map bit ps) = spec_metrics ts ps)
  /\ calculateMetrics [lit 1; lit 1; lit 1] [lit 1; lit 1; lit 1]
     = {| accuracy := lit 1;
          precision := lit 1;
          recall := lit 1;
          f1Score := lit 1;
          confusionMatrix := [[lit 0; lit 0]; [lit 0; lit 3]] |}
  /\ calculateMetrics [lit 0; lit 0] [lit 1; lit 1]
     = {| accuracy := lit 0;
          precision := lit 0;
          recall := lit 0;
          f1Score := lit 0;
          confusionMatrix := [[lit 0; lit 2]; [lit 0; lit 0]] |}.
Proof.
  split; [exact calculateMetrics_exact|]. split.
  - transitivity (spec_metrics [true; true; true] [true; true; true]);
      [exact (calculateMetrics_exact [true; true; true]
                                     [true; true; true] eq_refl)|].
    unfold spec_metrics. cbv zeta.
    cbn [tally combine filter Bool.eqb andb length Init.Nat.add].
    f_equal; [fin_arith..|].
    repeat (f_equal; try fin_arith).
  - transitivity (spec_metrics [false; false] [true; true]);
      [exact (calculateMetrics_exact [false; false] [true; true] eq_refl)|].
    unfold spec_metrics. cbv zeta.
    cbn [tally combine filter Bool.eqb andb length Init.Nat.add].
    f_equal; [fin_arith..|].
    repeat (f_equal; try fin_arith).
Qed.

(** Labels [1,0,1,0,1] against predictions [1,0,0,1,1]. *)
Lemma calculateMetrics_spec_witness :
  calculateMetrics [lit 1; lit 0; lit 1; lit 0; lit 1]
                   [lit 1; lit 0; lit 0; lit 1; lit 1]
  = {| accuracy := lit 0.6;
       precision := Fin (2 / 3);
       recall := Fin (2 / 3);
       f1Score := Fin (2 / 3);
       confusionMatrix := [[lit 1; lit 1]; [lit 1; lit 2]] |}.
Proof.
  transitivity (spec_metrics [true; false; true; false; true]
                             [true; false; false; true; true]);
    [exact (proj1 calculateMetrics_spec
                  [true; false; true; false; true]
                  [true; false; false; true; true] eq_refl)|].
  unfold spec_metrics. cbv zeta.
  cbn [tally combine filter Bool.eqb andb length Init.Nat.add].
  f_equal; [fin_arith..|].
  repeat (f_equal; try fin_arith).
Defined.

(** The two examples as an engine computes them, in binary64. *)
Lemma calculateMetrics_binary64 :
  calculateMetrics [1; 1; 1]%float [1; 1; 1]%float
  = {| accuracy := 1; precision := 1; recall := 1; f1Score := 1;
       confusionMatrix := [[0; 0]; [0; 3]] |}%float
  /\ calculateMetrics [0; 0]%float [1; 1]%float
     = {| accuracy := 0; precision := 0; recall := 0; f1Score := 0;
          confusionMatrix := [[0; 2]; [0; 0]] |}%float.
Proof. split; vm_compute; reflexivity. Qed.

End MetricsTheorem.

(** * C8: the trainer's sigmoid *)

Section Sigmoid.

Local Open Scope js_scope.

Lemma logistic_bounds x : (0 < logistic x < 1)%R.
Proof.
  unfold logistic. pose proof (exp_pos (- x)) as He.
  split.
  - apply Rdiv_lt_0_compat; lra.
  - apply (Rmult_lt_reg_r (1 + Rtrigo_def.exp (- x))); [lra|].
    field_simplify; lra.
Qed.

Lemma sigmoid_unclamped_Fin x :
  sigmoid_unclamped (Fin x) = Fin (logistic x).
Proof.
  unfold sigmoid_unclamped, logistic.
  rewrite lit_1, Fin_neg, Fin_exp, Fin_add.
  apply Fin_div. pose proof (exp_pos (- x)). lra.
Qed.

Lemma lit_250 : lit 250 = Fin 250.
Proof. exact (lit_Z 250). Qed.

Lemma sigmoid_Fin x : sigmoid (Fin x) = Fin (logistic (clamp250 x)).
Proof.
  unfold sigmoid. rewrite lit_250, Fin_neg, Fin_min, Fin_max.
  exact (sigmoid_unclamped_Fin (clamp250 x)).
Qed.

Lemma clamp250_inside x : (- 250 <= x <= 250)%R -> clamp250 x = x.
Proof.
  intros [Hlo Hhi]. unfold clamp250.
  rewrite (Rmin_right 250 x Hhi). now apply Rmax_right.
Qed.

Lemma sigmoid_PInf : sigmoid IPInf = Fin (logistic 250).
Proof.
  unfold sigmoid. rewrite lit_250.
  change (Math_min (Fin 250) IPInf) with (Fin 250).
  rewrite Fin_neg, Fin_max, Rmax_right by lra.
  exact (sigmoid_unclamped_Fin 250).
Qed.

Lemma sigmoid_NInf : sigmoid INInf = Fin (logistic (- 250)).
Proof.
  unfold sigmoid. rewrite lit_250.
  change (Math_min (Fin 250) INInf) with INInf.
  rewrite Fin_neg.
  change (Math_max (Fin (- 250)) INInf) with (Fin (- 250)).
  exact (sigmoid_unclamped_Fin (- 250)).
Qed.

(** C8. In exact arithmetic the trainer's sigmoid is [1 / (1 + exp(-z))]
    at [z] clamped to [-250, 250].  For [z] inside [-250, 250] it is the
    unclamped sigmoid; for every [z] that is a number (a real or an
    infinity) it is a finite number of [0, 1]. *)
Theorem sigmoid_clamped_and_bounded :
  (forall x : R,
      sigmoid (Fin x)
      = Fin (1 / (1 + Rtrigo_def.exp (- Rmax (- 250) (Rmin 250 x)))))
  /\ (forall x : R,
        (- 250 <= x <= 250)%R ->
        sigmoid (Fin x) = sigmoid_unclamped (Fin x))
  /\ (forall z : ideal,
        isNaN z = false ->
        exists p : R, sigmoid z = Fin p /\ (0 <= p <= 1)%R).
Proof.
  split; [exact sigmoid_Fin|]. split.
  - intros x Hx.
    now rewrite sigmoid_Fin, sigmoid_unclamped_Fin, clamp250_inside.
  - intros z Hz.
    assert (Hfin : exists c, sigmoid z = Fin (logistic c)).
    { destruct z as [| | |x]; [discriminate Hz| | |].
      - exists 250%R. exact sigmoid_PInf.
      - exists (- 250)%R. exact sigmoid_NInf.
      - exists (clamp250 x). apply sigmoid_Fin. }
    destruct Hfin as [c ->]. exists (logistic c).
    split; [reflexivity|]. pose proof (logistic_bounds c). lra.
Qed.

Lemma sigmoid_clamped_and_bounded_witness :
  sigmoid (Fin 0) = sigmoid_unclamped (Fin 0)
  /\ (exists p : R, sigmoid IPInf = Fin p /\ (0 <= p <= 1)%R).
Proof.
  destruct sigmoid_clamped_and_bounded as (_ & Hin & Hall).
  split.
  - apply Hin. lra.
  - apply Hall. reflexivity.
Defined.

End Sigmoid.

(** * C9, C10: the static scorer *)

Section StaticScorer.

Import Pretrained.
Local Open Scope js_scope.

(** ** Finite operands *)

Lemma or_else_Fin a (d : ideal) : a <> 0%R -> (Fin a ||| d) = Fin a.
Proof.
  intros Ha. unfold or_else. unfold_ideal. unfold IdealOps.truthy.
  now rewrite (Reqb_false Ha).
Qed.

Lemma or_else_zero a (d : ideal) : a = 0%R -> (Fin a ||| d) = d.
Proof.
  intros Ha. unfold or_else. unfold_ideal. unfold IdealOps.truthy.
  now rewrite (Reqb_true Ha).
Qed.

Lemma or_else_NaN (d : ideal) : (INaN ||| d) = d.
Proof. reflexivity. Qed.

Lemma gt_Fin a b : (Fin a > Fin b) = IdealOps.Rltb b a.
Proof. reflexivity. Qed.

Lemma ge_Fin a b :
  (Fin a >= Fin b) = IdealOps.Rltb b a || IdealOps.Reqb a b.
Proof. reflexivity. Qed.

Lemma ge_Fin_true a b : (b <= a)%R -> (Fin a >= Fin b) = true.
Proof.
  intros H. rewrite ge_Fin. destruct (Req_dec_T a b) as [Heq|Hne].
  - rewrite (Reqb_true Heq). apply orb_true_r.
  - rewrite Rltb_true by lra. reflexivity.
Qed.

Lemma ge_Fin_false a b : (a < b)%R -> (Fin a >= Fin b) = false.
Proof.
  intros H. rewrite ge_Fin, Rltb_false, Reqb_false by lra. reflexivity.
Qed.

(** The value of a decimal literal. *)
Ltac literals :=
  rewrite ?lit_Fin; unfold Q2R; cbn [Qnum Qden].

(** ** The scorer's sigmoid *)

Lemma lit_500 : lit 500 = Fin 500.
Proof. exact (lit_Z 500). Qed.

Lemma scorer_sigmoid_Fin x :
  Pretrained.sigmoid (Fin x) = Fin (logistic (clamp500 x)).
Proof.
  unfold Pretrained.sigmoid. cbv zeta.
  rewrite lit_500, Fin_neg, Fin_min, Fin_max.
  exact (sigmoid_unclamped_Fin (clamp500 x)).
Qed.

Lemma logistic_negative x : (x < 0)%R -> (logistic x < 1 / 2)%R.
Proof.
  intros Hx. unfold logistic.
  pose proof (exp_ineq1 (- x) ltac:(lra)) as He.
  apply (Rmult_lt_reg_r (1 + Rtrigo_def.exp (- x))); [lra|].
  field_simplify; lra.
Qed.

(** ** The documented neutral input *)

Lemma cleanInput_neutral : cleanInput neutral = neutral.
Proof.
  unfold cleanInput, neutral.
  cbn [pregnancies glucose bloodpressure skinthickness insulin bmi
       diabetespedigreefunction age].
  literals.
  rewrite !or_else_Fin by lra. rewrite !Fin_max.
  repeat (f_equal; try (apply Rmax_right; lra)).
Qed.

(** Evaluates arithmetic on finite operands, the divisors and the
    comparisons being settled by [lra]. *)
Ltac finite_arith :=
  repeat first
    [ rewrite strict_eq_Fin
    | rewrite gt_Fin
    | rewrite Reqb_false by lra
    | rewrite Reqb_true by lra
    | rewrite Rltb_true by lra
    | rewrite Rltb_false by lra
    | rewrite Fin_neg
    | rewrite Fin_sub
    | rewrite Fin_mul
    | rewrite Fin_add
    | rewrite Fin_div by lra ].

Lemma linear_score_neutral :
  exists z : R,
    linear_score (engineerFeatures neutral) = Fin z
    /\ (- 5 < z < - 4.9)%R.
Proof.
  unfold linear_score, engineerFeatures, normalizeValue,
    normalizationParams, modelWeights, neutral.
  cbv zeta.
  cbn [input glucoseBMI agePregnancies insulinGlucose fst snd mean std
       pregnancies glucose bloodpressure skinthickness insulin bmi
       diabetespedigreefunction age].
  literals. finite_arith.
  eexists. split; [reflexivity|]. lra.
Qed.

Lemma clamp500_inside x : (- 500 <= x <= 500)%R -> clamp500 x = x.
Proof.
  intros [Hlo Hhi]. unfold clamp500.
  rewrite (Rmin_right 500 x Hhi). now apply Rmax_right.
Qed.

(** C9. In exact arithmetic, on the input [{pregnancies: 1, glucose: 120,
    bloodpressure: 80, skinthickness: 20, insulin: 80, bmi: 25,
    diabetespedigreefunction: 0.5, age: 30}] the static scorer returns a
    probability strictly below 0.5, the prediction 0 and the risk [low];
    the three interaction terms it adds are
    [(glucose / 100) * (bmi / 30)], [(age / 30) * (pregnancies / 5)] and
    [(insulin / 100) * (glucose / 100)]. *)
Theorem neutral_input_scores_low :
  let r := predictDiabetes neutral in
  let e := engineerFeatures (cleanInput neutral) in
  (exists p : R, probability r = Fin p /\ (0 < p < 1 / 2)%R)
  /\ prediction r = lit 0
  /\ risk r = low
  /\ glucoseBMI e = Fin (120 / 100 * (25 / 30))
  /\ agePregnancies e = Fin (30 / 30 * (1 / 5))
  /\ insulinGlucose e = Fin (80 / 100 * (120 / 100)).
Proof.
  intros r e. subst r e. rewrite cleanInput_neutral.
  destruct linear_score_neutral as (z & Hz & Hrange).
  unfold predictDiabetes. rewrite cleanInput_neutral. cbv zeta.
  cbn [probability prediction risk]. rewrite Hz, scorer_sigmoid_Fin.
  rewrite clamp500_inside by lra.
  pose proof (logistic_bounds z) as Hb.
  pose proof (logistic_negative (x := z) ltac:(lra)) as Hhalf.
  assert (Hge : (Fin (logistic z) >= lit 0.5) = false).
  { literals. apply ge_Fin_false. lra. }
  rewrite Hge.
  assert (Hne : (lit 0 === lit 1) = false).
  { literals. finite_arith. reflexivity. }
  rewrite Hne.
  split; [exists (logistic z); split; [reflexivity|lra]|].
  split; [reflexivity|]. split; [reflexivity|].
  unfold engineerFeatures, neutral.
  cbn [glucoseBMI agePregnancies insulinGlucose
       pregnancies glucose insulin bmi age].
  literals. finite_arith.
  repeat split; f_equal; lra.
Qed.

(** ** Defaults of [cleanedInput] *)

Lemma missing_default (v : ideal) lo d :
  missing v -> (Q2R lo <= Q2R d)%R ->
  Math_max (lit lo) (v ||| lit d) = lit d.
Proof.
  intros [-> | ->] Hle.
  - rewrite lit_0, or_else_zero by reflexivity.
    rewrite !lit_Fin, Fin_max. f_equal. now apply Rmax_right.
  - change (@NaN ideal Ideal) with INaN. rewrite or_else_NaN.
    rewrite !lit_Fin, Fin_max. f_equal. now apply Rmax_right.
Qed.

Lemma floored (v : ideal) lo d :
  (Q2R lo <= Q2R d)%R ->
  (Math_max (lit lo) (v ||| lit d) >= lit lo) = true.
Proof.
  intros Hle. rewrite !lit_Fin.
  assert (Hdefault :
    (Math_max (Fin (Q2R lo)) (Fin (Q2R d)) >= Fin (Q2R lo)) = true).
  { rewrite Fin_max. apply ge_Fin_true. apply Rmax_l. }
  destruct v as [| | |x].
  - exact Hdefault.
  - reflexivity.
  - change (INInf ||| Fin (Q2R d)) with INInf.
    change (Math_max (Fin (Q2R lo)) INInf) with (Fin (Q2R lo)).
    apply ge_Fin_true. lra.
  - destruct (Req_dec_T x 0) as [Hx|Hx].
    + rewrite or_else_zero by exact Hx. exact Hdefault.
    + rewrite or_else_Fin by exact Hx. rewrite Fin_max.
      apply ge_Fin_true. apply Rmax_l.
Qed.

Ltac decimal_le := unfold Q2R; cbn [Qnum Qden]; lra.

(** C10. The static scorer is a total function of its eight numbers.  A
    field that is 0 or [NaN] is replaced before scoring: glucose by 100,
    blood pressure by 70, skin thickness by 20, insulin by 80, BMI by 25,
    the pedigree function by 0.5, age by 30; whatever the input, the
    cleaned BMI is at least 10 and the cleaned age at least 18; and the
    result with glucose 0 is the result with glucose 100. *)
Theorem zero_or_NaN_is_missing :
  forall input : Input ideal,
    (missing (glucose input) -> glucose (cleanInput input) = lit 100)
    /\ (missing (bloodpressure input) ->
        bloodpressure (cleanInput input) = lit 70)
    /\ (missing (skinthickness input) ->
        skinthickness (cleanInput input) = lit 20)
    /\ (missing (insulin input) -> insulin (cleanInput input) = lit 80)
    /\ (missing (bmi input) -> bmi (cleanInput input) = lit 25)
    /\ (missing (diabetespedigreefunction input) ->
        diabetespedigreefunction (cleanInput input) = lit 0.5)
    /\ (missing (age input) -> age (cleanInput input) = lit 30)
    /\ (bmi (cleanInput input) >= lit 10) = true
    /\ (age (cleanInput input) >= lit 18) = true
    /\ predictDiabetes (with_glucose input (lit 0))
       = predictDiabetes (with_glucose input (lit 100)).
Proof.
  intros input. unfold cleanInput.
  cbn [glucose bloodpressure skinthickness insulin bmi
       diabetespedigreefunction age].
  repeat split;
    try (intros Hmissing; apply missing_default;
         [exact Hmissing|decimal_le]);
    try (apply floored; decimal_le).
  unfold predictDiabetes.
  assert (Hclean : cleanInput (with_glucose input (lit 0))
                   = cleanInput (with_glucose input (lit 100))).
  { unfold cleanInput, with_glucose.
    cbn [pregnancies glucose bloodpressure skinthickness insulin bmi
         diabetespedigreefunction age].
    f_equal. f_equal.
    rewrite !lit_Fin, or_else_zero, or_else_Fin by decimal_le.
    reflexivity. }
  now rewrite Hclean.
Qed.

Lemma zero_or_NaN_is_missing_witness :
  glucose (cleanInput (with_glucose neutral (lit 0))) = lit 100
  /\ glucose (cleanInput (with_glucose neutral NaN)) = lit 100.
Proof.
  split.
  - apply (proj1 (zero_or_NaN_is_missing (with_glucose neutral (lit 0)))).
    left. reflexivity.
  - apply (proj1 (zero_or_NaN_is_missing (with_glucose neutral NaN))).
    right. reflexivity.
Defined.

End StaticScorer.

(** * C7: the normalizer *)

Section NormalizerFacts.

Context {number : Type} {N : Number number}.
Local Open Scope js_scope.

Lemma fill_loop (value : nat -> number) k :
  for_loop k (fun i a => set a i (value i)) (Array_fill k (lit 0))
  = map value (seq 0 k).
Proof.
  rewrite (for_loop_set (fun _ i => value i))
    by (symmetry; apply repeat_length).
  unfold mapi, Array_fill. apply mapi_from_repeat.
Qed.

Lemma compute_means_columns k (X : list (list number)) :
  compute_means k X = map (column_mean X) (seq 0 k).
Proof. exact (fill_loop (column_mean X) k). Qed.

Lemma compute_stds_columns k (X : list (list number)) means :
  compute_stds k X means = map (column_std X means) (seq 0 k).
Proof. exact (fill_loop (column_std X means) k). Qed.

Lemma get_compute_means k (X : list (list number)) i :
  (i < k)%nat -> get (compute_means k X) i = column_mean X i.
Proof.
  intros Hi. rewrite compute_means_columns. unfold get.
  now apply nth_map_seq.
Qed.

Lemma get_compute_stds k (X : list (list number)) means i :
  (i < k)%nat -> get (compute_stds k X means) i = column_std X means i.
Proof.
  intros Hi. rewrite compute_stds_columns. unfold get.
  now apply nth_map_seq.
Qed.

End NormalizerFacts.

(** ** Mean and population standard deviation on the reals *)

Section ColumnStatistics.

Local Open Scope R_scope.

Lemma fold_left_Rsum {A : Type} (f : A -> R) l s :
  fold_left (fun s a => s + f a) l s = s + Rsum (map f l).
Proof.
  revert s. induction l as [|a l IH]; intros s; cbn [fold_left map Rsum fold_right].
  - lra.
  - rewrite IH. unfold Rsum. lra.
Qed.

Lemma Rsum_all (c : list R) a :
  (forall x, In x c -> x = a) -> Rsum c = INR (length c) * a.
Proof.
  induction c as [|x c IH]; intros H.
  - cbn. lra.
  - cbn [Rsum fold_right length]. rewrite S_INR.
    fold (Rsum c). rewrite IH by (intros y Hy; apply H; now right).
    rewrite (H x) by now left. lra.
Qed.

Lemma Rsum_nonneg (l : list R) : (forall t, In t l -> 0 <= t) -> 0 <= Rsum l.
Proof.
  induction l as [|t l IH]; intros H; cbn [Rsum fold_right]; [lra|].
  fold (Rsum l).
  pose proof (H t (or_introl eq_refl)).
  pose proof (IH (fun u Hu => H u (or_intror Hu))). lra.
Qed.

Lemma Rsum_zero (l : list R) :
  (forall t, In t l -> 0 <= t) -> Rsum l = 0 -> forall t, In t l -> t = 0.
Proof.
  induction l as [|u l IH]; intros Hpos Hsum t Hin; [contradiction|].
  cbn [Rsum fold_right] in Hsum. fold (Rsum l) in Hsum.
  pose proof (Hpos u (or_introl eq_refl)) as Hu.
  pose proof (Rsum_nonneg l (fun v Hv => Hpos v (or_intror Hv))) as Hl.
  destruct Hin as [<-|Hin]; [lra|].
  apply IH; [intros v Hv; apply Hpos; now right|lra|exact Hin].
Qed.

Lemma INR_length_pos {A : Type} (c : list A) : c <> [] -> 0 < INR (length c).
Proof.
  destruct c as [|x c]; [congruence|]. intros _. apply lt_0_INR.
  cbn [length]. lia.
Qed.

Lemma variance_nonneg (c : list R) : c <> [] -> 0 <= population_variance c.
Proof.
  intros Hc. unfold population_variance.
  apply Rmult_le_pos.
  - apply Rsum_nonneg. intros t Ht. apply in_map_iff in Ht.
    destruct Ht as (x & <- & _). apply pow2_ge_0.
  - apply Rlt_le, Rinv_0_lt_compat, INR_length_pos, Hc.
Qed.

Lemma constant_mean (c : list R) a :
  c <> [] -> (forall x, In x c -> x = a) -> population_mean c = a.
Proof.
  intros Hc Ha. unfold population_mean. rewrite (Rsum_all c Ha).
  pose proof (INR_length_pos Hc). field. lra.
Qed.

Lemma constant_variance (c : list R) :
  c <> [] -> constant c -> population_variance c = 0.
Proof.
  intros Hc Hconst. destruct c as [|a c]; [congruence|].
  assert (Ha : forall x, In x (a :: c) -> x = a)
    by (intros x Hx; apply Hconst; [exact Hx|now left]).
  unfold population_variance.
  rewrite (constant_mean Hc Ha).
  rewrite (Rsum_all (map (fun x => (x - a) ^ 2) (a :: c)) (a := 0)).
  - unfold Rdiv. ring.
  - intros t Ht. apply in_map_iff in Ht. destruct Ht as (x & <- & Hx).
    rewrite (Ha x Hx). ring.
Qed.

Lemma varying_variance (c : list R) :
  c <> [] -> ~ constant c -> 0 < population_variance c.
Proof.
  intros Hc Hvary.
  pose proof (variance_nonneg Hc) as Hge.
  destruct (Req_dec_T (population_variance c) 0) as [Hzero|Hne]; [|lra].
  exfalso. apply Hvary.
  assert (Hall : forall x, In x c -> x = population_mean c).
  { intros x Hx.
    assert (Hsq : (x - population_mean c) ^ 2 = 0).
    { apply (Rsum_zero (map (fun x => (x - population_mean c) ^ 2) c)).
      - intros t Ht. apply in_map_iff in Ht.
        destruct Ht as (u & <- & _). apply pow2_ge_0.
      - unfold population_variance in Hzero.
        pose proof (INR_length_pos Hc) as Hn.
        apply (Rmult_eq_reg_r (/ INR (length c)));
          [|apply Rinv_neq_0_compat; lra].
        unfold Rdiv in Hzero. rewrite Hzero. ring.
      - apply in_map_iff. now exists x. }
    nra. }
  intros x y Hx Hy. now rewrite (Hall x Hx), (Hall y Hy).
Qed.

Lemma Rsum_shift_scale (c : list R) a b :
  b <> 0 ->
  Rsum (map (fun x => (x - a) / b) c) = (Rsum c - INR (length c) * a) / b.
Proof.
  intros Hb. induction c as [|x c IH].
  - cbn. field. exact Hb.
  - cbn [map Rsum fold_right length]. rewrite S_INR.
    fold (Rsum (map (fun x => (x - a) / b) c)). fold (Rsum c).
    rewrite IH. field. exact Hb.
Qed.

Lemma Rsum_squares_scaled (c : list R) a b :
  b <> 0 ->
  Rsum (map (fun y => (y - 0) ^ 2) (map (fun x => (x - a) / b) c))
  = Rsum (map (fun x => (x - a) ^ 2) c) / (b * b).
Proof.
  intros Hb. induction c as [|x c IH].
  - cbn. field. exact Hb.
  - cbn [map Rsum fold_right].
    fold (Rsum (map (fun y => (y - 0) ^ 2) (map (fun x => (x - a) / b) c))).
    fold (Rsum (map (fun x => (x - a) ^ 2) c)).
    rewrite IH. field. exact Hb.
Qed.

(** The z-scores of a column that varies have mean 0 and population
    standard deviation 1. *)
Lemma standardized (c : list R) :
  c <> [] -> ~ constant c ->
  let z := map (fun x => (x - population_mean c) / stored_std c) c in
  stored_std c = R_sqrt.sqrt (population_variance c)
  /\ 0 < stored_std c
  /\ population_mean z = 0
  /\ population_variance z = 1
  /\ stored_std z = 1.
Proof.
  intros Hc Hvary z.
  pose proof (varying_variance Hc Hvary) as Hvar.
  pose proof (sqrt_lt_R0 _ Hvar) as Hsqrt.
  pose proof (INR_length_pos Hc) as Hn.
  assert (Hstd : stored_std c = R_sqrt.sqrt (population_variance c)).
  { unfold stored_std. destruct (Req_dec_T _ 0); [lra|reflexivity]. }
  assert (Hlen : length z = length c) by apply length_map.
  assert (Hmean : population_mean z = 0).
  { unfold population_mean at 1. rewrite Hlen. unfold z.
    rewrite Rsum_shift_scale by lra.
    unfold population_mean. field. lra. }
  assert (Hvarz : population_variance z = 1).
  { unfold population_variance at 1. rewrite Hmean, Hlen. unfold z.
    rewrite Rsum_squares_scaled by lra.
    rewrite Hstd, sqrt_sqrt by lra.
    unfold population_variance. field. split; [lra|].
    unfold population_variance in Hvar.
    intros H0. rewrite H0 in Hvar. unfold Rdiv in Hvar. lra. }
  repeat split; try assumption; try lra.
  unfold stored_std. rewrite Hvarz, sqrt_1.
  destruct (Req_dec_T 1 0); [lra|reflexivity].
Qed.

End ColumnStatistics.

(** ** The normalizer in exact arithmetic *)

Section NormalizerExact.

Local Open Scope js_scope.

Lemma get_Fin (row : list R) i :
  (i < length row)%nat -> get (map Fin row) i = Fin (nth i row 0%R).
Proof. intros Hi. unfold get. now apply nth_map_in. Qed.

Lemma column_length i M : length (column i M) = length M.
Proof. apply length_map. Qed.

Lemma column_nonempty i M : M <> [] -> column i M <> [].
Proof. destruct M; [congruence|discriminate]. Qed.

Lemma Math_pow2_Fin a : Math_pow2 (Fin a) = Fin (a ^ 2).
Proof. unfold Math_pow2. rewrite Fin_mul. f_equal. ring. Qed.

Lemma column_fold (f : R -> R) (g : ideal -> ideal) i :
  (forall x, g (Fin x) = Fin (f x)) ->
  forall M s,
    Forall (fun row => (i < length row)%nat) M ->
    fold_left (fun sum row => sum + g (get row i)) (finite M) (Fin s)
    = Fin (s + Rsum (map f (column i M))).
Proof.
  intros Hg M. induction M as [|row M IH]; intros s Hrows.
  - cbn. f_equal. lra.
  - inversion Hrows as [|? ? Hrow Hrest]; subst.
    cbn [finite map fold_left column Rsum fold_right].
    rewrite (get_Fin row Hrow), Hg, Fin_add.
    fold (finite M). rewrite (IH _ Hrest).
    f_equal. unfold Rsum, column. lra.
Qed.

Lemma column_mean_exact M i :
  M <> [] ->
  Forall (fun row => (i < length row)%nat) M ->
  column_mean (finite M) i = Fin (population_mean (column i M)).
Proof.
  intros HM Hrows. unfold column_mean, reduce.
  rewrite (reduce_from_fold (fun sum row => sum + get row i)).
  rewrite lit_0.
  rewrite (column_fold (fun x => x) (fun v => v) (i := i)
                       (fun x => eq_refl) 0%R Hrows).
  rewrite map_id, of_length_Fin.
  unfold finite. rewrite length_map.
  pose proof (INR_length_pos HM) as Hn.
  rewrite Fin_div by lra. f_equal.
  unfold population_mean. rewrite column_length. lra.
Qed.

Lemma Math_sqrt_Fin v :
  (0 <= v)%R -> Math_sqrt (Fin v) = Fin (R_sqrt.sqrt v).
Proof.
  intros Hv. unfold_ideal. unfold IdealOps.sqrt.
  now rewrite Rltb_false.
Qed.

Lemma column_std_exact M means i :
  M <> [] ->
  Forall (fun row => (i < length row)%nat) M ->
  get means i = Fin (population_mean (column i M)) ->
  column_std (finite M) means i = Fin (stored_std (column i M)).
Proof.
  intros HM Hrows Hmean. unfold column_std, reduce.
  rewrite (reduce_from_fold
             (fun sum row => sum + Math_pow2 (get row i - get means i))).
  rewrite lit_0, Hmean.
  rewrite (column_fold
             (fun x => ((x - population_mean (column i M)) ^ 2)%R)
             (fun v => Math_pow2 (v - Fin (population_mean (column i M))))
             (i := i)
             (fun x => eq_trans (f_equal Math_pow2 (Fin_sub x _))
                                (Math_pow2_Fin _))
             0%R Hrows).
  rewrite of_length_Fin. unfold finite. rewrite length_map.
  pose proof (INR_length_pos HM) as Hn.
  rewrite Fin_div by lra.
  replace ((0 + Rsum (map (fun x => ((x - population_mean (column i M)) ^ 2)%R)
                          (column i M))) / INR (length M))%R
    with (population_variance (column i M))
    by (unfold population_variance; rewrite column_length; lra).
  rewrite Math_sqrt_Fin
    by (apply variance_nonneg, column_nonempty, HM).
  unfold stored_std.
  destruct (Req_dec_T (R_sqrt.sqrt (population_variance (column i M))) 0)
    as [H0|H0].
  - rewrite or_else_zero by exact H0. apply lit_1.
  - now rewrite or_else_Fin.
Qed.

Lemma stored_std_neq_0 c : c <> [] -> stored_std c <> 0%R.
Proof.
  intros Hc. unfold stored_std. destruct (Req_dec_T _ 0); [lra|assumption].
Qed.

Lemma nth_mapi_from {A : Type} (f : A -> nat -> A) d :
  forall row idx i,
    (i < length row)%nat ->
    nth i (mapi_from f idx row) d = f (nth i row d) (idx + i)%nat.
Proof.
  induction row as [|x row IH]; intros idx i Hi; cbn [length] in Hi;
    [lia|].
  destruct i as [|i]; cbn [mapi_from nth].
  - now rewrite Nat.add_0_r.
  - rewrite IH by lia. f_equal. lia.
Qed.

Lemma mapi_from_Fin (F : ideal -> nat -> ideal) (f : R -> nat -> R) k :
  (forall x i, (i < k)%nat -> F (Fin x) i = Fin (f x i)) ->
  forall row idx,
    (idx + length row <= k)%nat ->
    mapi_from F idx (map Fin row) = map Fin (mapi_from f idx row).
Proof.
  intros HF. induction row as [|x row IH]; intros idx Hk;
    cbn [length] in Hk; cbn [map mapi_from]; [reflexivity|].
  rewrite HF by lia. f_equal. apply IH. lia.
Qed.

Section OneMatrix.

Variable M : list (list R).
Variable k : nat.
Hypothesis M_nonempty : M <> [].
Hypothesis M_rows : Forall (fun row => length row = k) M.

Let X := finite M.
Let means := compute_means k X.
Let stds := compute_stds k X means.

Lemma rows_reach i :
  (i < k)%nat -> Forall (fun row => (i < length row)%nat) M.
Proof.
  intros Hi. eapply Forall_impl; [|exact M_rows].
  cbn beta. intros row Hrow. lia.
Qed.

Lemma means_exact i :
  (i < k)%nat -> get means i = Fin (population_mean (column i M)).
Proof.
  intros Hi. unfold means. rewrite get_compute_means by exact Hi.
  apply column_mean_exact; [exact M_nonempty|now apply rows_reach].
Qed.

Lemma stds_exact i :
  (i < k)%nat -> get stds i = Fin (stored_std (column i M)).
Proof.
  intros Hi. unfold stds. rewrite get_compute_stds by exact Hi.
  apply column_std_exact;
    [exact M_nonempty|now apply rows_reach|now apply means_exact].
Qed.

Lemma normalize_row_exact row :
  length row = k ->
  normalize_row means stds (map Fin row)
  = map Fin
      (mapi (fun x i =>
               ((x - population_mean (column i M))
                / stored_std (column i M))%R)
            row).
Proof.
  intros Hrow. unfold normalize_row, mapi.
  apply (@mapi_from_Fin _ _ k); [|cbn [Nat.add]; lia].
  intros x i Hi.
  rewrite (stds_exact Hi), (means_exact Hi), lit_0, strict_eq_Fin.
  pose proof (stored_std_neq_0 (column_nonempty i M_nonempty)) as Hsd.
  rewrite (Reqb_false Hsd), Fin_sub, Fin_div by exact Hsd.
  reflexivity.
Qed.

Lemma normalized_exact :
  map (normalize_row means stds) X = finite (z_scores M).
Proof.
  unfold X, finite, z_scores. rewrite !map_map.
  apply map_ext_in. intros row Hrow.
  apply normalize_row_exact.
  rewrite Forall_forall in M_rows. now apply M_rows.
Qed.

Lemma z_scores_rows : Forall (fun row => length row = k) (z_scores M).
Proof.
  unfold z_scores. apply Forall_forall. intros r Hr.
  apply in_map_iff in Hr. destruct Hr as (row & <- & Hrow).
  rewrite mapi_length.
  rewrite Forall_forall in M_rows. now apply M_rows.
Qed.

Lemma z_scores_column i :
  (i < k)%nat ->
  column i (z_scores M)
  = map (fun x => ((x - population_mean (column i M))
                   / stored_std (column i M))%R)
        (column i M).
Proof.
  intros Hi. unfold column, z_scores. rewrite !map_map.
  apply map_ext_in. intros row Hrow.
  unfold mapi. rewrite nth_mapi_from; [reflexivity|].
  rewrite Forall_forall in M_rows. rewrite (M_rows row Hrow). exact Hi.
Qed.

End OneMatrix.

End NormalizerExact.

Section NormalizerTheorem.

Local Open Scope js_scope.

Lemma normalized_column (M : list (list R)) (k i : nat) :
  M <> [] ->
  Forall (fun row => length row = k) M ->
  (i < k)%nat ->
  let X := finite M in
  let means := compute_means k X in
  let stds := compute_stds k X means in
  map (fun row => get row i) (map (normalize_row means stds) X)
  = map Fin
        (map (fun x => ((x - population_mean (column i M))
                        / stored_std (column i M))%R)
             (column i M)).
Proof.
  intros HM Hrows Hi X means stds.
  pose proof (normalized_exact HM Hrows) as Hnorm. cbv zeta in Hnorm.
  unfold stds, means, X. rewrite Hnorm.
  rewrite <- (z_scores_column Hrows Hi).
  unfold finite, column. rewrite !map_map.
  apply map_ext_in. intros row Hrow.
  apply get_Fin.
  pose proof (z_scores_rows Hrows) as Hz.
  rewrite Forall_forall in Hz. rewrite (Hz row Hrow). exact Hi.
Qed.

(** C7, in exact arithmetic and on finite values.  For a matrix of [n >= 1]
    rows of [k] finite numbers and each column [i < k]: the mean stored is
    the arithmetic mean; the standard deviation stored is the population
    one (denominator [n]), with 1 in place of 0; a constant column
    normalizes to 0 in every row; and a column that varies normalizes to
    the values [(x - mu) / sigma], whose arithmetic mean is 0 and whose
    population standard deviation is 1, which is also what the normalizer
    computes of them. *)
Theorem normalizer_exact :
  forall (M : list (list R)) (k i : nat),
    M <> [] ->
    Forall (fun row => length row = k) M ->
    (i < k)%nat ->
    let X := finite M in
    let means := compute_means k X in
    let stds := compute_stds k X means in
    let XNormalized := map (normalize_row means stds) X in
    let c := column i M in
    let n := INR (length M) in
    let mu := (Rsum c / n)%R in
    let sigma := R_sqrt.sqrt (Rsum (map (fun x => ((x - mu) ^ 2)%R) c) / n) in
    get means i = Fin mu
    /\ get stds i = Fin (if Req_dec_T sigma 0 then 1%R else sigma)
    /\ (constant c -> forall row, In row XNormalized -> get row i = Fin 0)
    /\ (~ constant c ->
        let z := map (fun x => ((x - mu) / sigma)%R) c in
        let mean_z := (Rsum z / n)%R in
        (0 < sigma)%R
        /\ map (fun row => get row i) XNormalized = map Fin z
        /\ mean_z = 0%R
        /\ R_sqrt.sqrt (Rsum (map (fun t => ((t - mean_z) ^ 2)%R) z) / n)
           = 1%R
        /\ get (compute_means k XNormalized) i = Fin 0
        /\ get (compute_stds k XNormalized (compute_means k XNormalized)) i
           = Fin 1).
Proof.
  intros M k i HM Hrows Hi X means stds XNormalized c n mu sigma.
  assert (Hmu : mu = population_mean c).
  { unfold mu, n, population_mean, c. now rewrite column_length. }
  assert (Hvariance : sigma = R_sqrt.sqrt (population_variance c)).
  { unfold sigma, population_variance.
    rewrite Hmu. unfold n, c. now rewrite column_length. }
  assert (Hsigma : (if Req_dec_T sigma 0 then 1%R else sigma) = stored_std c).
  { unfold stored_std. now rewrite Hvariance. }
  pose proof (column_nonempty i HM) as Hc. fold c in Hc.
  pose proof (normalized_exact HM Hrows) as Hnorm. cbv zeta in Hnorm.
  split; [rewrite Hmu; exact (means_exact HM Hrows Hi)|].
  split; [rewrite Hsigma; exact (stds_exact HM Hrows Hi)|].
  split.
  - intros Hconst row Hrow. unfold XNormalized, stds, means, X in Hrow.
    rewrite Hnorm in Hrow.
    unfold finite, z_scores in Hrow. rewrite map_map in Hrow.
    apply in_map_iff in Hrow. destruct Hrow as (r & <- & Hr).
    assert (Hlen : length r = k)
      by (rewrite Forall_forall in Hrows; now apply Hrows).
    rewrite get_Fin by (rewrite mapi_length; lia).
    unfold mapi. rewrite nth_mapi_from by lia.
    cbn [Nat.add]. fold c. f_equal.
    assert (Hin : In (nth i r 0%R) c)
      by (unfold c, column; apply in_map_iff; now exists r).
    rewrite (constant_mean (a := nth i r 0%R) Hc)
      by (intros x Hx; now apply Hconst).
    unfold Rdiv. ring.
  - intros Hvary z mean_z.
    pose proof (standardized Hc Hvary) as Hst. cbv zeta in Hst.
    destruct Hst as (Hstored & Hpos & Hmean & Hvar & Hstd).
    assert (Hsig : sigma = stored_std c) by now rewrite Hvariance.
    assert (Hz : z = map (fun x => ((x - population_mean c)
                                    / stored_std c)%R) c)
      by (unfold z; now rewrite Hmu, Hsig).
    assert (Hlen : INR (length z) = n)
      by (unfold z, n, c; now rewrite length_map, column_length).
    assert (Hmean_z : mean_z = 0%R).
    { unfold mean_z. rewrite <- Hlen, Hz. exact Hmean. }
    split; [rewrite Hsig; exact Hpos|].
    split; [rewrite Hz; exact (normalized_column HM Hrows Hi)|].
    split; [exact Hmean_z|].
    split.
    { rewrite <- Hlen.
      replace mean_z with (population_mean z)
        by (rewrite Hmean_z, Hz; exact Hmean).
      fold (population_variance z). rewrite Hz, Hvar. apply sqrt_1. }
    unfold XNormalized, stds, means, X.
    rewrite Hnorm.
    pose proof (z_scores_rows Hrows) as Hzrows.
    assert (HZ : z_scores M <> [])
      by (unfold z_scores; destruct M; [congruence|discriminate]).
    pose proof (z_scores_column Hrows Hi) as Hzc. fold c in Hzc.
    rewrite <- Hzc in Hmean, Hstd.
    pose proof (means_exact HZ Hzrows Hi) as Hm. cbv zeta in Hm.
    pose proof (stds_exact HZ Hzrows Hi) as Hs. cbv zeta in Hs.
    split.
    + rewrite Hm. now rewrite Hmean.
    + rewrite Hs. now rewrite Hstd.
Qed.

(** Three rows of glucose and a constant flag. *)
Lemma normalizer_exact_witness :
  let M := [[148; 1]; [85; 1]; [183; 1]]%R in
  let X := finite M in
  let means := compute_means 2 X in
  let stds := compute_stds 2 X means in
  get means 1 = Fin 1
  /\ get stds 1 = Fin 1
  /\ get means 0 = Fin ((148 + 85 + 183) / 3).
Proof.
  intros M X means stds.
  assert (HM : M <> []) by discriminate.
  assert (Hrows : Forall (fun row => length row = 2%nat) M)
    by (repeat constructor).
  assert (Hconst : constant (column 1 M)).
  { intros x y Hx Hy. cbn in Hx, Hy.
    repeat (destruct Hx as [<-|Hx]; [|]); try contradiction;
      repeat (destruct Hy as [<-|Hy]; [|]); try contradiction;
      reflexivity. }
  destruct (@normalizer_exact M 2 1 HM Hrows ltac:(lia))
    as (Hmean1 & Hstd1 & _).
  destruct (@normalizer_exact M 2 0 HM Hrows ltac:(lia))
    as (Hmean0 & _).
  cbv zeta in Hmean1, Hstd1, Hmean0.
  fold M X means stds in Hmean1, Hstd1, Hmean0.
  split; [|split].
  - rewrite Hmean1. f_equal. cbn. lra.
  - rewrite Hstd1. f_equal.
    replace (Rsum (map (fun x => ((x - Rsum (column 1 M) / INR (length M)) ^ 2)%R)
                       (column 1 M)) / INR (length M))%R
      with 0%R by (cbn; field).
    rewrite sqrt_0. destruct (Req_dec_T 0 0); [reflexivity|lra].
  - rewrite Hmean0. f_equal. cbn. lra.
Defined.

(** In binary64 the mean of three entries 0.1 is 0.10000000000000002, not
    0.1, so the computed deviation is [2^-56], not 0, and every entry
    normalizes to -1; and a constant column of infinities normalizes to
    [NaN]. *)
Lemma constant_column_not_zero :
  (let X := [[lit 0.1]; [lit 0.1]; [lit 0.1]] : list (list float) in
   let means := compute_means 1 X in
   let stds := compute_stds 1 X means in
   means = [0x1.999999999999bp-4%float]
   /\ stds = [0x1p-56%float]
   /\ map (normalize_row means stds) X
      = [[(-1)%float]; [(-1)%float]; [(-1)%float]])
  /\ (let X := [[infinity]; [infinity]] : list (list float) in
      let means := compute_means 1 X in
      let stds := compute_stds 1 X means in
      map (normalize_row means stds) X = [[nan]; [nan]]).
Proof. repeat split; vm_compute; reflexivity. Qed.

End NormalizerTheorem.

(** * The static scorer: ranges, threshold, monotonicity *)

Section ScorerRanges.

Import Pretrained.
Local Open Scope js_scope.

Ltac decimals := rewrite ?lit_Fin; unfold Q2R; cbn [Qnum Qden].

Ltac on_finite :=
  repeat first
    [ rewrite strict_eq_Fin
    | rewrite gt_Fin
    | rewrite Reqb_false by lra
    | rewrite Reqb_true by lra
    | rewrite Rltb_true by lra
    | rewrite Rltb_false by lra
    | rewrite Fin_neg
    | rewrite Fin_sub
    | rewrite Fin_mul
    | rewrite Fin_add
    | rewrite Fin_div by lra ].

(** A cleaned field is a real number, at least its floor. *)
Lemma cleaned_field (v : ideal) lo d :
  ~ infinite v -> (Q2R lo <= Q2R d)%R ->
  exists x : R,
    Math_max (lit lo) (v ||| lit d) = Fin x /\ (Q2R lo <= x)%R.
Proof.
  intros Hv Hle. rewrite !lit_Fin.
  destruct v as [| | |x].
  - rewrite or_else_NaN, Fin_max. eexists. split; [reflexivity|apply Rmax_l].
  - exfalso. apply Hv. now left.
  - exfalso. apply Hv. now right.
  - destruct (Req_dec_T x 0) as [Hx|Hx].
    + rewrite or_else_zero by exact Hx. rewrite Fin_max.
      eexists. split; [reflexivity|apply Rmax_l].
    + rewrite or_else_Fin by exact Hx. rewrite Fin_max.
      eexists. split; [reflexivity|apply Rmax_l].
Qed.

Lemma cleanInput_measured (input : Input ideal) :
  measured input ->
  exists p g bp st ins m dpf a : R,
    cleanInput input
    = {| pregnancies := Fin p; glucose := Fin g; bloodpressure := Fin bp;
         skinthickness := Fin st; insulin := Fin ins; bmi := Fin m;
         diabetespedigreefunction := Fin dpf; age := Fin a |}
    /\ (0 <= p /\ 0 <= g /\ 0 <= bp /\ 0 <= st /\ 0 <= ins /\ 10 <= m
        /\ 0 <= dpf /\ 18 <= a)%R.
Proof.
  intros H. unfold cleanInput.
  destruct (@cleaned_field (pregnancies input) 0 0 (H Pregnancies))
    as (p & -> & Hp); [lra|].
  destruct (@cleaned_field (glucose input) 0 100 (H Glucose))
    as (g & -> & Hg); [unfold Q2R; cbn [Qnum Qden]; lra|].
  destruct (@cleaned_field (bloodpressure input) 0 70 (H BloodPressure))
    as (bp & -> & Hbp); [unfold Q2R; cbn [Qnum Qden]; lra|].
  destruct (@cleaned_field (skinthickness input) 0 20 (H SkinThickness))
    as (st & -> & Hst); [unfold Q2R; cbn [Qnum Qden]; lra|].
  destruct (@cleaned_field (insulin input) 0 80 (H Insulin))
    as (ins & -> & Hins); [unfold Q2R; cbn [Qnum Qden]; lra|].
  destruct (@cleaned_field (bmi input) 10 25 (H BMI))
    as (m & -> & Hm); [unfold Q2R; cbn [Qnum Qden]; lra|].
  destruct (@cleaned_field (diabetespedigreefunction input) 0 0.5
              (H DiabetesPedigreeFunction))
    as (dpf & -> & Hdpf); [unfold Q2R; cbn [Qnum Qden]; lra|].
  destruct (@cleaned_field (age input) 18 30 (H Age))
    as (a & -> & Ha); [unfold Q2R; cbn [Qnum Qden]; lra|].
  exists p, g, bp, st, ins, m, dpf, a. split; [reflexivity|].
  unfold Q2R in *. cbn [Qnum Qden] in *. lra.
Qed.

(** The linear score on cleaned real fields. *)
Lemma linear_score_Fin p g bp st ins m dpf a :
  linear_score
    (engineerFeatures
       {| pregnancies := Fin p; glucose := Fin g; bloodpressure := Fin bp;
          skinthickness := Fin st; insulin := Fin ins; bmi := Fin m;
          diabetespedigreefunction := Fin dpf; age := Fin a |})
  = Fin (scorer_score p g bp st ins m dpf a).
Proof.
  unfold linear_score, engineerFeatures, normalizeValue,
    normalizationParams, modelWeights, scorer_score.
  cbv zeta.
  cbn [input glucoseBMI agePregnancies insulinGlucose fst snd mean std
       pregnancies glucose bloodpressure skinthickness insulin bmi
       diabetespedigreefunction age].
  decimals.
  destruct (Rlt_dec 0 ins) as [Hins|Hins].
  - on_finite. f_equal. lra.
  - on_finite. f_equal. lra.
Qed.

Lemma logistic_half x : (1 / 2 <= logistic x <-> 0 <= x)%R.
Proof.
  unfold logistic. pose proof (exp_pos (- x)) as He.
  assert (Hiff : (Rtrigo_def.exp (- x) <= 1 <-> 0 <= x)%R).
  { rewrite <- exp_0. split; intros H.
    - destruct (Rle_dec 0 x) as [|Hn]; [assumption|].
      assert (Hlt : (0 < - x)%R) by lra.
      apply exp_increasing in Hlt. lra.
    - destruct (Req_dec_T x 0) as [->|Hne].
      + rewrite Ropp_0. lra.
      + assert (Hlt : (- x < 0)%R) by lra.
        apply exp_increasing in Hlt. lra. }
  assert (Hinv : ((1 / (1 + Rtrigo_def.exp (- x)))
                  * (1 + Rtrigo_def.exp (- x)) = 1)%R) by (field; lra).
  set (t := (1 / (1 + Rtrigo_def.exp (- x)))%R) in *.
  rewrite <- Hiff. split; intros H; nra.
Qed.

Lemma logistic_monotone x y : (x <= y)%R -> (logistic x <= logistic y)%R.
Proof.
  intros Hxy. unfold logistic.
  pose proof (exp_pos (- x)) as Hx. pose proof (exp_pos (- y)) as Hy.
  assert (Hexp : (Rtrigo_def.exp (- y) <= Rtrigo_def.exp (- x))%R).
  { destruct (Req_dec_T x y) as [->|Hne]; [lra|].
    assert (Hlt : (- y < - x)%R) by lra.
    apply exp_increasing in Hlt. lra. }
  unfold Rdiv. rewrite !Rmult_1_l.
  apply Rinv_le_contravar; lra.
Qed.

Lemma clamp500_monotone x y : (x <= y)%R -> (clamp500 x <= clamp500 y)%R.
Proof.
  intros H. unfold clamp500.
  apply Rle_max_compat_l. now apply Rle_min_compat_l.
Qed.

Lemma clamp500_sign x : (0 <= clamp500 x <-> 0 <= x)%R.
Proof.
  unfold clamp500, Rmax, Rmin.
  destruct (Rle_dec 500 x); destruct (Rle_dec _ _); lra.
Qed.

Lemma Fin_abs a : Math_abs (Fin a) = Fin (Rabs a).
Proof. reflexivity. Qed.

(** The result of the scorer on cleaned real fields of linear score [z]. *)
Lemma predictDiabetes_measured (input : Input ideal) :
  measured input ->
  exists z : R,
    linear_score (engineerFeatures (cleanInput input)) = Fin z
    /\ probability (predictDiabetes input) = Fin (logistic (clamp500 z))
    /\ prediction (predictDiabetes input)
       = (if Rle_dec 0 z then lit 1 else lit 0)
    /\ risk (predictDiabetes input) = (if Rle_dec 0 z then high else low)
    /\ confidence (predictDiabetes input)
       = Fin (Rmin 0.95
                (Rmax 0.6 (Rabs (logistic (clamp500 z) - 0.5) * 2))).
Proof.
  intros H.
  destruct (cleanInput_measured H)
    as (p & g & bp & st & ins & m & dpf & a & Hclean & _).
  exists (scorer_score p g bp st ins m dpf a).
  unfold predictDiabetes. cbv zeta.
  cbn [probability prediction risk confidence].
  rewrite Hclean, linear_score_Fin, scorer_sigmoid_Fin.
  set (z := scorer_score p g bp st ins m dpf a).
  assert (Hge : (Fin (logistic (clamp500 z)) >= lit 0.5)
                = if Rle_dec 0 z then true else false).
  { decimals. destruct (Rle_dec 0 z) as [Hz|Hz].
    - apply ge_Fin_true. apply clamp500_sign, logistic_half in Hz. lra.
    - apply ge_Fin_false.
      destruct (Rlt_dec (logistic (clamp500 z)) (5 / 10)) as [|Hn];
        [assumption|].
      exfalso. apply Hz. apply clamp500_sign, logistic_half. lra. }
  rewrite Hge.
  split; [reflexivity|]. split; [reflexivity|].
  split; [now destruct (Rle_dec 0 z)|].
  split.
  - destruct (Rle_dec 0 z).
    + decimals. on_finite. reflexivity.
    + decimals. on_finite. reflexivity.
  - decimals. on_finite. rewrite Fin_abs. on_finite.
    rewrite Fin_max, Fin_min. do 4 f_equal. lra.
Qed.

(** X1.  On every input whose fields are real numbers or [NaN], in exact
    arithmetic: the probability lies strictly between 0 and 1; the
    prediction is 1 with risk [high] when it is at least one half, and 0
    with risk [low] otherwise; and the confidence reported is
    [2 * |probability - 0.5|] brought into [0.6, 0.95]. *)
Theorem predictDiabetes_ranges :
  forall input : Input ideal,
    measured input ->
    exists p c : R,
      probability (predictDiabetes input) = Fin p
      /\ (0 < p < 1)%R
      /\ confidence (predictDiabetes input) = Fin c
      /\ c = Rmin 0.95 (Rmax 0.6 (Rabs (p - 0.5) * 2))
      /\ (0.6 <= c <= 0.95)%R
      /\ (prediction (predictDiabetes input) = lit 1
          /\ risk (predictDiabetes input) = high /\ (0.5 <= p)%R
          \/ prediction (predictDiabetes input) = lit 0
             /\ risk (predictDiabetes input) = low /\ (p < 0.5)%R).
Proof.
  intros input H.
  destruct (predictDiabetes_measured H)
    as (z & _ & Hp & Hpred & Hrisk & Hc).
  exists (logistic (clamp500 z)).
  exists (Rmin 0.95 (Rmax 0.6 (Rabs (logistic (clamp500 z) - 0.5) * 2))).
  split; [exact Hp|]. split; [apply logistic_bounds|].
  split; [exact Hc|]. split; [reflexivity|]. split.
  - split.
    + apply Rmin_glb; [lra|]. apply Rmax_l.
    + apply Rmin_l.
  - rewrite Hpred, Hrisk. destruct (Rle_dec 0 z) as [Hz|Hz].
    + left. repeat split. apply clamp500_sign, logistic_half in Hz. lra.
    + right. repeat split.
      destruct (Rlt_dec (logistic (clamp500 z)) 0.5) as [|Hn];
        [assumption|].
      exfalso. apply Hz. apply clamp500_sign, logistic_half. lra.
Qed.

Lemma predictDiabetes_ranges_witness :
  exists p c : R,
    probability (predictDiabetes neutral) = Fin p
    /\ (0 < p < 1)%R
    /\ confidence (predictDiabetes neutral) = Fin c
    /\ (0.6 <= c <= 0.95)%R.
Proof.
  destruct (@predictDiabetes_ranges neutral)
    as (p & c & Hp & Hrange & Hc & _ & Hbounds & _).
  - intros f [H|H]; destruct f; discriminate H.
  - exists p, c. repeat split; try assumption; apply Hrange || apply Hbounds.
Defined.

(** X2.  The decision threshold: on every input whose fields are real numbers
    or [NaN], the linear score is a real number [z], and the scorer answers
    1, with risk [high], exactly when [z >= 0]. *)
Theorem risk_high_iff_score_nonnegative :
  forall input : Input ideal,
    measured input ->
    exists z : R,
      linear_score (engineerFeatures (cleanInput input)) = Fin z
      /\ (prediction (predictDiabetes input) = lit 1 <-> (0 <= z)%R)
      /\ (risk (predictDiabetes input) = high <-> (0 <= z)%R)
      /\ (prediction (predictDiabetes input) = lit 0 <-> (z < 0)%R)
      /\ (risk (predictDiabetes input) = low <-> (z < 0)%R).
Proof.
  intros input H.
  destruct (predictDiabetes_measured H)
    as (z & Hz & _ & Hpred & Hrisk & _).
  exists z. split; [exact Hz|]. rewrite Hpred, Hrisk.
  pose proof lit_1_neq_0 as Hne.
  destruct (Rle_dec 0 z) as [Hle|Hlt]; repeat split; intros;
    try reflexivity; try assumption; try lra; try discriminate;
    try congruence.
Qed.

Lemma risk_high_iff_score_nonnegative_witness :
  exists z : R,
    linear_score (engineerFeatures (cleanInput neutral)) = Fin z
    /\ (risk (predictDiabetes neutral) = low <-> (z < 0)%R).
Proof.
  destruct (@risk_high_iff_score_nonnegative neutral)
    as (z & Hz & _ & _ & _ & Hlow).
  - intros f [H|H]; destruct f; discriminate H.
  - exists z. split; assumption.
Defined.

(** ** Monotonicity *)

Lemma scorer_score_monotone p g bp st ins m dpf a p' g' bp' st' ins' m' dpf' a' :
  (0 <= p <= p')%R -> (0 <= g <= g')%R -> (bp <= bp')%R -> (st <= st')%R ->
  (0 <= ins <= ins')%R -> (0 <= m <= m')%R -> (dpf <= dpf')%R ->
  (0 <= a <= a')%R ->
  (scorer_score p g bp st ins m dpf a
   <= scorer_score p' g' bp' st' ins' m' dpf' a')%R.
Proof.
  intros Hp Hg Hbp Hst Hins Hm Hdpf Ha. unfold scorer_score.
  assert (Hgm : (g * m <= g' * m')%R) by (apply Rmult_le_compat; lra).
  assert (Hap : (a * p <= a' * p')%R) by (apply Rmult_le_compat; lra).
  assert (Hig : (ins * g <= ins' * g')%R) by (apply Rmult_le_compat; lra).
  assert (Hig0 : (0 <= ins' * g')%R) by (apply Rmult_le_pos; lra).
  destruct (Rlt_dec 0 ins), (Rlt_dec 0 ins'); lra.
Qed.

(** A value floored by [Math.max] is, when finite, at least the floor. *)
Lemma floored_below lo (v : ideal) x :
  Math_max (lit lo) v = Fin x -> (Q2R lo <= x)%R.
Proof.
  rewrite lit_Fin. destruct v as [| | |y]; try discriminate.
  - intros H. change (Math_max (Fin (Q2R lo)) INInf) with (Fin (Q2R lo)) in H.
    apply Fin_inj in H. lra.
  - rewrite Fin_max. intros H. apply Fin_inj in H. subst x. apply Rmax_l.
Qed.

(** X3.  The probability never decreases when a cleaned field grows: if each
    cleaned field of [a] is a real number at most the same cleaned field of
    [b], the probability returned for [a] is at most the one returned for
    [b]. *)
Theorem probability_monotone :
  forall a b : Input ideal,
    (forall f,
        finite_le (field_of f (cleanInput a)) (field_of f (cleanInput b))) ->
    finite_le (probability (predictDiabetes a))
              (probability (predictDiabetes b)).
Proof.
  intros a b H.
  pose proof (H Pregnancies) as Hp. pose proof (H Glucose) as Hg.
  pose proof (H BloodPressure) as Hbp. pose proof (H SkinThickness) as Hst.
  pose proof (H Insulin) as Hins. pose proof (H BMI) as Hm.
  pose proof (H DiabetesPedigreeFunction) as Hdpf. pose proof (H Age) as Ha.
  clear H.
  unfold predictDiabetes. cbv zeta. cbn [probability].
  unfold cleanInput in *.
  cbn [field_of pregnancies glucose bloodpressure skinthickness insulin bmi
       diabetespedigreefunction age] in *.
  repeat match goal with
  | H : finite_le (Math_max (lit ?lo) ?v) (Math_max (lit ?lo) ?w) |- _ =>
      let x := fresh "x" in let y := fresh "y" in
      let Hx := fresh "Hx" in let Hy := fresh "Hy" in
      destruct (Math_max (lit lo) v) as [| | |x] eqn:Hx;
        try contradiction;
      destruct (Math_max (lit lo) w) as [| | |y] eqn:Hy;
        try contradiction;
      apply floored_below in Hx; apply floored_below in Hy;
      cbn [finite_le] in H; revert H Hx Hy
  end.
  unfold Q2R. cbn [Qnum Qden]. intros.
  rewrite !linear_score_Fin, !scorer_sigmoid_Fin. cbn [finite_le].
  apply logistic_monotone, clamp500_monotone, scorer_score_monotone; lra.
Qed.

Lemma probability_monotone_witness :
  finite_le (probability (predictDiabetes neutral))
            (probability (predictDiabetes (with_glucose neutral (lit 150)))).
Proof.
  apply probability_monotone. intros f.
  unfold cleanInput, with_glucose, neutral.
  cbn [field_of pregnancies glucose bloodpressure skinthickness insulin bmi
       diabetespedigreefunction age].
  decimals.
  rewrite !or_else_Fin by lra. rewrite !Fin_max.
  destruct f; cbn [finite_le];
    try apply Rle_refl.
  apply Rle_max_compat_l. lra.
Defined.

End ScorerRanges.

(** * The trainer: decision boundary, unchecked lengths, finiteness *)

Section TrainerEdges.

Local Open Scope js_scope.

Lemma spec_sum_Fin (l : list R) : spec_sum (map Fin l) = Fin (Rsum l).
Proof.
  unfold spec_sum. induction l as [|a l IH]; cbn [map fold_right Rsum].
  - apply lit_0.
  - rewrite IH. apply Fin_add.
Qed.

Lemma spec_dot_Fin :
  forall x w : list R,
    spec_dot (finite_vector x) (finite_vector w) = Fin (Rdot x w).
Proof.
  intros x w. unfold spec_dot, Rdot, finite_vector.
  rewrite <- spec_sum_Fin. f_equal.
  revert w. induction x as [|a x IH]; intros [|b w]; try reflexivity.
  cbn [map combine]. now rewrite IH, Fin_mul.
Qed.

Lemma score_Fin (w x : list R) (b : R) :
  length x = length w ->
  score (finite_vector w) (Fin b) (finite_vector x) = Fin (Rdot x w + b).
Proof.
  intros Hlen. rewrite score_spec_dot.
  - now rewrite spec_dot_Fin, Fin_add.
  - unfold finite_vector. now rewrite !length_map.
Qed.

Lemma logistic_half_250 z : (1 / 2 <= logistic (clamp250 z) <-> 0 <= z)%R.
Proof.
  rewrite logistic_half. unfold clamp250, Rmax, Rmin.
  destruct (Rle_dec 250 z); destruct (Rle_dec _ _); lra.
Qed.

(** X4.  The decision boundary.  With real weights [w] and bias [b], on a real
    vector [x] of the weights' length, [predictProbability] is the logistic
    function of [x . w + b] clamped to [-250, 250], and [predict] answers 1
    exactly when [x . w + b >= 0], and 0 otherwise. *)
Theorem predict_is_halfspace :
  forall (self : LogisticRegression ideal) (w x : list R) (b : R),
    weights self = finite_vector w ->
    bias self = Fin b ->
    length x = length w ->
    predictProbability self (finite_vector x)
    = Fin (logistic (clamp250 (Rdot x w + b)))
    /\ (predict self (finite_vector x) = lit 1 <-> (0 <= Rdot x w + b)%R)
    /\ (predict self (finite_vector x) = lit 0 <-> (Rdot x w + b < 0)%R).
Proof.
  intros self w x b Hw Hb Hlen.
  assert (Hp : predictProbability self (finite_vector x)
               = Fin (logistic (clamp250 (Rdot x w + b)))).
  { unfold predictProbability.
    now rewrite Hw, Hb, score_Fin, sigmoid_Fin. }
  split; [exact Hp|].
  rewrite predict_threshold, Hp.
  set (z := (Rdot x w + b)%R).
  pose proof (logistic_half_250 z) as Hhalf.
  pose proof lit_1_neq_0 as Hne.
  destruct (Rle_dec 0 z) as [Hz|Hz].
  - rewrite lit_Fin, ge_Fin_true
      by (unfold Q2R; cbn [Qnum Qden]; apply Hhalf in Hz; lra).
    repeat split; intros; try reflexivity; try assumption; try lra.
    congruence.
  - rewrite lit_Fin, ge_Fin_false.
    + repeat split; intros; try reflexivity; try lra. congruence.
    + unfold Q2R; cbn [Qnum Qden].
      destruct (Rlt_dec (logistic (clamp250 z)) (5 * / 10)) as [|Hn];
        [assumption|].
      exfalso. apply Hz, Hhalf. lra.
Qed.

Lemma predict_is_halfspace_witness :
  predict {| weights := [Fin 1; Fin (- 2)]; bias := Fin 1;
             learningRate := lit 0.01; iterations := 1000 |}
          [Fin 3; Fin 2]
  = lit 1.
Proof.
  apply (proj1 (proj2 (@predict_is_halfspace
    {| weights := [Fin 1; Fin (- 2)]; bias := Fin 1;
       learningRate := lit 0.01; iterations := 1000 |}
    [1; - 2]%R [3; 2]%R 1%R eq_refl eq_refl eq_refl))).
  unfold Rdot, Rsum. cbn [combine map fold_right]. lra.
Defined.

(** ** An input longer than the weights *)

Lemma add_NaN_l (x : ideal) : INaN + x = INaN.
Proof. reflexivity. Qed.

Lemma add_NaN_r (x : ideal) : x + INaN = INaN.
Proof. now destruct x. Qed.

Lemma mul_NaN_r (x : ideal) : x * INaN = INaN.
Proof. now destruct x. Qed.

Lemma mul_NaN_l (x : ideal) : INaN * x = INaN.
Proof. reflexivity. Qed.

Lemma sub_NaN_r (x : ideal) : x - INaN = INaN.
Proof. now destruct x. Qed.

Lemma sub_NaN_l (x : ideal) : INaN - x = INaN.
Proof. reflexivity. Qed.

Lemma div_NaN_l (x : ideal) : INaN / x = INaN.
Proof. reflexivity. Qed.

Lemma sigmoid_NaN : sigmoid INaN = INaN.
Proof. reflexivity. Qed.

Lemma reduce_from_NaN (w : list ideal) :
  forall row idx,
    reduce_from (fun sum val idx => sum + val * get w idx) idx row INaN
    = INaN.
Proof.
  induction row as [|v row IH]; intros idx; cbn [reduce_from];
    [reflexivity|].
  rewrite add_NaN_l. apply IH.
Qed.

Lemma reduce_from_overlong (w : list ideal) :
  forall row idx acc,
    (idx <= length w < idx + length row)%nat ->
    reduce_from (fun sum val idx => sum + val * get w idx) idx row acc
    = INaN.
Proof.
  induction row as [|v row IH]; intros idx acc [Hlo Hhi];
    cbn [length] in Hhi; [lia|].
  cbn [reduce_from].
  destruct (Nat.eq_dec idx (length w)) as [->|Hne].
  - unfold get. rewrite nth_overflow by lia.
    change (@NaN ideal Ideal) with INaN.
    rewrite mul_NaN_r, add_NaN_r. apply reduce_from_NaN.
  - apply IH. lia.
Qed.

(** X5.  [predict] and [predictProbability] check no length.  On an input
    longer than the weight vector the missing weights read as [undefined]:
    the probability is [NaN] and the answer 0, whatever the weights, the bias
    and the input. *)
Theorem predict_on_longer_input :
  forall (self : LogisticRegression ideal) (x : list ideal),
    (length (weights self) < length x)%nat ->
    predictProbability self x = NaN /\ predict self x = lit 0.
Proof.
  intros self x Hlen.
  assert (Hp : predictProbability self x = INaN).
  { unfold predictProbability, score, reduce.
    rewrite reduce_from_overlong by lia. apply sigmoid_NaN. }
  split; [exact Hp|]. rewrite predict_threshold, Hp. reflexivity.
Qed.

Lemma predict_on_longer_input_witness :
  predict {| weights := [Fin 1]; bias := Fin 5;
             learningRate := lit 0.01; iterations := 1000 |}
          [Fin 1; Fin 1]
  = lit 0.
Proof.
  apply (@predict_on_longer_input
    {| weights := [Fin 1]; bias := Fin 5;
       learningRate := lit 0.01; iterations := 1000 |} [Fin 1; Fin 1]).
  cbn [weights length]. lia.
Defined.

(** ** Training keeps finite numbers finite *)

Lemma is_finite_add x y : is_finite x -> is_finite y -> is_finite (x + y).
Proof. intros [a ->] [b ->]. now exists (a + b)%R. Qed.

Lemma is_finite_sub x y : is_finite x -> is_finite y -> is_finite (x - y).
Proof. intros [a ->] [b ->]. now exists (a - b)%R. Qed.

Lemma is_finite_mul x y : is_finite x -> is_finite y -> is_finite (x * y).
Proof. intros [a ->] [b ->]. now exists (a * b)%R. Qed.

Lemma is_finite_div_length x n :
  is_finite x -> (0 < n)%nat -> is_finite (x / of_length n).
Proof.
  intros [a ->] Hn. exists (a / INR n)%R.
  rewrite of_length_Fin. apply Fin_div.
  apply not_0_INR. lia.
Qed.

Lemma is_finite_sigmoid x : is_finite x -> is_finite (sigmoid x).
Proof. intros [a ->]. eexists. apply sigmoid_Fin. Qed.

Lemma is_finite_spec_sum l : Forall is_finite l -> is_finite (spec_sum l).
Proof.
  unfold spec_sum. induction 1 as [|x l Hx _ IH]; cbn [fold_right].
  - exists 0%R. apply lit_0.
  - now apply is_finite_add.
Qed.

Lemma is_finite_spec_dot row w :
  Forall is_finite row -> Forall is_finite w -> is_finite (spec_dot row w).
Proof.
  intros Hrow Hw. unfold spec_dot. apply is_finite_spec_sum.
  apply Forall_forall. intros v Hin.
  apply in_map_iff in Hin. destruct Hin as ([x wj] & <- & Hin).
  rewrite Forall_forall in Hrow, Hw.
  apply is_finite_mul;
    [eapply Hrow, in_combine_l, Hin | eapply Hw, in_combine_r, Hin].
Qed.

Lemma is_finite_get row j :
  Forall is_finite row -> (j < length row)%nat -> is_finite (get row j).
Proof.
  intros Hrow Hj. rewrite Forall_forall in Hrow.
  apply Hrow. unfold get. now apply nth_In.
Qed.

(** One step of gradient descent on finite data. *)
Lemma spec_step_finite lr (X : list (list ideal)) y w b :
  X <> [] ->
  is_finite lr ->
  Forall (fun row => Forall is_finite row /\ length row = length w) X ->
  Forall is_finite y ->
  Forall is_finite w -> is_finite b ->
  Forall is_finite (fst (spec_step lr X y (w, b)))
  /\ is_finite (snd (spec_step lr X y (w, b))).
Proof.
  intros HX Hlr Hrows Hy Hw Hb.
  assert (Hn : (0 < length X)%nat) by (destruct X; [contradiction|cbn; lia]).
  unfold spec_step. cbn [fst snd].
  set (errors := map _ (combine X y)).
  assert (Herrors : Forall is_finite errors).
  { apply Forall_forall. intros v Hin.
    apply in_map_iff in Hin. destruct Hin as ([row label] & <- & Hin).
    rewrite Forall_forall in Hrows, Hy.
    apply is_finite_sub; [|eapply Hy, in_combine_r, Hin].
    apply is_finite_sigmoid, is_finite_add; [|exact Hb].
    apply is_finite_spec_dot; [|exact Hw].
    eapply Hrows, in_combine_l, Hin. }
  split.
  - apply Forall_forall. intros v Hin.
    apply in_map_iff in Hin. destruct Hin as ([j wj] & <- & Hin).
    pose proof (in_combine_l _ _ _ _ Hin) as Hj. apply in_seq in Hj.
    pose proof (in_combine_r _ _ _ _ Hin) as Hwj.
    rewrite Forall_forall in Hw.
    apply is_finite_sub; [now apply Hw|].
    apply is_finite_div_length; [|exact Hn].
    apply is_finite_mul; [exact Hlr|].
    apply is_finite_spec_sum, Forall_forall. intros g Hg.
    apply in_map_iff in Hg. destruct Hg as ([e row] & <- & Hg).
    rewrite Forall_forall in Herrors, Hrows.
    apply is_finite_mul; [eapply Herrors, in_combine_l, Hg|].
    destruct (Hrows row (in_combine_r _ _ _ _ Hg)) as [Hfin Hlen].
    apply is_finite_get; [exact Hfin|lia].
  - apply is_finite_sub; [exact Hb|].
    apply is_finite_div_length; [|exact Hn].
    apply is_finite_mul; [exact Hlr|].
    now apply is_finite_spec_sum.
Qed.

(** X6.  On [n >= 1] rows of [k] finite numbers each, with [n] finite labels
    and a finite learning rate, training in exact arithmetic returns [k]
    weights and a bias that are all finite: neither [NaN] nor an infinity
    appears, whatever the number of iterations. *)
Theorem train_keeps_finite :
  forall (self : LogisticRegression ideal) (X : list (list ideal))
         (y : list ideal) (k : nat),
    X <> [] ->
    Forall (fun row => Forall is_finite row /\ length row = k) X ->
    Forall is_finite y ->
    length y = length X ->
    is_finite (learningRate self) ->
    exists m,
      train self X y = Ok m
      /\ length (weights m) = k
      /\ Forall is_finite (weights m)
      /\ is_finite (bias m).
Proof.
  intros self X y k HX Hrows Hy Hlen Hlr.
  assert (Hshape : Forall (fun row => length row = k) X).
  { eapply Forall_impl; [|exact Hrows]. now intros row [_ H]. }
  unfold train. destruct X as [|row0 X']; [contradiction|].
  set (X := row0 :: X') in *.
  assert (Hk : length row0 = k) by (now inversion Hshape).
  rewrite Hk, for_loop_iter.
  assert (Hiter :
    forall iters,
      let wb := Nat.iter iters
                  (train_iteration (learningRate self) X y (length X) k)
                  (Array_fill k (lit 0), lit 0) in
      length (fst wb) = k /\ Forall is_finite (fst wb)
      /\ is_finite (snd wb)).
  { induction iters as [|iters IH].
    - cbn [Nat.iter fst snd]. unfold Array_fill.
      split; [apply repeat_length|]. split.
      + apply Forall_forall. intros v Hv. apply repeat_spec in Hv.
        subst v. exists 0%R. apply lit_0.
      + exists 0%R. apply lit_0.
    - cbv zeta in IH |- *. rewrite Nat.iter_succ.
      destruct (Nat.iter iters _ _) as [w b]. cbn [fst snd] in IH.
      destruct IH as (Hw & Hfw & Hfb).
      rewrite train_iteration_spec by assumption.
      split; [now rewrite spec_step_length|].
      apply spec_step_finite; try assumption.
      eapply Forall_impl; [|exact Hrows]. intros row [H1 H2].
      split; [exact H1|congruence]. }
  specialize (Hiter (iterations self)). cbv zeta in Hiter.
  match goal with
  | |- context [Nat.iter ?n ?f ?i] =>
      change (Nat.iter n f i)
        with (Nat.iter (iterations self)
                (train_iteration (learningRate self) X y (length X) k)
                (Array_fill k (lit 0), lit 0))
  end.
  destruct (Nat.iter _ _ _) as [w b]. cbn [fst snd] in Hiter.
  eexists. split; [reflexivity|]. exact Hiter.
Qed.

Lemma train_keeps_finite_witness :
  exists m,
    train (new_LogisticRegression (lit 0.01) 1000)
          [[Fin 1; Fin 2]; [Fin 3; Fin 4]] [Fin 0; Fin 1]
    = Ok m
    /\ length (weights m) = 2
    /\ Forall is_finite (weights m)
    /\ is_finite (bias m).
Proof.
  apply (@train_keeps_finite (new_LogisticRegression (lit 0.01) 1000)
           [[Fin 1; Fin 2]; [Fin 3; Fin 4]] [Fin 0; Fin 1] 2).
  - discriminate.
  - repeat constructor; eexists; reflexivity.
  - repeat constructor; eexists; reflexivity.
  - reflexivity.
  - eexists. reflexivity.
Defined.

(** ** Fewer labels than rows *)

Lemma spec_sum_NaN l : In INaN l -> spec_sum l = INaN.
Proof.
  unfold spec_sum. induction l as [|x l IH]; intros Hin; [contradiction|].
  cbn [fold_right]. destruct Hin as [->|Hin]; [reflexivity|].
  rewrite IH by exact Hin. apply add_NaN_r.
Qed.

Lemma running_sum_NaN {A : Type} (f : A -> ideal) l a :
  In a l -> f a = INaN ->
  fold_left (fun acc a => acc + f a) l (lit 0) = INaN.
Proof.
  intros Hin Ha. rewrite running_sum. apply spec_sum_NaN.
  rewrite <- Ha. now apply in_map.
Qed.

(** X7.  [train] checks the labels' length no more than the rows'.  With fewer
    labels than rows, a missing label reads as [undefined]: after one
    iteration or more the bias and every weight are [NaN], and no error is
    raised. *)
Theorem train_with_missing_labels :
  forall (self : LogisticRegression ideal) (X : list (list ideal))
         (y : list ideal),
    (length y < length X)%nat ->
    (1 <= iterations self)%nat ->
    exists m,
      train self X y = Ok m
      /\ bias m = NaN
      /\ Forall (fun w => w = NaN) (weights m).
Proof.
  intros self X y Hy Hiters.
  unfold train. destruct X as [|row0 X']; [cbn [length] in Hy; lia|].
  set (X := row0 :: X') in *.
  rewrite for_loop_iter.
  destruct (iterations self) as [|iters] eqn:Hi; [lia|].
  rewrite Nat.iter_succ.
  pose proof (train_loop_length (learningRate self) X y (length row0) iters)
    as Hw.
  match goal with
  | |- context [Nat.iter iters ?f ?i] =>
      change (Nat.iter iters f i)
        with (Nat.iter iters
                (fun wb => train_iteration (learningRate self) X y
                             (length X) (length row0) wb)
                (Array_fill (length row0) (lit 0), lit 0))
  end.
  destruct (Nat.iter iters _ _) as [w b]. cbn [fst] in Hw.
  rewrite <- Hw, train_iteration_sums. cbv zeta.
  set (predictions := map _ X).
  assert (Hin : In (length y) (seq 0 (length X))) by (apply in_seq; lia).
  assert (Hlabel : get y (length y) = INaN).
  { unfold get. now rewrite nth_overflow by lia. }
  assert (Hdb : db_sum X y predictions = INaN).
  { unfold db_sum. apply running_sum_NaN with (a := length y);
      [exact Hin|].
    rewrite Hlabel. apply sub_NaN_r. }
  assert (Hdw : forall k, dw_sum X y predictions k = INaN).
  { intros k. unfold dw_sum.
    apply (running_sum_NaN
             (fun j => (get predictions j - get y j) * get (nth j X []) k))
      with (a := length y); [exact Hin|].
    rewrite Hlabel, sub_NaN_r. apply mul_NaN_l. }
  eexists. split; [reflexivity|]. cbn [bias weights]. split.
  - rewrite Hdb, mul_NaN_r, div_NaN_l. apply sub_NaN_r.
  - apply Forall_forall. intros v Hv.
    unfold mapi in Hv. rewrite mapi_from_combine in Hv.
    apply in_map_iff in Hv. destruct Hv as ([k wk] & <- & _).
    rewrite Hdw, mul_NaN_r, div_NaN_l. apply sub_NaN_r.
Qed.

Lemma train_with_missing_labels_witness :
  exists m,
    train (new_LogisticRegression (lit 0.01) 1000)
          [[Fin 1; Fin 2]; [Fin 3; Fin 4]] [Fin 0]
    = Ok m
    /\ bias m = NaN
    /\ Forall (fun w => w = NaN) (weights m).
Proof.
  apply (@train_with_missing_labels
           (new_LogisticRegression (lit 0.01) 1000)
           [[Fin 1; Fin 2]; [Fin 3; Fin 4]] [Fin 0]).
  - cbn [length]. lia.
  - cbn [iterations new_LogisticRegression]. lia.
Defined.

End TrainerEdges.

(** * The metrics: counts and ranges *)

Section MetricsRanges.

Local Open Scope js_scope.

Lemma tally_total ts :
  forall ps,
    length ps = length ts ->
    (tally true true ts ps + tally false true ts ps
     + tally false false ts ps + tally true false ts ps)%nat
    = length ts.
Proof.
  induction ts as [|t ts IH]; intros [|p ps] Hlen;
    cbn [length] in Hlen; try discriminate; [reflexivity|].
  rewrite !(tally_cons _ _ t p ts ps). cbn [length].
  rewrite <- (IH ps) by lia.
  destruct t, p; cbn [tally combine filter Bool.eqb andb length]; lia.
Qed.

Lemma tally_agree ts :
  forall ps,
    length ps = length ts ->
    (tally false true ts ps = 0%nat /\ tally true false ts ps = 0%nat
     <-> ps = ts).
Proof.
  induction ts as [|t ts IH]; intros [|p ps] Hlen;
    cbn [length] in Hlen; try discriminate.
  - split; [reflexivity|]. intros _. split; reflexivity.
  - rewrite !(tally_cons _ _ t p ts ps).
    specialize (IH ps ltac:(lia)).
    destruct t, p; cbn [tally combine filter Bool.eqb andb length];
      split.
    + intros [H1 H2]. f_equal. apply IH. split; lia.
    + intros H. injection H as H. apply IH in H. lia.
    + intros [H1 H2]. lia.
    + intros H. discriminate.
    + intros [H1 H2]. lia.
    + intros H. discriminate.
    + intros [H1 H2]. f_equal. apply IH. split; lia.
    + intros H. injection H as H. apply IH in H. lia.
Qed.

Lemma ratio_le_1 (x y : R) : (0 <= x <= y)%R -> (ratio x y <= 1)%R.
Proof.
  intros [Hx Hxy]. unfold ratio. destruct (Req_dec_T y 0); [lra|].
  apply (Rmult_le_reg_r y); [lra|].
  unfold Rdiv. rewrite Rmult_assoc, Rinv_l by assumption. lra.
Qed.

(** The ranges of the closed form. *)
Lemma spec_metrics_ranges ts ps :
  length ps = length ts -> ts <> [] ->
  exists a p r f : R,
    accuracy (spec_metrics ts ps) = Fin a
    /\ precision (spec_metrics ts ps) = Fin p
    /\ recall (spec_metrics ts ps) = Fin r
    /\ f1Score (spec_metrics ts ps) = Fin f
    /\ (0 <= a <= 1)%R /\ (0 <= p <= 1)%R /\ (0 <= r <= 1)%R
    /\ (0 <= f <= 1)%R
    /\ (a = 1%R <-> ps = ts).
Proof.
  intros Hlen Hne. unfold spec_metrics. cbv zeta.
  cbn [accuracy precision recall f1Score].
  pose proof (tally_total ts ps Hlen) as Htotal.
  pose proof (tally_agree ts ps Hlen) as Hagree.
  set (TP := tally true true ts ps) in *.
  set (FP := tally false true ts ps) in *.
  set (TN := tally false false ts ps) in *.
  set (FN := tally true false ts ps) in *.
  assert (Hn : (0 < length ts)%nat) by (destruct ts; [contradiction|cbn; lia]).
  set (p := ratio (INR TP) (INR (TP + FP))).
  set (r := ratio (INR TP) (INR (TP + FN))).
  assert (Hp : (0 <= p <= 1)%R).
  { split; [apply ratio_nonneg; apply pos_INR|].
    apply ratio_le_1. split; [apply pos_INR|]. apply le_INR. lia. }
  assert (Hr : (0 <= r <= 1)%R).
  { split; [apply ratio_nonneg; apply pos_INR|].
    apply ratio_le_1. split; [apply pos_INR|]. apply le_INR. lia. }
  assert (Hden : INR (TP + FP + TN + FN) <> 0%R)
    by (apply not_0_INR; lia).
  assert (Hpos : (0 < INR (TP + FP + TN + FN))%R)
    by (apply lt_0_INR; lia).
  exists (INR (TP + TN) / INR (TP + FP + TN + FN))%R, p, r,
         (ratio (2 * (p * r)) (p + r)).
  split; [rewrite !of_length_Fin; now apply Fin_div|].
  split; [reflexivity|]. split; [reflexivity|]. split; [reflexivity|].
  assert (Hle : (INR (TP + TN) <= INR (TP + FP + TN + FN))%R)
    by (apply le_INR; lia).
  split.
  { split.
    - apply Rmult_le_pos; [apply pos_INR|].
      apply Rlt_le, Rinv_0_lt_compat, Hpos.
    - apply (Rmult_le_reg_r (INR (TP + FP + TN + FN))); [exact Hpos|].
      unfold Rdiv. rewrite Rmult_assoc, Rinv_l by exact Hden. lra. }
  split; [exact Hp|]. split; [exact Hr|]. split.
  { split.
    - apply ratio_nonneg; nra.
    - apply ratio_le_1. nra. }
  rewrite <- Hagree. split.
  - intros H1.
    assert (Heq : INR (TP + TN) = INR (TP + FP + TN + FN)).
    { apply (Rmult_eq_compat_r (INR (TP + FP + TN + FN))) in H1.
      unfold Rdiv in H1. rewrite Rmult_assoc, Rinv_l in H1 by exact Hden.
      lra. }
    apply INR_eq in Heq. lia.
  - intros [H1 H2].
    replace (TP + FP + TN + FN)%nat with (TP + TN)%nat by lia.
    apply Rdiv_diag. apply not_0_INR. lia.
Qed.

(** X8.  On [n >= 1] labels and [n] predictions in {0, 1}, in exact arithmetic:
    the four counts of the confusion matrix add up to [n]; accuracy,
    precision, recall and F1 are numbers of [0, 1]; and the accuracy is 1
    exactly when every prediction is its label. *)
Theorem calculateMetrics_ranges :
  forall ts ps : list bool,
    length ps = length ts ->
    ts <> [] ->
    let m := calculateMetrics (map bit ts) (map bit ps) in
    (exists TP FP TN FN : nat,
        confusionMatrix m
        = [[of_length TN; of_length FP]; [of_length FN; of_length TP]]
        /\ (TP + FP + TN + FN)%nat = length ts)
    /\ (exists a p r f : R,
           accuracy m = Fin a /\ precision m = Fin p
           /\ recall m = Fin r /\ f1Score m = Fin f
           /\ (0 <= a <= 1)%R /\ (0 <= p <= 1)%R /\ (0 <= r <= 1)%R
           /\ (0 <= f <= 1)%R
           /\ (a = 1%R <-> ps = ts)).
Proof.
  intros ts ps Hlen Hne m. subst m.
  rewrite (calculateMetrics_exact ts ps Hlen). split.
  - exists (tally true true ts ps), (tally false true ts ps),
           (tally false false ts ps), (tally true false ts ps).
    split; [reflexivity|]. now apply tally_total.
  - now apply spec_metrics_ranges.
Qed.

Lemma calculateMetrics_ranges_witness :
  exists a : R,
    accuracy (calculateMetrics [lit 1; lit 0; lit 1] [lit 1; lit 1; lit 1])
    = Fin a
    /\ (0 <= a <= 1)%R.
Proof.
  destruct (@calculateMetrics_ranges [true; false; true] [true; true; true]
              eq_refl ltac:(discriminate))
    as (_ & a & p & r & f & Ha & _ & _ & _ & Hrange & _).
  exists a. split; [exact Ha|exact Hrange].
Defined.

(** ** The metrics of a trained model *)

Lemma holdout_not_empty (n : nat) : (1 <= n)%nat -> (4 * n / 5 < n)%nat.
Proof.
  intros Hn. apply Nat.Div0.div_lt_upper_bound. lia.
Qed.

Lemma predict_bit (m : LogisticRegression ideal) row :
  predict m row = bit (ge (predictProbability m row) (lit 0.5)).
Proof. rewrite predict_threshold. reflexivity. Qed.

(** X9.  The metrics of a trained model are those of its own predictions on
    the holdout rows: the model is trained on the first [floor (0.8 * n)]
    of the [n] normalized rows, and its metrics are taken of its
    predictions on the other rows against their labels.  With two rows or
    more the holdout is never empty; with labels in {0, 1}, in exact
    arithmetic, accuracy, precision, recall and F1 are then numbers of
    [0, 1]. *)
Theorem holdout_metrics_in_range :
  forall (fs : list string) (actual : string) (X : list (list ideal))
         (ts : list bool),
    (2 <= length X)%nat ->
    length ts = length X ->
    let k := (4 * length X / 5)%nat in
    exists tm,
      fit fs actual X (map bit ts) = Ok tm
      /\ let XNormalized := map (normalize_row (means tm) (stds tm)) X in
         let predictions := map (predict (model tm)) (skipn k XNormalized) in
         means tm = compute_means (length fs) X
         /\ stds tm = compute_stds (length fs) X (means tm)
         /\ train (new_LogisticRegression (lit 0.01) 1000)
                  (firstn k XNormalized) (firstn k (map bit ts))
            = Ok (model tm)
         /\ metrics tm = calculateMetrics (map bit (skipn k ts)) predictions
         /\ length predictions = (length X - k)%nat
         /\ (1 <= length predictions)%nat
         /\ (exists a p r f : R,
                accuracy (metrics tm) = Fin a
                /\ precision (metrics tm) = Fin p
                /\ recall (metrics tm) = Fin r
                /\ f1Score (metrics tm) = Fin f
                /\ (0 <= a <= 1)%R /\ (0 <= p <= 1)%R /\ (0 <= r <= 1)%R
                /\ (0 <= f <= 1)%R).
Proof.
  intros fs actual X ts Hn Hts k.
  pose proof (holdout_not_empty (n := length X) ltac:(lia)) as Hk.
  fold k in Hk.
  unfold fit.
  destruct (length X =? 0)%nat eqn:H0; [apply Nat.eqb_eq in H0; lia|].
  cbv zeta.
  set (XN := map _ X).
  assert (HXN : length XN = length X) by apply length_map.
  rewrite (train_part_firstn XN) by (symmetry; exact HXN).
  rewrite (test_part_skipn XN) by (symmetry; exact HXN).
  rewrite (train_part_firstn (map bit ts)) by (now rewrite length_map).
  rewrite (test_part_skipn (map bit ts)) by (now rewrite length_map).
  fold k.
  assert (H1 : (1 <= k)%nat) by (apply Nat.div_le_lower_bound; lia).
  destruct (firstn k XN) as [|row0 rest] eqn:Hfirst.
  { apply (f_equal (@length _)) in Hfirst.
    rewrite length_firstn in Hfirst. cbn [length] in Hfirst. lia. }
  destruct (train_nonempty (new_LogisticRegression (lit 0.01) 1000)
              row0 rest (firstn k (map bit ts)))
    as [m Hm].
  rewrite Hm.
  eexists. split; [reflexivity|].
  cbn [means stds model metrics]. fold XN. rewrite Hfirst.
  set (ps := map (fun row => ge (predictProbability m row) (lit 0.5))
                 (skipn k XN)).
  assert (Hps : length ps = (length X - k)%nat).
  { unfold ps. now rewrite length_map, length_skipn, HXN. }
  assert (Hpred : map (predict m) (skipn k XN) = map bit ps).
  { unfold ps. rewrite map_map. apply map_ext. intros row.
    apply predict_bit. }
  split; [reflexivity|]. split; [reflexivity|]. split; [exact Hm|].
  split; [now rewrite skipn_map|].
  split; [now rewrite Hpred, length_map|].
  split; [rewrite Hpred, length_map; lia|].
  rewrite Hpred, skipn_map.
  assert (Hlen : length ps = length (skipn k ts))
    by (rewrite length_skipn; lia).
  assert (Hne : skipn k ts <> []).
  { intros Hnil. rewrite Hnil in Hlen. cbn [length] in Hlen. lia. }
  rewrite (calculateMetrics_exact (skipn k ts) ps Hlen).
  destruct (@spec_metrics_ranges (skipn k ts) ps Hlen Hne)
    as (a & p & r & f & Ha & Hp & Hr & Hf & Ra & Rp & Rr & Rf & _).
  exists a, p, r, f. repeat split; try assumption; lra.
Qed.

Lemma holdout_metrics_in_range_witness :
  exists tm,
    fit ["glucose"; "bmi"]%string "Outcome"
        [[Fin 148; Fin 33]; [Fin 85; Fin 26]; [Fin 183; Fin 23]]
        (map bit [true; false; true])
    = Ok tm
    /\ metrics tm
       = calculateMetrics
           [bit true]
           (map (predict (model tm))
                (skipn 2 (map (normalize_row (means tm) (stds tm))
                              [[Fin 148; Fin 33]; [Fin 85; Fin 26];
                               [Fin 183; Fin 23]]))).
Proof.
  destruct (@holdout_metrics_in_range ["glucose"; "bmi"]%string
              "Outcome"%string
              [[Fin 148; Fin 33]; [Fin 85; Fin 26]; [Fin 183; Fin 23]]
              [true; false; true])
    as (tm & Hfit & _ & _ & _ & Hm & _).
  - cbn [length]. lia.
  - reflexivity.
  - exists tm. split; [exact Hfit|exact Hm].
Defined.

End MetricsRanges.

(** * The normalizer's zero test *)

Section ZeroTest.

Context {number : Type} {N : Number number}.
Local Open Scope js_scope.

(** [x || 1] is never 0, in either arithmetic. *)
Hypothesis never_zero :
  forall x : number, strict_eq (or_else x (lit 1)) (lit 0) = false.

Lemma stored_deviation_not_zero k (X : list (list number)) means i :
  (i < k)%nat ->
  strict_eq (get (compute_stds k X means) i) (lit 0) = false.
Proof.
  intros Hi. rewrite get_compute_stds by exact Hi.
  unfold column_std. apply never_zero.
Qed.

Lemma normalize_row_unguarded k (X : list (list number)) means row :
  (length row <= k)%nat ->
  normalize_row means (compute_stds k X means) row
  = mapi (fun val idx =>
            (val - get means idx) / get (compute_stds k X means) idx)
         row.
Proof.
  intros Hrow. unfold normalize_row, mapi.
  rewrite !mapi_from_combine. apply map_ext_in.
  intros [idx val] Hin. apply in_combine_l, in_seq in Hin.
  now rewrite stored_deviation_not_zero by lia.
Qed.

End ZeroTest.

Lemma never_zero_exact (x : ideal) :
  strict_eq (or_else x (lit 1)) (lit 0) = false.
Proof.
  rewrite lit_0, lit_1. destruct x as [| | |r]; try reflexivity.
  - rewrite or_else_NaN, strict_eq_Fin. apply Reqb_false. lra.
  - destruct (Req_dec_T r 0) as [Hr|Hr].
    + rewrite or_else_zero by exact Hr. rewrite strict_eq_Fin.
      apply Reqb_false. lra.
    + rewrite or_else_Fin by exact Hr. rewrite strict_eq_Fin.
      now apply Reqb_false.
Qed.

Lemma never_zero_binary64 (x : float) :
  strict_eq (or_else x (lit 1)) (lit 0) = false.
Proof.
  unfold or_else.
  change (truthy x) with (negb (PrimFloat.is_nan x || PrimFloat.is_zero x)).
  change (strict_eq ?a (lit 0)) with (PrimFloat.eqb a PrimFloat.zero).
  destruct (PrimFloat.is_nan x); cbn [orb negb]; [reflexivity|].
  unfold PrimFloat.is_zero.
  destruct (PrimFloat.eqb x PrimFloat.zero) eqn:Hx; cbn [negb];
    [reflexivity|exact Hx].
Qed.

(** X10.  The standard deviations are stored through [|| 1], so none of them is
    0, [-0] or [NaN], and the test [stds[idx] === 0] of the normalization,
    in training and in the [predict] of the model returned, never holds:
    every value is normalized as [(val - means[idx]) / stds[idx]].  This is
    so in exact arithmetic and in binary64. *)
Theorem deviation_zero_test_never_holds :
  (forall k (X : list (list ideal)) means row,
      (length row <= k)%nat ->
      normalize_row means (compute_stds k X means) row
      = mapi (fun val idx =>
                sub val (get means idx)
                / get (compute_stds k X means) idx)%js
             row)
  /\ (forall k (X : list (list float)) means row,
         (length row <= k)%nat ->
         normalize_row means (compute_stds k X means) row
         = mapi (fun val idx =>
                   sub val (get means idx)
                   / get (compute_stds k X means) idx)%js
                row).
Proof.
  split; intros k X means row Hrow.
  - exact (normalize_row_unguarded never_zero_exact X means row Hrow).
  - exact (normalize_row_unguarded never_zero_binary64 X means row Hrow).
Qed.

Lemma deviation_zero_test_never_holds_witness :
  normalize_row [Fin 1] (compute_stds 1 [[Fin 1]; [Fin 1]] [Fin 1]) [Fin 5]
  = mapi (fun val idx =>
            sub val (get [Fin 1] idx)
            / get (compute_stds 1 [[Fin 1]; [Fin 1]] [Fin 1]) idx)%js
         [Fin 5].
Proof.
  apply (proj1 deviation_zero_test_never_holds 1%nat).
  cbn [length]. lia.
Defined.

(** * [trainDiabetesModel]: columns, errors, outcomes *)

Section ColumnResolution.

Context {number : Type} {N : Number number} {E : MathExp number}.
Variable StringToNumber : string -> number.

Lemma lookup_find (cols : list string) name :
  lookup (map (fun c => (normalizeColumn c, c)) cols) name
  = find (fun c => String.eqb (normalizeColumn c) name) cols.
Proof.
  induction cols as [|c cols IH]; cbn [map lookup find]; [reflexivity|].
  now rewrite IH.
Qed.

Lemma columnMapping_last (dataset : Dataset number) name :
  lookup (columnMapping dataset) name = last_column_named dataset name.
Proof.
  rewrite columnMapping_rev, <- map_rev. apply lookup_find.
Qed.

Lemma includes_In (a : list string) s : includes a s = true <-> In s a.
Proof.
  unfold includes. rewrite existsb_exists. split.
  - intros (x & Hin & Heq). apply String.eqb_eq in Heq. now subst x.
  - intros Hin. exists s. split; [exact Hin|apply String.eqb_refl].
Qed.

Lemma columnMapping_Some (dataset : Dataset number) name c :
  lookup (columnMapping dataset) name = Some c ->
  In c (columns dataset) /\ normalizeColumn c = name.
Proof.
  rewrite columnMapping_last. unfold last_column_named. intros H.
  apply find_some in H. destruct H as [Hin Heq].
  apply in_rev in Hin. apply String.eqb_eq in Heq. now split.
Qed.

Lemma columnMapping_None (dataset : Dataset number) name :
  lookup (columnMapping dataset) name = None
  <-> includes (normalizedColumns dataset) name = false.
Proof.
  split.
  - intros Hnone. destruct (includes _ name) eqn:Hinc; [|reflexivity].
    destruct (columnMapping_includes dataset name Hinc) as (c & Hc & _).
    congruence.
  - intros Hinc. destruct (lookup _ name) as [c|] eqn:Hc; [|reflexivity].
    apply columnMapping_Some in Hc. destruct Hc as [Hin Hnorm].
    assert (Htrue : includes (normalizedColumns dataset) name = true).
    { apply includes_In. unfold normalizedColumns. rewrite <- Hnorm.
      now apply in_map. }
    congruence.
Qed.


(** ** The errors of [trainDiabetesModel] *)

Lemma train_Throw (self : LogisticRegression number) X y e :
  train self X y = Throw e -> e = TypeError.
Proof.
  destruct X as [|row0 rest].
  - rewrite train_empty. congruence.
  - destruct (train_nonempty self row0 rest y) as [m ->]. discriminate.
Qed.

Lemma fit_Throw fs actual X y e :
  fit fs actual X y = Throw e -> e = NoValidData \/ e = TypeError.
Proof.
  unfold fit. destruct (length X =? 0)%nat; [left; congruence|].
  destruct (train _ _ _) as [m|e'] eqn:Htrain; [discriminate|].
  intros H. right. apply train_Throw in Htrain. congruence.
Qed.

Lemma resolve_features_target (dataset : Dataset number) fs target :
  resolve_features dataset = Ok (fs, target) ->
  (getDatasetType dataset = basic /\ target = "outcome"%string)
  \/ (getDatasetType dataset = comprehensive
      /\ (target = "diabetesbinary"%string
          /\ includes (normalizedColumns dataset) "diabetesbinary" = true
          \/ target = "diabetes012"%string
             /\ includes (normalizedColumns dataset) "diabetesbinary" = false
             /\ includes (normalizedColumns dataset) "diabetes012" = true
          \/ target = ""%string
             /\ includes (normalizedColumns dataset) "diabetesbinary" = false
             /\ includes (normalizedColumns dataset) "diabetes012" = false)).
Proof.
  unfold resolve_features. fold (normalizedColumns dataset).
  destruct (getDatasetType dataset); [| |discriminate].
  - intros H. right. split; [reflexivity|].
    destruct (includes _ "diabetesbinary");
      [left; split; [congruence|reflexivity]|].
    destruct (includes _ "diabetes012"); right;
      [left|right]; repeat split; congruence.
  - intros H. left. split; [reflexivity|congruence].
Qed.

(** The three ways through [trainDiabetesModel]. *)
Lemma trainDiabetesModel_cases (dataset : Dataset number) :
  (getDatasetType dataset = unknown
   /\ trainDiabetesModel StringToNumber dataset
      = Throw UnsupportedDatasetFormat)
  \/ (exists fs target,
         resolve_features dataset = Ok (fs, target)
         /\ (lookup (columnMapping dataset) target = None
             \/ lookup (columnMapping dataset) target = Some ""%string)
         /\ trainDiabetesModel StringToNumber dataset
            = Throw (TargetColumnNotFound target))
  \/ (exists fs target c,
         resolve_features dataset = Ok (fs, target)
         /\ lookup (columnMapping dataset) target = Some c
         /\ c <> ""%string
         /\ trainDiabetesModel StringToNumber dataset
            = fit fs c
                (fst (extract StringToNumber (columnMapping dataset) fs
                              target c (data dataset)))
                (snd (extract StringToNumber (columnMapping dataset) fs
                              target c (data dataset)))).
Proof.
  unfold trainDiabetesModel.
  destruct (resolve_features dataset) as [[fs target]|e] eqn:Hres.
  - right. destruct (lookup (columnMapping dataset) target) as [c|] eqn:Hc.
    + destruct (String.eqb c "") eqn:Hempty.
      * left. exists fs, target. apply String.eqb_eq in Hempty. subst c.
        repeat split. now right.
      * right. exists fs, target, c. apply String.eqb_neq in Hempty.
        repeat split; try assumption.
        now destruct (extract _ _ _ _ _ _).
    + left. exists fs, target. repeat split. now left.
  - left. unfold resolve_features in Hres.
    destruct (getDatasetType dataset); try discriminate.
    split; [reflexivity|congruence].
Qed.

Lemma resolved_not_unknown (dataset : Dataset number) fs target :
  resolve_features dataset = Ok (fs, target) ->
  getDatasetType dataset <> unknown.
Proof.
  unfold resolve_features. destruct (getDatasetType dataset); discriminate.
Qed.

Lemma unsupported_iff_unknown (dataset : Dataset number) :
  trainDiabetesModel StringToNumber dataset = Throw UnsupportedDatasetFormat
  <-> getDatasetType dataset = unknown.
Proof.
  destruct (trainDiabetesModel_cases dataset)
    as [[Htype ->]|[(fs & t & Hres & _ & ->)
                   |(fs & t & c & Hres & _ & _ & ->)]].
  - tauto.
  - apply resolved_not_unknown in Hres.
    split; [discriminate|contradiction].
  - apply resolved_not_unknown in Hres.
    split; [|contradiction].
    intros H. apply fit_Throw in H. destruct H; discriminate.
Qed.

(** A target that is among the normalized names, and not the empty name,
    is found. *)
Lemma target_found (dataset : Dataset number) target :
  includes (normalizedColumns dataset) target = true ->
  target <> ""%string ->
  exists c, lookup (columnMapping dataset) target = Some c /\ c <> ""%string.
Proof.
  intros Hinc Hne.
  destruct (columnMapping_includes dataset target Hinc) as (c & Hc & Hnorm).
  exists c. split; [exact Hc|]. intros ->. apply Hne. now rewrite <- Hnorm.
Qed.

Lemma not_found_target (dataset : Dataset number) fs target :
  resolve_features dataset = Ok (fs, target) ->
  lookup (columnMapping dataset) target = None
  \/ lookup (columnMapping dataset) target = Some ""%string ->
  target = "outcome"%string \/ target = ""%string.
Proof.
  intros Hres Hlookup.
  assert (Hfound : includes (normalizedColumns dataset) target = true ->
                   target <> ""%string -> False).
  { intros Hinc Hne.
    destruct (target_found dataset Hinc Hne) as (c & Hc & Hc').
    destruct Hlookup as [H|H]; congruence. }
  destruct (resolve_features_target dataset Hres)
    as [[_ ->]|[_ [[-> Hinc]|[[-> [_ Hinc]]|[-> _]]]]].
  - now left.
  - exfalso. apply Hfound; [exact Hinc|discriminate].
  - exfalso. apply Hfound; [exact Hinc|discriminate].
  - now right.
Qed.

(** X12.  The errors of [trainDiabetesModel].  It throws ['Unsupported dataset
    format'] exactly on a dataset of type [unknown].  A 'Target column ...
    not found' it throws names [outcome] or the empty name, never a column
    of a [comprehensive] dataset: on a [basic] dataset it is thrown exactly
    when no column is named [outcome]; on a [comprehensive] one with neither
    [diabetesbinary] nor [diabetes012], and no column whose normalized name
    is empty, it is thrown with the empty name.  Every other error is
    ['No valid data found for training'] or a [TypeError]. *)
Theorem trainDiabetesModel_errors :
  forall dataset : Dataset number,
    let cols := normalizedColumns dataset in
    (trainDiabetesModel StringToNumber dataset
     = Throw UnsupportedDatasetFormat
     <-> getDatasetType dataset = unknown)
    /\ (forall target,
           trainDiabetesModel StringToNumber dataset
           = Throw (TargetColumnNotFound target) ->
           target = "outcome"%string \/ target = ""%string)
    /\ (getDatasetType dataset = basic ->
        (trainDiabetesModel StringToNumber dataset
         = Throw (TargetColumnNotFound "outcome")
         <-> includes cols "outcome" = false))
    /\ (getDatasetType dataset = comprehensive ->
        includes cols "diabetesbinary" = false ->
        includes cols "diabetes012" = false ->
        includes cols "" = false ->
        trainDiabetesModel StringToNumber dataset
        = Throw (TargetColumnNotFound ""))
    /\ (forall e,
           trainDiabetesModel StringToNumber dataset = Throw e ->
           e = UnsupportedDatasetFormat
           \/ e = TargetColumnNotFound "outcome"
           \/ e = TargetColumnNotFound ""
           \/ e = NoValidData
           \/ e = TypeError).
Proof.
  intros dataset cols. subst cols.
  assert (Hfit : forall fs c X y e,
             fit fs c X y = Throw e -> e = NoValidData \/ e = TypeError)
    by (intros fs c X y e; apply fit_Throw).
  split; [|split; [|split; [|split]]].
  - apply unsupported_iff_unknown.
  - intros target.
    destruct (trainDiabetesModel_cases dataset)
      as [[Htype ->]|[(fs & t & Hres & Hlookup & ->)
                     |(fs & t & c & Hres & _ & _ & ->)]].
    + discriminate.
    + intros H. assert (target = t) by congruence. subst t.
      exact (not_found_target dataset Hres Hlookup).
    + intros H. apply Hfit in H. destruct H; discriminate.
  - intros Hbasic.
    assert (Htarget : forall fs t,
               resolve_features dataset = Ok (fs, t) -> t = "outcome"%string).
    { intros fs t. unfold resolve_features. rewrite Hbasic. congruence. }
    destruct (trainDiabetesModel_cases dataset)
      as [[Htype ->]|[(fs & t & Hres & Hlookup & ->)
                     |(fs & t & c & Hres & Hc & _ & ->)]].
    + congruence.
    + rewrite (Htarget fs t Hres) in *. split; [|reflexivity].
      intros _. destruct Hlookup as [Hnone|Hsome].
      * now apply columnMapping_None.
      * apply columnMapping_Some in Hsome. destruct Hsome as [_ Hnorm].
        discriminate Hnorm.
    + rewrite (Htarget fs t Hres) in *. split.
      * intros H. apply Hfit in H. destruct H; discriminate.
      * intros Hinc. apply columnMapping_None in Hinc. congruence.
  - intros Htype Hbinary H012 Hempty.
    unfold trainDiabetesModel, resolve_features.
    fold (normalizedColumns dataset).
    rewrite Htype, Hbinary, H012.
    apply columnMapping_None in Hempty. now rewrite Hempty.
  - intros e.
    destruct (trainDiabetesModel_cases dataset)
      as [[Htype ->]|[(fs & t & Hres & Hlookup & ->)
                     |(fs & t & c & Hres & _ & _ & ->)]].
    + intros H. left. congruence.
    + intros H.
      destruct (not_found_target dataset Hres Hlookup) as [Ht|Ht];
        subst t; [right; left|right; right; left]; congruence.
    + intros H. apply Hfit in H. tauto.
Qed.

End ColumnResolution.


(** The columns [Glucose] and [BM] with a dotted capital I (U+0130), whose
    lowercase is [i] and a combining dot: the dataset is [basic], and has
    no [outcome]. *)
Lemma trainDiabetesModel_errors_witness :
  trainDiabetesModel (fun _ => INaN)
    {| data := ([] : list (DatasetRow ideal));
       columns := ["Glucose"; "BM" ++ character 0x130]%string |}
  = Throw (TargetColumnNotFound "outcome").
Proof.
  apply (proj2 (proj1 (proj2 (proj2 (trainDiabetesModel_errors (fun _ => INaN)
           {| data := ([] : list (DatasetRow ideal));
              columns := ["Glucose"; "BM" ++ character 0x130]%string |})))
         ltac:(vm_compute; reflexivity))).
  vm_compute. reflexivity.
Defined.

(** * [trainDiabetesModel]: how many rows it needs *)

Section TrainingOutcome.

Variable StringToNumber : string -> ideal.
Local Open Scope js_scope.

Lemma fit_one_row fs actual (row : list ideal) y :
  fit fs actual [row] y = Throw TypeError.
Proof.
  unfold fit. cbn [length Nat.eqb]. cbv zeta.
  rewrite (train_part_firstn (map _ [row])) by reflexivity.
  reflexivity.
Qed.

(** X13.  After the features and the target are resolved, the outcome depends on
    the number of rows kept: none, the error ['No valid data found for
    training']; exactly one, a [TypeError], the training partition
    [slice(0, floor(0.8 * 1))] being empty; two or more, a model, whose
    feature list is the resolved one. *)
Theorem training_outcome_by_rows :
  forall (dataset : Dataset ideal) (fs : list string)
         (target actual : string),
    resolve_features dataset = Ok (fs, target) ->
    lookup (columnMapping dataset) target = Some actual ->
    actual <> ""%string ->
    let X := fst (extract StringToNumber (columnMapping dataset) fs target
                          actual (data dataset)) in
    (length X = 0%nat ->
     trainDiabetesModel StringToNumber dataset = Throw NoValidData)
    /\ (length X = 1%nat ->
        trainDiabetesModel StringToNumber dataset = Throw TypeError)
    /\ ((2 <= length X)%nat ->
        exists tm,
          trainDiabetesModel StringToNumber dataset = Ok tm
          /\ features tm = fs
          /\ targetColumn tm = actual).
Proof.
  intros dataset fs target actual Hres Hlookup Hactual X. subst X.
  unfold trainDiabetesModel. rewrite Hres, Hlookup.
  apply String.eqb_neq in Hactual. rewrite Hactual.
  destruct (extract _ _ _ _ _ _) as [X y] eqn:Hextract. cbn [fst].
  split; [|split].
  - intros H0. unfold fit. now rewrite H0.
  - intros H1. destruct X as [|row [|row' X]]; try discriminate H1.
    apply fit_one_row.
  - intros H2. destruct (fit_succeeds fs actual X y H2) as [tm Htm].
    exists tm. split; [exact Htm|].
    unfold fit in Htm.
    destruct (length X =? 0)%nat; [discriminate|].
    destruct (train _ _ _); [|discriminate].
    injection Htm as <-. split; reflexivity.
Qed.

End TrainingOutcome.

Lemma training_outcome_by_rows_witness :
  trainDiabetesModel (fun _ => INaN)
    {| data := [[("Glucose", CNumber (Fin 148));
                 ("BMI", CNumber (Fin 33.6));
                 ("Age", CNumber (Fin 50));
                 ("Outcome", CNumber (Fin 1))]]%string;
       columns := ["Glucose"; "BMI"; "Age"; "Outcome"]%string |}
  = Throw TypeError.
Proof.
  apply (proj1 (proj2 (@training_outcome_by_rows (fun _ => INaN)
    {| data := [[("Glucose", CNumber (Fin 148));
                 ("BMI", CNumber (Fin 33.6));
                 ("Age", CNumber (Fin 50));
                 ("Outcome", CNumber (Fin 1))]]%string;
       columns := ["Glucose"; "BMI"; "Age"; "Outcome"]%string |}
    ["glucose"; "bmi"; "age"]%string "outcome"%string "Outcome"%string
    eq_refl eq_refl ltac:(discriminate)))).
  reflexivity.
Defined.

(** * The [diabetes012] target *)



(** * The order of the columns *)

Section ColumnOrder.

Context {number : Type} {N : Number number} {E : MathExp number}.
Variable StringToNumber : string -> number.

Lemma includes_Permutation (a b : list string) s :
  Permutation a b -> includes a s = includes b s.
Proof.
  intros Hperm.
  destruct (includes a s) eqn:Ha, (includes b s) eqn:Hb; try reflexivity.
  - apply includes_In in Ha. apply (Permutation_in _ Hperm) in Ha.
    apply includes_In in Ha. congruence.
  - apply includes_In in Hb.
    apply (Permutation_in _ (Permutation_sym Hperm)) in Hb.
    apply includes_In in Hb. congruence.
Qed.

Lemma getDatasetType_includes (d d' : Dataset number) :
  (forall s, includes (normalizedColumns d) s
             = includes (normalizedColumns d') s) ->
  getDatasetType d = getDatasetType d'.
Proof.
  intros H. unfold getDatasetType.
  fold (normalizedColumns d). fold (normalizedColumns d').
  cbv zeta. now rewrite !(filter_ext _ _ H).
Qed.

Lemma resolve_features_includes (d d' : Dataset number) :
  (forall s, includes (normalizedColumns d) s
             = includes (normalizedColumns d') s) ->
  resolve_features d = resolve_features d'.
Proof.
  intros H. unfold resolve_features.
  fold (normalizedColumns d). fold (normalizedColumns d').
  rewrite (getDatasetType_includes d d' H). cbv zeta.
  now rewrite !(filter_ext _ _ H), !H.
Qed.

Lemma NoDup_map_injective {A B : Type} (f : A -> B) l x y :
  NoDup (map f l) -> In x l -> In y l -> f x = f y -> x = y.
Proof.
  induction l as [|a l IH]; intros Hnd Hx Hy Heq; [contradiction|].
  cbn [map] in Hnd. inversion Hnd as [|? ? Hnotin Hnd']. subst.
  destruct Hx as [->|Hx], Hy as [->|Hy].
  - reflexivity.
  - exfalso. apply Hnotin. rewrite Heq. now apply in_map.
  - exfalso. apply Hnotin. rewrite <- Heq. now apply in_map.
  - now apply IH.
Qed.

(** With distinct normalized names, a name is mapped to the one column
    that has it. *)
Lemma columnMapping_unique (d : Dataset number) name c :
  NoDup (normalizedColumns d) ->
  (lookup (columnMapping d) name = Some c
   <-> In c (columns d) /\ normalizeColumn c = name).
Proof.
  intros Hnd. split; [apply columnMapping_Some|].
  intros [Hin Hnorm].
  assert (Hinc : includes (normalizedColumns d) name = true).
  { apply includes_In. rewrite <- Hnorm. now apply in_map. }
  destruct (columnMapping_includes d name Hinc) as (c' & Hc' & Hnorm').
  rewrite Hc'. f_equal.
  apply columnMapping_Some in Hc'. destruct Hc' as [Hin' _].
  apply (NoDup_map_injective normalizeColumn (columns d)); try assumption.
  congruence.
Qed.

Lemma columnMapping_Permutation (d d' : Dataset number) name :
  Permutation (columns d) (columns d') ->
  NoDup (normalizedColumns d) ->
  lookup (columnMapping d') name = lookup (columnMapping d) name.
Proof.
  intros Hperm Hnd.
  assert (Hnd' : NoDup (normalizedColumns d')).
  { eapply Permutation_NoDup; [|exact Hnd].
    now apply Permutation_map. }
  destruct (lookup (columnMapping d) name) as [c|] eqn:Hc.
  - apply (columnMapping_unique d name c Hnd) in Hc.
    apply (columnMapping_unique d' name c Hnd').
    destruct Hc as [Hin Hnorm]. split; [|exact Hnorm].
    now apply (Permutation_in _ Hperm).
  - destruct (lookup (columnMapping d') name) as [c'|] eqn:Hc';
      [|reflexivity].
    apply (columnMapping_unique d' name c' Hnd') in Hc'.
    destruct Hc' as [Hin Hnorm].
    apply (Permutation_in _ (Permutation_sym Hperm)) in Hin.
    assert (Hsome : lookup (columnMapping d) name = Some c')
      by now apply (columnMapping_unique d name c' Hnd).
    congruence.
Qed.

(** The extractor reads [columnMapping] by its keys only. *)
Lemma extract_lookup_ext (m m' : list (string * string)) fs target actual
    rows :
  (forall k, lookup m' k = lookup m k) ->
  extract StringToNumber m' fs target actual rows
  = extract StringToNumber m fs target actual rows.
Proof.
  intros H. rewrite !extract_filter. cbv zeta.
  assert (Hvalues : forall row f,
             feature_values StringToNumber m' row f
             = feature_values StringToNumber m row f).
  { intros row f. unfold feature_values. now rewrite H. }
  assert (Hok : forall row f,
             feature_ok StringToNumber m' row f
             = feature_ok StringToNumber m row f).
  { intros row f. unfold feature_ok. now rewrite H. }
  assert (Hkept : forall row,
             row_kept StringToNumber m' fs target actual row
             = row_kept StringToNumber m fs target actual row).
  { intros row. unfold row_kept. f_equal.
    apply forallb_ext_in. intros f _. apply Hok. }
  rewrite (filter_ext _ _ Hkept). f_equal.
  apply map_ext. intros row.
  apply flat_map_ext. intros f. apply Hvalues.
Qed.

(** X15.  The order of the columns does not matter.  When the normalized names
    of the columns are distinct, a dataset with the same rows and the same
    columns in another order gives the same result: the same error, or a
    model with the same features in the same order, the same weights and
    the same metrics. *)
Theorem training_ignores_column_order :
  forall dataset dataset' : Dataset number,
    data dataset' = data dataset ->
    Permutation (columns dataset) (columns dataset') ->
    NoDup (normalizedColumns dataset) ->
    trainDiabetesModel StringToNumber dataset'
    = trainDiabetesModel StringToNumber dataset.
Proof.
  intros d d' Hdata Hperm Hnd.
  assert (Hinc : forall s, includes (normalizedColumns d') s
                           = includes (normalizedColumns d) s).
  { intros s. symmetry. apply includes_Permutation.
    now apply Permutation_map. }
  unfold trainDiabetesModel.
  rewrite (resolve_features_includes d' d Hinc).
  destruct (resolve_features d) as [[fs target]|e]; [|reflexivity].
  rewrite (columnMapping_Permutation d d' target Hperm Hnd).
  destruct (lookup (columnMapping d) target) as [actual|]; [|reflexivity].
  destruct (String.eqb actual ""); [reflexivity|].
  rewrite Hdata.
  rewrite (extract_lookup_ext (columnMapping d) (columnMapping d'))
    by (intros k; now apply columnMapping_Permutation).
  reflexivity.
Qed.

End ColumnOrder.

Lemma training_ignores_column_order_witness :
  trainDiabetesModel (fun _ => INaN)
    {| data := data pima3;
       columns := ["Outcome"; "Age"; "BMI"; "BloodPressure";
                   "Glucose"]%string |}
  = trainDiabetesModel (fun _ => INaN) pima3.
Proof.
  apply (@training_ignores_column_order ideal Ideal IdealExp).
  - reflexivity.
  - cbn [columns pima3].
    change ["Outcome"; "Age"; "BMI"; "BloodPressure"; "Glucose"]%string
      with (rev ["Glucose"; "BloodPressure"; "BMI"; "Age";
                 "Outcome"]%string).
    apply Permutation_rev.
  - vm_compute. repeat constructor; cbn; intuition discriminate.
Defined.

(** * The dataset validator *)

Section ValidatorFacts.

Context {number : Type} {N : Number number} {E : MathExp number}.
Variable StringToNumber : string -> number.
Local Open Scope js_scope.

Lemma fold_left_nth {A S : Type} (f : S -> A -> S) (d : A) post :
  forall pre acc start,
    fold_left (fun s i => f s (nth i (acc ++ pre ++ post) d))
              (seq (length acc) (length pre)) start
    = fold_left f pre start.
Proof.
  induction pre as [|a pre IH]; intros acc start; [reflexivity|].
  cbn [length seq fold_left].
  rewrite app_nth2, Nat.sub_diag by lia. cbn [app nth].
  specialize (IH (acc ++ [a])%list (f start a)).
  rewrite length_app, Nat.add_1_r, <- app_assoc in IH. exact IH.
Qed.

(** A loop that reads [data[i]] for [i < n <= data.length] traverses the
    first [n] rows. *)
Lemma for_loop_nth {A S : Type} (f : S -> A -> S) (d : A) (l : list A) n s :
  (n <= length l)%nat ->
  for_loop n (fun i s => f s (nth i l d)) s = fold_left f (firstn n l) s.
Proof.
  intros Hn. rewrite for_loop_fold.
  pose proof (fold_left_nth f d (skipn n l) (firstn n l) [] s) as H.
  cbn [app length] in H. rewrite firstn_skipn, length_firstn in H.
  rewrite Nat.min_l in H by exact Hn. exact H.
Qed.

(** What the loop over the entries of a row leaves in the counters. *)
Lemma inspect_entries (row : DatasetRow number) :
  forall q rowNullCount rowValid,
    let '(q', rowNullCount', _) :=
      fold_left (inspect_entry StringToNumber) row
                (q, rowNullCount, rowValid) in
    q' = {| validRowCount := validRowCount q;
            nullValueCount := (nullValueCount q + empties row)%nat;
            totalValueCount := (totalValueCount q + length row)%nat |}
    /\ rowNullCount' = (rowNullCount + empties row)%nat.
Proof.
  induction row as [|[key value] row IH]; intros q n v.
  - cbn [fold_left empties filter length].
    rewrite !Nat.add_0_r. now destruct q.
  - cbn [fold_left]. unfold inspect_entry at 2.
    destruct (is_empty_value value) eqn:Hempty;
      match goal with
      | |- context [fold_left _ row (?q0, ?n0, ?v0)] =>
          specialize (IH q0 n0 v0);
          destruct (fold_left _ row (q0, n0, v0)) as [[q' n'] v']
      end;
      destruct IH as [-> ->];
      unfold empties; cbn [filter snd length validRowCount nullValueCount
                           totalValueCount];
      rewrite Hempty; cbn [length];
      (split; [f_equal; lia|lia]).
Qed.

Lemma inspect_row_counts (q : quality) (row : DatasetRow number) :
  inspect_row StringToNumber q row
  = {| validRowCount :=
         (validRowCount q + if row_counts_as_valid row then 1 else 0)%nat;
       nullValueCount := (nullValueCount q + empties row)%nat;
       totalValueCount := (totalValueCount q + length row)%nat |}.
Proof.
  unfold inspect_row.
  pose proof (inspect_entries row q 0 true) as H.
  destruct (fold_left _ row _) as [[q' n'] v'].
  destruct H as [-> ->]. cbn [Nat.add].
  unfold row_counts_as_valid.
  destruct (_ > _);
    cbn [validRowCount nullValueCount totalValueCount]; f_equal; lia.
Qed.

Lemma inspect_rows (sample : list (DatasetRow number)) :
  forall q,
    fold_left (inspect_row StringToNumber) sample q
    = {| validRowCount :=
           (validRowCount q + validRowCount (sample_quality sample))%nat;
         nullValueCount :=
           (nullValueCount q + nullValueCount (sample_quality sample))%nat;
         totalValueCount :=
           (totalValueCount q + totalValueCount (sample_quality sample))%nat
      |}.
Proof.
  induction sample as [|row sample IH]; intros q.
  - cbn. rewrite !Nat.add_0_r. now destruct q.
  - cbn [fold_left]. rewrite IH, inspect_row_counts.
    unfold sample_quality.
    cbn [validRowCount nullValueCount totalValueCount map list_sum filter
         fold_right].
    destruct (row_counts_as_valid row); cbn [length]; unfold list_sum;
      f_equal; lia.
Qed.

(** The quality loop computes the counters of the first 50 rows. *)
Lemma quality_loop (data : list (DatasetRow number)) :
  for_loop (Nat.min (length data) 50)
    (fun i q => inspect_row StringToNumber q (nth i data []))
    {| validRowCount := 0; nullValueCount := 0; totalValueCount := 0 |}
  = sample_quality (firstn 50 data).
Proof.
  rewrite (for_loop_nth (inspect_row StringToNumber)) by lia.
  rewrite inspect_rows. cbn [validRowCount nullValueCount totalValueCount
                             Nat.add].
  assert (Hfirst : firstn (Nat.min (length data) 50) data = firstn 50 data).
  { destruct (Nat.le_ge_cases (length data) 50) as [H|H].
    - rewrite Nat.min_l by exact H.
      now rewrite !firstn_all2 by lia.
    - now rewrite Nat.min_r by exact H. }
  rewrite Hfirst. now destruct (sample_quality (firstn 50 data)).
Qed.

(** ** The checks on the shape *)

Lemma structure_errors_nil (dataset : Dataset number) :
  structure_errors dataset = []
  <-> (5 <= length (data dataset))%nat
      /\ (3 <= length (columns dataset))%nat
      /\ existsb (includes (normalizedColumns dataset))
                 ["diabetesbinary"; "diabetes012"; "outcome"]%string = true
      /\ includes (normalizedColumns dataset) "age" = true
      /\ getDatasetType dataset <> unknown.
Proof.
  unfold structure_errors, getDatasetType.
  fold (normalizedColumns dataset). cbv zeta.
  set (hasTarget := existsb _ _).
  set (hasC := (5 <=? _)%nat).
  set (hasB := (2 <=? _)%nat).
  destruct (length (data dataset) <? 5)%nat eqn:Hrows;
    [apply Nat.ltb_lt in Hrows|apply Nat.ltb_ge in Hrows];
  destruct (length (columns dataset) <? 3)%nat eqn:Hcols;
    [apply Nat.ltb_lt in Hcols|apply Nat.ltb_ge in Hcols
    |apply Nat.ltb_lt in Hcols|apply Nat.ltb_ge in Hcols];
  destruct hasTarget, (includes (normalizedColumns dataset) "age"),
    hasC, hasB; cbn [negb andb app];
    (split; [intros H; try discriminate H;
             repeat split; try assumption; discriminate
            |intros (H1 & H2 & H3 & H4 & H5);
             try reflexivity; try discriminate; try lia; try congruence]).
Qed.

Lemma validated_structure (dataset : Dataset number) :
  validateDiabetesDataset StringToNumber dataset = [] ->
  structure_errors dataset = []
  /\ data_quality StringToNumber (data dataset) = [].
Proof.
  unfold validateDiabetesDataset.
  destruct (structure_errors dataset) as [|e errors]; cbn [length Nat.eqb].
  - cbn [app]. now split.
  - discriminate.
Qed.

(** X16.  A dataset the validator accepts has five rows or more, three columns
    or more, a column [age], one of the target columns [diabetesbinary],
    [diabetes012] and [outcome], and a type other than [unknown]: the
    trainer does not answer ['Unsupported dataset format'] on it. *)
Theorem validated_dataset_is_supported :
  forall dataset : Dataset number,
    validateDiabetesDataset StringToNumber dataset = [] ->
    (5 <= length (data dataset))%nat
    /\ (3 <= length (columns dataset))%nat
    /\ In "age"%string (normalizedColumns dataset)
    /\ (In "diabetesbinary"%string (normalizedColumns dataset)
        \/ In "diabetes012"%string (normalizedColumns dataset)
        \/ In "outcome"%string (normalizedColumns dataset))
    /\ getDatasetType dataset <> unknown
    /\ trainDiabetesModel StringToNumber dataset
       <> Throw UnsupportedDatasetFormat.
Proof.
  intros dataset Hvalid.
  apply validated_structure in Hvalid. destruct Hvalid as [Hs _].
  apply structure_errors_nil in Hs.
  destruct Hs as (Hrows & Hcols & Htarget & Hage & Htype).
  split; [exact Hrows|]. split; [exact Hcols|].
  split; [now apply includes_In|]. split.
  - cbn [existsb] in Htarget. rewrite orb_false_r in Htarget.
    apply orb_prop in Htarget. destruct Htarget as [H|H].
    + left. now apply includes_In.
    + apply orb_prop in H. destruct H as [H|H].
      * right. left. now apply includes_In.
      * right. right. now apply includes_In.
  - split; [exact Htype|].
    intros H.
    apply unsupported_iff_unknown in H.
    contradiction.
Qed.

(** X17.  The validator asks for one of the three target columns, whatever the
    type of the dataset; the trainer asks for the one of the type.  So a
    dataset the validator accepts can still be refused by the trainer with
    'Target column ... not found'.  A [basic] one without [outcome] (it has
    [diabetesbinary] or [diabetes012]) always is.  A [comprehensive] one
    with neither [diabetesbinary] nor [diabetes012] (it has [outcome]) makes
    the trainer look for the column of the empty name: it is refused, with
    the empty name in the message, exactly when the last column whose
    normalized name is empty is missing or is itself the empty text, so
    whenever no column normalizes to the empty name; otherwise the trainer
    goes on with that column as the target. *)
Theorem validated_yet_target_not_found :
  forall dataset : Dataset number,
    validateDiabetesDataset StringToNumber dataset = [] ->
    let cols := normalizedColumns dataset in
    (getDatasetType dataset = basic ->
     ~ In "outcome"%string cols ->
     (In "diabetesbinary"%string cols \/ In "diabetes012"%string cols)
     /\ trainDiabetesModel StringToNumber dataset
        = Throw (TargetColumnNotFound "outcome"))
    /\ (getDatasetType dataset = comprehensive ->
        ~ In "diabetesbinary"%string cols ->
        ~ In "diabetes012"%string cols ->
        In "outcome"%string cols
        /\ (trainDiabetesModel StringToNumber dataset
            = Throw (TargetColumnNotFound "")
            <-> last_column_named dataset "" = None
                \/ last_column_named dataset "" = Some ""%string)
        /\ (~ In ""%string cols ->
            trainDiabetesModel StringToNumber dataset
            = Throw (TargetColumnNotFound ""))
        /\ (forall c,
               last_column_named dataset "" = Some c ->
               c <> ""%string ->
               let fs := filter (includes cols) comprehensive_features in
               trainDiabetesModel StringToNumber dataset
               = let '(X, y) :=
                   extract StringToNumber (columnMapping dataset) fs "" c
                           (data dataset) in
                 fit fs c X y)).
Proof.
  intros dataset Hvalid cols. subst cols.
  apply validated_structure in Hvalid. destruct Hvalid as [Hs _].
  apply structure_errors_nil in Hs.
  destruct Hs as (_ & _ & Htarget & _ & _).
  cbn [existsb] in Htarget. rewrite orb_false_r in Htarget.
  assert (Hnot : forall name,
             ~ In name (normalizedColumns dataset) ->
             includes (normalizedColumns dataset) name = false).
  { intros name Hn. destruct (includes _ name) eqn:Hi; [|reflexivity].
    apply includes_In in Hi. contradiction. }
  split.
  - intros Htype Houtcome. apply Hnot in Houtcome.
    rewrite Houtcome, orb_false_r in Htarget. split.
    + apply orb_prop in Htarget.
      destruct Htarget as [H|H]; [left|right]; now apply includes_In.
    + unfold trainDiabetesModel, resolve_features. rewrite Htype.
      apply columnMapping_None in Houtcome. now rewrite Houtcome.
  - intros Htype Hbinary H012.
    apply Hnot in Hbinary, H012.
    rewrite Hbinary, H012 in Htarget. cbn [orb] in Htarget.
    split; [now apply includes_In|].
    assert (Htrain :
      trainDiabetesModel StringToNumber dataset
      = match last_column_named dataset "" with
        | None => Throw (TargetColumnNotFound "")
        | Some c =>
            if String.eqb c ""
            then Throw (TargetColumnNotFound "")
            else
              let fs := filter (includes (normalizedColumns dataset))
                               comprehensive_features in
              let '(X, y) :=
                extract StringToNumber (columnMapping dataset) fs "" c
                        (data dataset) in
              fit fs c X y
        end).
    { unfold trainDiabetesModel, resolve_features.
      fold (normalizedColumns dataset).
      rewrite Htype, Hbinary, H012, columnMapping_last. reflexivity. }
    split; [|split].
    + rewrite Htrain.
      destruct (last_column_named dataset "") as [c|]; [|tauto].
      destruct (String.eqb c "") eqn:Hc.
      * apply String.eqb_eq in Hc. subst c. tauto.
      * apply String.eqb_neq in Hc. split.
        -- intros H. exfalso. cbv zeta in H.
           destruct (extract _ _ _ _ _ _) as [X y].
           apply fit_Throw in H. destruct H; discriminate.
        -- intros [H|H]; [discriminate|]. congruence.
    + intros Hempty. apply Hnot in Hempty.
      apply columnMapping_None in Hempty.
      rewrite columnMapping_last in Hempty.
      now rewrite Htrain, Hempty.
    + intros c Hlast Hc. rewrite Htrain, Hlast.
      apply String.eqb_neq in Hc. now rewrite Hc.
Qed.

End ValidatorFacts.

Section ValidatorReads.

Context {number : Type} {N : Number number}.
Local Open Scope js_scope.

Lemma list_sum_cons x l : list_sum (x :: l) = (x + list_sum l)%nat.
Proof. reflexivity. Qed.

Lemma sample_quality_ext (s s' : list (DatasetRow number)) :
  map (fun row => (length row, empties row)) s'
  = map (fun row => (length row, empties row)) s ->
  sample_quality s' = sample_quality s.
Proof.
  revert s'. induction s as [|row s IH]; intros [|row' s'] H;
    cbn [map] in H; try discriminate; [reflexivity|].
  injection H as Hlen Hempty Hrest.
  specialize (IH s' Hrest). unfold sample_quality in *.
  injection IH as Hv Hn Ht.
  assert (Hvalid : row_counts_as_valid row' = row_counts_as_valid row).
  { unfold row_counts_as_valid. now rewrite Hlen, Hempty. }
  cbn [filter map]. rewrite !list_sum_cons.
  rewrite Hvalid, Hlen, Hempty, Hn, Ht.
  destruct (row_counts_as_valid row); cbn [length]; now rewrite Hv.
Qed.

(** X18.  What the validator reads.  Its answer depends on the columns, on the
    number of rows and, for each of the first 50 rows, on the number of its
    cells and the number of its empty cells, and on nothing else: not on a
    row after the 50th, not on the value of any cell that is not empty, and
    so not on whether an [age] is a number, the flag [rowValid] being set
    and never read. *)
Theorem validation_reads_counts_only :
  forall (StringToNumber StringToNumber' : string -> number)
         (dataset dataset' : Dataset number),
    columns dataset' = columns dataset ->
    length (data dataset') = length (data dataset) ->
    map (fun row => (length row, empties row)) (firstn 50 (data dataset'))
    = map (fun row => (length row, empties row)) (firstn 50 (data dataset)) ->
    validateDiabetesDataset StringToNumber' dataset'
    = validateDiabetesDataset StringToNumber dataset.
Proof.
  intros S S' d d' Hcols Hrows Hsample.
  unfold validateDiabetesDataset.
  assert (Hs : structure_errors d' = structure_errors d).
  { unfold structure_errors. now rewrite Hcols, Hrows. }
  rewrite Hs. destruct (length (structure_errors d) =? 0)%nat;
    [|reflexivity].
  f_equal. unfold data_quality. rewrite !quality_loop.
  now rewrite (sample_quality_ext _ _ Hsample), Hrows.
Qed.

End ValidatorReads.

Section ValidatorExact.

Local Open Scope js_scope.

Lemma no_cells_no_empties (sample : list (DatasetRow ideal)) :
  list_sum (map (@length _) sample) = 0%nat ->
  list_sum (map empties sample) = 0%nat.
Proof.
  induction sample as [|row sample IH]; [reflexivity|].
  cbn [map]. rewrite !list_sum_cons. intros H.
  destruct row; [|cbn [length] in H; lia].
  cbn [empties filter length]. apply IH. cbn [length] in H. lia.
Qed.

Lemma row_counts_as_valid_exact (row : DatasetRow ideal) :
  row_counts_as_valid row = (2 * empties row <? length row)%nat.
Proof.
  unfold row_counts_as_valid.
  rewrite !of_length_Fin, lit_Fin, Fin_mul, gt_Fin.
  replace (Q2R 0.5) with (/ 2)%R by (unfold Q2R; cbn [Qnum Qden]; lra).
  destruct (2 * empties row <? length row)%nat eqn:H.
  - apply Nat.ltb_lt in H. apply Rltb_true.
    apply lt_INR in H. rewrite mult_INR in H. cbn [INR] in H. lra.
  - apply Nat.ltb_ge in H. apply Rltb_false.
    apply le_INR in H. rewrite mult_INR in H. cbn [INR] in H. lra.
Qed.

(** [sampleSize * 0.3] against the number of valid rows. *)
Lemma low_share_exact (valid size : nat) :
  gt (of_length size * lit 0.3) (of_length valid : ideal)
  = (10 * valid <? 3 * size)%nat.
Proof.
  rewrite !of_length_Fin, lit_Fin, Fin_mul, gt_Fin.
  replace (Q2R 0.3) with (3 / 10)%R by (unfold Q2R; cbn [Qnum Qden]; lra).
  destruct (10 * valid <? 3 * size)%nat eqn:H.
  - apply Nat.ltb_lt in H. apply Rltb_true.
    apply lt_INR in H. rewrite !mult_INR in H. cbn [INR] in H. lra.
  - apply Nat.ltb_ge in H. apply Rltb_false.
    apply le_INR in H. rewrite !mult_INR in H. cbn [INR] in H. lra.
Qed.

(** The percentage of empty cells, when there is a cell. *)
Lemma missing_share_value (nulls total : nat) :
  total <> 0%nat ->
  (of_length nulls / of_length total * lit 100 : ideal)
  = Fin (INR nulls / INR total * 100).
Proof.
  intros Hcells.
  assert (Hpos : (0 < INR total)%R) by (apply lt_0_INR; lia).
  rewrite !of_length_Fin.
  replace (lit 100) with (Fin 100) by (symmetry; exact (lit_Z 100)).
  rewrite Fin_div by lra. apply Fin_mul.
Qed.

(** [nullPercentage > 50]; with no cell at all the percentage is [0 / 0],
    which is greater than nothing. *)
Lemma missing_share_exact (nulls total : nat) :
  (total = 0%nat -> nulls = 0%nat) ->
  gt (of_length nulls / of_length total * lit 100 : ideal) (lit 50)
  = (total <? 2 * nulls)%nat.
Proof.
  intros Hnone.
  replace (lit 50) with (Fin 50) by (symmetry; exact (lit_Z 50)).
  destruct (Nat.eq_dec total 0) as [Hzero|Hcells].
  - rewrite (Hnone Hzero), Hzero, !of_length_Fin.
    replace (lit 100) with (Fin 100) by (symmetry; exact (lit_Z 100)).
    cbn [INR Nat.mul Nat.ltb Nat.leb].
    unfold_ideal. unfold IdealOps.div, IdealOps.signed_inf.
    now rewrite (Reqb_true (eq_refl 0%R)), !Rltb_false by lra.
  - rewrite (missing_share_value nulls Hcells), gt_Fin.
    assert (Hpos : (0 < INR total)%R) by (apply lt_0_INR; lia).
    assert (Hscale : (INR nulls / INR total * 100 * INR total
                      = INR nulls * 100)%R) by (field; lra).
    destruct (total <? 2 * nulls)%nat eqn:H.
    + apply Nat.ltb_lt in H. apply Rltb_true.
      apply lt_INR in H. rewrite mult_INR in H.
      replace (INR 2) with 2%R in H by (cbn [INR]; lra).
      apply (Rmult_lt_reg_r (INR total)); [exact Hpos|].
      rewrite Hscale. lra.
    + apply Nat.ltb_ge in H. apply Rltb_false.
      apply le_INR in H. rewrite mult_INR in H.
      replace (INR 2) with 2%R in H by (cbn [INR]; lra).
      apply (Rmult_le_reg_r (INR total)); [exact Hpos|].
      rewrite Hscale. lra.
Qed.

(** X19.  In exact arithmetic, the quality checks are conditions on counts
    over the first 50 rows.  A row counts as valid when fewer than half of
    its cells are empty.  The validator reports that no row is valid; or
    else that the rows valid are fewer than 30% of the sample; and, besides,
    that the values are missing when more than half of the cells of the
    sample are empty. *)
Theorem data_quality_thresholds :
  forall (StringToNumber : string -> ideal) (data : list (DatasetRow ideal)),
    data_quality StringToNumber data = quality_spec data.
Proof.
  intros S data. unfold data_quality, quality_spec.
  rewrite quality_loop. cbv zeta.
  unfold sample_quality.
  cbn [validRowCount nullValueCount totalValueCount].
  rewrite (filter_ext _ _ row_counts_as_valid_exact).
  set (sample := firstn 50 data).
  set (valid := length (filter _ sample)).
  set (nulls := list_sum (map empties sample)).
  set (total := list_sum (map (@length _) sample)).
  assert (Hsize : Nat.min (length data) 50 = length sample).
  { unfold sample. rewrite length_firstn. apply Nat.min_comm. }
  rewrite Hsize, low_share_exact.
  rewrite missing_share_exact by apply no_cells_no_empties.
  set (errors := if (valid =? 0)%nat then _ else _).
  destruct (total <? 2 * nulls)%nat eqn:H; [|now rewrite app_nil_r].
  rewrite missing_share_value; [reflexivity|].
  apply Nat.ltb_lt in H. intros Hzero.
  pose proof (no_cells_no_empties sample Hzero) as Hnulls.
  fold nulls in Hnulls. lia.
Qed.

End ValidatorExact.

(** ** On five rows of health indicators with the target [Outcome] *)

Lemma indicators_outcome_validated :
  validateDiabetesDataset (fun _ => INaN) indicators_outcome = [].
Proof.
  unfold validateDiabetesDataset.
  replace (structure_errors indicators_outcome) with
    ([] : list (validation_error ideal)) by reflexivity.
  cbn [length Nat.eqb app].
  unfold data_quality. rewrite quality_loop.
  unfold sample_quality.
  rewrite (filter_ext _ _ row_counts_as_valid_exact).
  cbn [validRowCount nullValueCount totalValueCount].
  rewrite low_share_exact.
  rewrite missing_share_exact by (intros H; discriminate H).
  reflexivity.
Qed.

Lemma validated_dataset_is_supported_witness :
  (5 <= length (data indicators_outcome))%nat
  /\ getDatasetType indicators_outcome <> unknown.
Proof.
  destruct (@validated_dataset_is_supported ideal Ideal IdealExp
              (fun _ => INaN) indicators_outcome
              indicators_outcome_validated)
    as (Hrows & _ & _ & _ & Htype & _).
  split; assumption.
Defined.

Lemma validated_yet_target_not_found_witness :
  In "outcome"%string (normalizedColumns indicators_outcome)
  /\ trainDiabetesModel (fun _ => INaN) indicators_outcome
     = Throw (TargetColumnNotFound "").
Proof.
  destruct (proj2 (@validated_yet_target_not_found ideal Ideal IdealExp
                     (fun _ => INaN) indicators_outcome
                     indicators_outcome_validated))
    as (Hin & _ & Hthrow & _).
  - reflexivity.
  - vm_compute. intuition discriminate.
  - vm_compute. intuition discriminate.
  - split; [exact Hin|]. apply Hthrow. clear Hin Hthrow.
    vm_compute. intuition discriminate.
Defined.

Lemma validation_reads_counts_only_witness :
  validateDiabetesDataset (fun _ => Fin 0)
    {| columns := columns indicators_outcome;
       data := map (map (fun entry => (fst entry, CString "?"%string)))
                   (data indicators_outcome) |}
  = validateDiabetesDataset (fun _ => INaN) indicators_outcome.
Proof.
  apply (@validation_reads_counts_only ideal Ideal); reflexivity.
Defined.

(** * The CSV reader: headers, fields, settling *)

(** ** Text: characters and bytes *)

Section Text.

Lemma scalar_at_length l p n :
  scalar_at l = Some (p, n) -> (1 <= n <= length l)%nat.
Proof.
  unfold scalar_at. destruct l as [|b0 rest]; [discriminate|]. cbv zeta.
  destruct (byte b0 <? 0x80)%N.
  { intros H. injection H as <- <-. cbn [length]. lia. }
  destruct (byte b0 <? 0xE0)%N.
  { destruct rest as [|b1 rest]; [discriminate|].
    destruct (_ && _); [|discriminate].
    intros H. injection H as <- <-. cbn [length]. lia. }
  destruct (byte b0 <? 0xF0)%N.
  { destruct rest as [|b1 [|b2 rest]]; try discriminate.
    destruct (_ && _); [|discriminate].
    intros H. injection H as <- <-. cbn [length]. lia. }
  destruct rest as [|b1 [|b2 [|b3 rest]]]; try discriminate.
  destruct (_ && _); [|discriminate].
  intros H. injection H as <- <-. cbn [length]. lia.
Qed.

Lemma scalar_at_app m l :
  m <> [] -> breaks l -> scalar_at (m ++ l) = scalar_at m.
Proof.
  intros Hm Hl.
  assert (Hhead : forall b l', l = b :: l' -> continuation b = false)
    by (intros b l' ->; exact Hl).
  destruct m as [|b0 m]; [congruence|]. clear Hm Hl.
  unfold scalar_at. cbn [app]. cbv zeta.
  destruct (byte b0 <? 0x80)%N; [reflexivity|].
  destruct (byte b0 <? 0xE0)%N.
  { destruct m as [|b1 m]; [|reflexivity]. cbn [app].
    destruct l as [|b l']; [reflexivity|].
    now rewrite (Hhead b l' eq_refl). }
  destruct (byte b0 <? 0xF0)%N.
  { destruct m as [|b1 [|b2 m]]; [| |reflexivity]; cbn [app].
    - destruct l as [|b [|b' l']]; try reflexivity.
      now rewrite (Hhead b _ eq_refl).
    - destruct l as [|b l']; [reflexivity|].
      now rewrite (Hhead b l' eq_refl), andb_false_r. }
  destruct m as [|b1 [|b2 [|b3 m]]]; [| | |reflexivity]; cbn [app].
  - destruct l as [|b [|b' [|b'' l']]]; try reflexivity.
    now rewrite (Hhead b _ eq_refl).
  - destruct l as [|b [|b' l']]; try reflexivity.
    now rewrite (Hhead b _ eq_refl), andb_false_r.
  - destruct l as [|b l']; [reflexivity|].
    now rewrite (Hhead b l' eq_refl), andb_false_r.
Qed.

Lemma elements_from_app l :
  breaks l ->
  forall m k,
    (k <= length m)%nat ->
    elements_from k (m ++ l) = (elements_from k m ++ elements l)%list.
Proof.
  intros Hl. induction m as [|b m IH]; intros k Hk.
  - cbn [length] in Hk. assert (k = 0%nat) as -> by lia. reflexivity.
  - cbn [app elements_from]. destruct k as [|k].
    + change (b :: m ++ l) with ((b :: m) ++ l).
      rewrite scalar_at_app by (discriminate || assumption).
      destruct (scalar_at (b :: m)) as [[p n]|] eqn:Hs.
      * cbn [app]. f_equal. apply IH.
        apply scalar_at_length in Hs. cbn [length] in Hs. lia.
      * cbn [app]. f_equal. apply IH. lia.
    + apply IH. cbn [length] in Hk. lia.
Qed.

Lemma elements_app m l :
  breaks l -> elements (m ++ l) = (elements m ++ elements l)%list.
Proof. intros Hl. apply elements_from_app; [exact Hl|lia]. Qed.

End Text.

Section Patterns.

Variable patterns : list (list ascii).

Lemma without_prefix_app pat l rest :
  without_prefix pat l = Some rest -> l = (pat ++ rest)%list.
Proof.
  revert l. induction pat as [|p pat IH]; intros l; cbn [without_prefix].
  - intros H. now injection H as <-.
  - destruct l as [|c l]; [discriminate|].
    destruct (Ascii.eqb p c) eqn:Hpc; [|discriminate].
    apply Ascii.eqb_eq in Hpc. subst c.
    intros H. cbn [app]. f_equal. now apply IH.
Qed.

Lemma without_prefix_more pat l rest s :
  without_prefix pat l = Some rest ->
  without_prefix pat (l ++ s) = Some (rest ++ s)%list.
Proof.
  revert l. induction pat as [|p pat IH]; intros l; cbn [without_prefix].
  - intros H. now injection H as <-.
  - destruct l as [|c l]; [discriminate|]. cbn [app].
    destruct (Ascii.eqb p c); [apply IH|discriminate].
Qed.

Lemma without_one_Some l rest :
  without_one patterns l = Some rest ->
  exists pat, In pat patterns /\ l = (pat ++ rest)%list.
Proof.
  induction patterns as [|pat pats IH]; cbn [without_one]; [discriminate|].
  destruct (without_prefix pat l) as [r|] eqn:Hpat.
  - intros H. injection H as <-. exists pat.
    split; [now left|now apply without_prefix_app].
  - intros H. destruct (IH H) as (pat' & Hin & Heq).
    exists pat'. split; [now right|exact Heq].
Qed.

Lemma without_one_None l :
  without_one patterns l = None
  <-> forall pat, In pat patterns -> without_prefix pat l = None.
Proof.
  induction patterns as [|pat pats IH]; cbn [without_one].
  - split; [intros _ pat []|reflexivity].
  - destruct (without_prefix pat l) as [r|] eqn:Hpat.
    + split; [discriminate|].
      intros H. rewrite (H pat (or_introl eq_refl)) in Hpat. discriminate.
    + rewrite IH. split.
      * intros H pat' [<-|Hin]; [exact Hpat|now apply H].
      * intros H pat' Hin. apply H. now right.
Qed.

(** What is left starts with none of the patterns. *)
Lemma without_all_done :
  Forall (fun pat => pat <> []) patterns ->
  forall fuel l,
    (length l <= fuel)%nat ->
    without_one patterns (without_all fuel patterns l) = None.
Proof.
  intros Hpatterns.
  assert (Hnil : without_one patterns [] = None).
  { apply without_one_None. intros pat Hpat.
    rewrite Forall_forall in Hpatterns. specialize (Hpatterns pat Hpat).
    destruct pat; [congruence|reflexivity]. }
  induction fuel as [|fuel IH]; intros l Hl; cbn [without_all].
  - destruct l; [exact Hnil|cbn [length] in Hl; lia].
  - destruct (without_one patterns l) as [rest|] eqn:Hone; [|exact Hone].
    apply IH.
    destruct (without_one_Some l Hone) as (pat & Hin & ->).
    rewrite Forall_forall in Hpatterns. specialize (Hpatterns pat Hin).
    rewrite length_app in Hl. destruct pat; [congruence|].
    cbn [length] in Hl. lia.
Qed.

Lemma without_all_fixed fuel l :
  without_one patterns l = None -> without_all fuel patterns l = l.
Proof. intros H. destruct fuel; [reflexivity|]. cbn [without_all]. now rewrite H. Qed.

(** What is taken off is a run of patterns. *)
Lemma without_all_concat fuel l :
  exists taken,
    Forall (fun pat => In pat patterns) taken
    /\ l = (concat taken ++ without_all fuel patterns l)%list.
Proof.
  revert l. induction fuel as [|fuel IH]; intros l; cbn [without_all].
  - now exists [].
  - destruct (without_one patterns l) as [rest|] eqn:Hone.
    + destruct (without_one_Some l Hone) as (pat & Hin & ->).
      destruct (IH rest) as (taken & Htaken & Heq).
      exists (pat :: taken). split; [now constructor|].
      cbn [concat]. rewrite <- app_assoc. now rewrite <- Heq.
    + now exists [].
Qed.

End Patterns.

Section Trim.

Lemma rev_concat {A : Type} (l : list (list A)) :
  rev (concat l) = concat (rev (map (@rev A) l)).
Proof.
  induction l as [|a l IH]; [reflexivity|].
  cbn [concat map rev]. rewrite rev_app_distr, IH, concat_app.
  cbn [concat]. now rewrite app_nil_r.
Qed.

Lemma white_space_not_empty :
  Forall (fun pat => pat <> []) (map utf8 white_space).
Proof. repeat constructor; discriminate. Qed.

Lemma white_space_rev_not_empty :
  Forall (fun pat => pat <> [])
         (map (fun p => rev (utf8 p)) white_space).
Proof. repeat constructor; discriminate. Qed.

(** [trim_start] takes white space off the start, [trim_end] off the
    end. *)
Lemma trim_start_taken l :
  exists taken,
    Forall (fun p => In p white_space) taken
    /\ l = (flat_map utf8 taken ++ trim_start l)%list.
Proof.
  destruct (without_all_concat (map utf8 white_space) (length l) l)
    as (pats & Hpats & Heq).
  fold (trim_start l) in Heq.
  assert (Hmap : exists taken,
             Forall (fun p => In p white_space) taken
             /\ pats = map utf8 taken).
  { clear Heq. induction Hpats as [|pat pats Hpat _ (taken & Ht & ->)].
    - now exists [].
    - apply in_map_iff in Hpat. destruct Hpat as (p & <- & Hp).
      exists (p :: taken). split; [now constructor|reflexivity]. }
  destruct Hmap as (taken & Ht & ->).
  exists taken. split; [exact Ht|].
  now rewrite flat_map_concat_map.
Qed.

Lemma trim_end_taken l :
  exists taken,
    Forall (fun p => In p white_space) taken
    /\ l = (trim_end l ++ flat_map utf8 taken)%list.
Proof.
  destruct (without_all_concat (map (fun p => rev (utf8 p)) white_space)
                               (length l) (rev l))
    as (pats & Hpats & Heq).
  apply (f_equal (@rev ascii)) in Heq.
  rewrite rev_involutive, rev_app_distr in Heq.
  fold (trim_end l) in Heq.
  assert (Hmap : exists taken,
             Forall (fun p => In p white_space) taken
             /\ rev (concat pats) = flat_map utf8 taken).
  { clear Heq. induction Hpats as [|pat pats Hpat _ (taken & Ht & IH)].
    - now exists [].
    - apply in_map_iff in Hpat. destruct Hpat as (p & <- & Hp).
      exists (taken ++ [p])%list. split.
      + apply Forall_app. split; [exact Ht|]. constructor; [exact Hp|constructor].
      + cbn [concat]. rewrite rev_app_distr, rev_involutive, IH.
        rewrite flat_map_app. cbn [flat_map]. now rewrite app_nil_r. }
  destruct Hmap as (taken & Ht & Hrev).
  exists taken. split; [exact Ht|]. now rewrite <- Hrev.
Qed.

Lemma trim_start_done l :
  without_one (map utf8 white_space) (trim_start l) = None.
Proof.
  apply without_all_done; [exact white_space_not_empty|lia].
Qed.

Lemma trim_end_done l :
  without_one (map (fun p => rev (utf8 p)) white_space) (rev (trim_end l))
  = None.
Proof.
  unfold trim_end. rewrite rev_involutive.
  apply without_all_done; [exact white_space_rev_not_empty|].
  now rewrite length_rev.
Qed.

Lemma trim_start_fixed l :
  without_one (map utf8 white_space) l = None -> trim_start l = l.
Proof. apply without_all_fixed. Qed.

Lemma trim_end_fixed l :
  without_one (map (fun p => rev (utf8 p)) white_space) (rev l) = None ->
  trim_end l = l.
Proof.
  intros H. unfold trim_end. rewrite without_all_fixed by exact H.
  apply rev_involutive.
Qed.

(** A text that starts with no white space still starts with none when
    cut at the end. *)
Lemma no_white_space_before (patterns : list (list ascii)) l s :
  without_one patterns (l ++ s) = None -> without_one patterns l = None.
Proof.
  intros H. destruct (without_one patterns l) as [rest|] eqn:Hone;
    [|reflexivity].
  exfalso.
  assert (Hex : exists pat r, In pat patterns /\ without_prefix pat l = Some r).
  { clear H. induction patterns as [|pat pats IH]; [discriminate|].
    cbn [without_one] in Hone.
    destruct (without_prefix pat l) as [r|] eqn:Hpat.
    - exists pat, r. split; [now left|exact Hpat].
    - destruct (IH Hone) as (pat' & r & Hin & Hr).
      exists pat', r. split; [now right|exact Hr]. }
  destruct Hex as (pat & r & Hin & Hr).
  rewrite without_one_None in H. specialize (H pat Hin).
  rewrite (without_prefix_more pat l s Hr) in H. discriminate.
Qed.

Lemma trim_bytes_idempotent l :
  trim_end (trim_start (trim_end (trim_start l)))
  = trim_end (trim_start l).
Proof.
  set (a := trim_start l).
  assert (Hstart : trim_start (trim_end a) = trim_end a).
  { apply trim_start_fixed.
    destruct (trim_end_taken a) as (taken & _ & Heq).
    apply no_white_space_before with (s := flat_map utf8 taken).
    rewrite <- Heq. apply trim_start_done. }
  rewrite Hstart. apply trim_end_fixed, trim_end_done.
Qed.

Lemma trim_idempotent (s : string) : trim (trim s) = trim s.
Proof.
  unfold trim. rewrite list_ascii_of_string_of_list_ascii.
  now rewrite trim_bytes_idempotent.
Qed.

End Trim.

Section Lower.

Lemma text_app l l' : text (l ++ l') = (text l ++ text l')%list.
Proof. apply flat_map_app. Qed.

Lemma text_scalars ps : text (map Scalar ps) = flat_map utf8 ps.
Proof.
  induction ps as [|p ps IH]; [reflexivity|].
  cbn [map]. unfold text in *. cbn [flat_map]. now rewrite IH.
Qed.

Lemma filter_flat_map {A B : Type} (f : B -> bool) (g : A -> list B) l :
  filter f (flat_map g l) = flat_map (fun a => filter f (g a)) l.
Proof.
  induction l as [|a l IH]; [reflexivity|].
  cbn [flat_map]. now rewrite filter_app, IH.
Qed.

(** Neither sigma is of [[a-z0-9]]: the context of a capital sigma does
    not show in what [replace] leaves. *)
Lemma strip_lower before l :
  filter is_lower_alnum (text (lower_from before l)) = flat_map bare l.
Proof.
  revert before. induction l as [|e l IH]; intros before; [reflexivity|].
  cbn [flat_map]. destruct e as [p|b].
  - cbn [lower_from]. cbv zeta.
    rewrite text_app, filter_app, IH. f_equal.
    unfold bare. cbn [lower_from]. cbv zeta.
    rewrite app_nil_r.
    destruct (p =? 0x3A3)%N; [|reflexivity].
    cbn [cased_follows].
    destruct (before && negb (cased_follows l)); reflexivity.
  - cbn [lower_from].
    change (Stray b :: lower_from false l)
      with ([Stray b] ++ lower_from false l)%list.
    rewrite text_app, filter_app, IH. reflexivity.
Qed.

Lemma elements_white_space p rest :
  In p white_space ->
  elements (utf8 p ++ rest) = Scalar p :: elements rest.
Proof.
  intros Hp. cbn in Hp.
  repeat (destruct Hp as [<-|Hp]; [reflexivity|]). contradiction.
Qed.

Lemma bare_white_space p : In p white_space -> bare (Scalar p) = [].
Proof.
  intros Hp. cbn in Hp.
  repeat (destruct Hp as [<-|Hp]; [vm_compute; reflexivity|]). contradiction.
Qed.

Lemma breaks_white_space taken :
  Forall (fun p => In p white_space) taken -> breaks (flat_map utf8 taken).
Proof.
  destruct 1 as [|p taken Hp _]; [exact I|].
  cbn [flat_map]. cbn in Hp.
  repeat (destruct Hp as [<-|Hp]; [reflexivity|]). contradiction.
Qed.

Lemma bare_white_spaces taken rest :
  Forall (fun p => In p white_space) taken ->
  flat_map bare (elements (flat_map utf8 taken ++ rest))
  = flat_map bare (elements rest).
Proof.
  induction 1 as [|p taken Hp _ IH]; [reflexivity|].
  cbn [flat_map]. rewrite <- app_assoc.
  rewrite (elements_white_space _ Hp). cbn [flat_map].
  now rewrite (bare_white_space Hp), IH.
Qed.

(** White space around a text adds nothing to its bare characters. *)
Lemma bare_trim l :
  flat_map bare (elements (trim_end (trim_start l)))
  = flat_map bare (elements l).
Proof.
  destruct (trim_start_taken l) as (before & Hbefore & Hl).
  destruct (trim_end_taken (trim_start l)) as (after & Hafter & Ht).
  rewrite Hl at 2. rewrite (bare_white_spaces _ Hbefore).
  rewrite Ht at 2.
  rewrite (elements_app _ _ (breaks_white_space Hafter)), flat_map_app.
  rewrite <- (app_nil_r (flat_map utf8 after)).
  rewrite (bare_white_spaces [] Hafter). cbn [elements elements_from flat_map].
  now rewrite app_nil_r.
Qed.

Lemma strip_white_spaces taken :
  Forall (fun p => In p white_space) taken ->
  filter is_lower_alnum (flat_map utf8 taken) = [].
Proof.
  induction 1 as [|p taken Hp _ IH]; [reflexivity|].
  cbn [flat_map]. rewrite filter_app, IH, app_nil_r.
  cbn in Hp.
  repeat (destruct Hp as [<-|Hp]; [reflexivity|]). contradiction.
Qed.

Lemma strip_trim l :
  filter is_lower_alnum (trim_end (trim_start l)) = filter is_lower_alnum l.
Proof.
  destruct (trim_start_taken l) as (before & Hbefore & Hl).
  destruct (trim_end_taken (trim_start l)) as (after & Hafter & Ht).
  rewrite Hl at 2. rewrite Ht at 2.
  rewrite !filter_app, (strip_white_spaces Hbefore), (strip_white_spaces Hafter).
  now rewrite app_nil_r.
Qed.

(** Both normalizations leave the bare characters of the name. *)
Lemma normalizeColumn_bare (col : string) :
  list_ascii_of_string (normalizeColumn col)
  = flat_map bare (elements (list_ascii_of_string col)).
Proof.
  unfold normalizeColumn, strip_non_alnum, trim, toLowerCase.
  rewrite !list_ascii_of_string_of_list_ascii.
  now rewrite strip_trim, strip_lower.
Qed.

Lemma transformHeader_bare (header : string) :
  list_ascii_of_string (transformHeader header)
  = flat_map bare (elements (list_ascii_of_string header)).
Proof.
  unfold transformHeader, strip_non_alnum, trim, toLowerCase.
  rewrite !list_ascii_of_string_of_list_ascii.
  now rewrite strip_lower, bare_trim.
Qed.

Lemma lower_alnum_bare c :
  is_lower_alnum c = true ->
  (byte c <? 0x80)%N = true /\ bare (Scalar (byte c)) = [c].
Proof.
  destruct c as [[] [] [] [] [] [] [] []]; intros H;
    try discriminate H; split; vm_compute; reflexivity.
Qed.

Lemma elements_lower_alnum l :
  Forall (fun c => is_lower_alnum c = true) l ->
  flat_map bare (elements l) = l.
Proof.
  induction 1 as [|c l Hc _ IH]; [reflexivity|].
  destruct (lower_alnum_bare c Hc) as [Hbyte Hbare].
  unfold elements in *. cbn [elements_from]. unfold scalar_at.
  cbv zeta. rewrite Hbyte. cbn [Nat.sub flat_map].
  now rewrite Hbare, IH.
Qed.

Lemma normalizeColumn_chars (col : string) :
  Forall (fun c => is_lower_alnum c = true)
         (list_ascii_of_string (normalizeColumn col)).
Proof.
  unfold normalizeColumn, strip_non_alnum.
  rewrite list_ascii_of_string_of_list_ascii.
  apply Forall_forall. intros c Hc. now apply filter_In in Hc.
Qed.

Lemma normalizeColumn_fixed (s : string) :
  Forall (fun c => is_lower_alnum c = true) (list_ascii_of_string s) ->
  normalizeColumn s = s.
Proof.
  intros Hs.
  rewrite <- (string_of_list_ascii_of_string (normalizeColumn s)).
  rewrite normalizeColumn_bare, (elements_lower_alnum Hs).
  apply string_of_list_ascii_of_string.
Qed.

Lemma transformHeader_normalizeColumn (header : string) :
  transformHeader header = normalizeColumn header.
Proof.
  rewrite <- (string_of_list_ascii_of_string (transformHeader header)).
  rewrite <- (string_of_list_ascii_of_string (normalizeColumn header)).
  now rewrite transformHeader_bare, normalizeColumn_bare.
Qed.

End Lower.

(** Names beyond ASCII: the dotted capital I (U+0130) and the Kelvin sign
    (U+212A) have lowercase letters of [[a-z]]; a final capital sigma and
    the white space of Unicode leave nothing. *)
Lemma normalizeColumn_beyond_ascii :
  normalizeColumn ("BM" ++ character 0x130) = "bmi"%string
  /\ normalizeColumn ("S" ++ character 0x212A ++ "in") = "skin"%string
  /\ normalizeColumn (character 0x3000 ++ "Age" ++ character 0x3A3
                      ++ character 0xFEFF) = "age"%string
  /\ toLowerCase ("A" ++ character 0x3A3)
     = ("a" ++ character 0x3C2)%string
  /\ toLowerCase (character 0x3A3 ++ "A")
     = (character 0x3C3 ++ "a")%string.
Proof. repeat split; vm_compute; reflexivity. Qed.

Section Headers.

(** X20.  The header transformation of the reader is the column normalization of
    the trainer and the validator; it yields only characters of [a-z0-9]
    and changes no name it has produced.  So in a dataset whose columns are
    transformed headers the normalized names are the columns themselves,
    and [columnMapping] maps every column to itself. *)
Theorem parsed_headers_are_normalized :
  (forall header : string,
      transformHeader header = normalizeColumn header
      /\ Forall (fun c => is_lower_alnum c = true)
                (list_ascii_of_string (transformHeader header))
      /\ normalizeColumn (transformHeader header) = transformHeader header)
  /\ (forall (number : Type) (dataset : Dataset number)
             (headers : list string),
         columns dataset = map transformHeader headers ->
         normalizedColumns dataset = columns dataset
         /\ forall c, In c (columns dataset) ->
              lookup (columnMapping dataset) c = Some c).
Proof.
  assert (Heq : forall header, transformHeader header = normalizeColumn header)
    by exact transformHeader_normalizeColumn.
  split.
  - intros header. split; [apply Heq|]. rewrite Heq.
    split; [apply normalizeColumn_chars|].
    apply normalizeColumn_fixed, normalizeColumn_chars.
  - intros number dataset headers Hcols.
    assert (Hfixed : forall c, In c (columns dataset) -> normalizeColumn c = c).
    { intros c Hc. rewrite Hcols in Hc. apply in_map_iff in Hc.
      destruct Hc as (h & <- & _). rewrite Heq.
      apply normalizeColumn_fixed, normalizeColumn_chars. }
    assert (Hnorm : normalizedColumns dataset = columns dataset).
    { unfold normalizedColumns. rewrite <- (map_id (columns dataset)) at 2.
      now apply map_ext_in. }
    split; [exact Hnorm|].
    intros c Hc.
    assert (Hinc : includes (normalizedColumns dataset) c = true)
      by (apply includes_In; now rewrite Hnorm).
    destruct (columnMapping_includes dataset c Hinc) as (c' & Hc' & Hn').
    rewrite Hc'. f_equal.
    apply columnMapping_Some in Hc'. destruct Hc' as [Hin _].
    now rewrite <- (Hfixed c' Hin).
Qed.

End Headers.

Lemma parsed_headers_are_normalized_witness :
  lookup (columnMapping
            {| data := ([] : list (DatasetRow ideal));
               columns := map transformHeader
                              [" Blood Pressure "; "BMI"; "Age"]%string |})
         "bloodpressure"
  = Some "bloodpressure"%string.
Proof.
  apply (proj2 (proj2 parsed_headers_are_normalized ideal
           {| data := ([] : list (DatasetRow ideal));
              columns := map transformHeader
                             [" Blood Pressure "; "BMI"; "Age"]%string |}
           [" Blood Pressure "; "BMI"; "Age"]%string eq_refl)).
  left. reflexivity.
Defined.

Section Fields.

Context {number : Type} {N : Number number}.
Variable parseFloat : string -> number.

(** X21.  The callback [transform] reads a field through [trim]: the white space
    around it never matters.  It yields [null] exactly on the four texts
    ['' ], [NULL], [null] and [N/A]; a number only on a text of the shape
    [-?\d*\.?\d+], and never [NaN]; and otherwise the trimmed text, which
    is not empty and which it would leave as it is. *)
Theorem transform_reads_trimmed_text :
  forall value : string,
    transform parseFloat (trim value) = transform parseFloat value
    /\ (transform parseFloat value = CNull
        <-> In (trim value) [""; "NULL"; "null"; "N/A"]%string)
    /\ (forall x,
           transform parseFloat value = CNumber x ->
           looks_numeric (trim value) = true
           /\ x = parseFloat (trim value)
           /\ isNaN x = false)
    /\ (forall s,
           transform parseFloat value = CString s ->
           s = trim value
           /\ s <> ""%string
           /\ transform parseFloat s = CString s).
Proof.
  intros value.
  assert (Hpad : transform parseFloat (trim value)
                 = transform parseFloat value).
  { unfold transform. now rewrite trim_idempotent. }
  split; [exact Hpad|].
  unfold transform in *. cbv zeta in *.
  set (t := trim value) in *.
  destruct (String.eqb t "") eqn:H1.
  { apply String.eqb_eq in H1. cbn [orb]. split.
    - split; [intros _; now left|reflexivity].
    - split; intros ? H; discriminate H. }
  destruct (String.eqb t "NULL") eqn:H2.
  { apply String.eqb_eq in H2. cbn [orb]. split.
    - split; [intros _; right; now left|reflexivity].
    - split; intros ? H; discriminate H. }
  destruct (String.eqb t "null") eqn:H3.
  { apply String.eqb_eq in H3. cbn [orb]. split.
    - split; [intros _; right; right; now left|reflexivity].
    - split; intros ? H; discriminate H. }
  destruct (String.eqb t "N/A") eqn:H4.
  { apply String.eqb_eq in H4. cbn [orb]. split.
    - split; [intros _; right; right; right; now left|reflexivity].
    - split; intros ? H; discriminate H. }
  cbn [orb] in *.
  apply String.eqb_neq in H1, H2, H3, H4.
  assert (Hnot : ~ In t [""; "NULL"; "null"; "N/A"]%string).
  { intros [H|[H|[H|[H|[]]]]]; congruence. }
  destruct (looks_numeric t) eqn:Hnum.
  - destruct (isNaN (parseFloat t)) eqn:HNaN.
    + split; [split; [discriminate|contradiction]|].
      split; [discriminate|].
      intros s H. injection H as <-.
      split; [reflexivity|]. split; [exact H1|]. exact Hpad.
    + split; [split; [discriminate|contradiction]|].
      split; [|discriminate].
      intros x H. injection H as <-. now repeat split.
  - split; [split; [discriminate|contradiction]|].
    split; [discriminate|].
    intros s H. injection H as <-.
    split; [reflexivity|]. split; [exact H1|]. exact Hpad.
Qed.

End Fields.

Section Settling.

Context {number : Type} {N : Number number}.

Lemma filter_idempotent {A : Type} (f : A -> bool) l :
  filter f (filter f l) = filter f l.
Proof.
  induction l as [|a l IH]; [reflexivity|].
  cbn [filter]. destruct (f a) eqn:Hf; [|exact IH].
  cbn [filter]. now rewrite Hf, IH.
Qed.

Lemma parseCSV_Resolved (size : BinNums.N)
    (report : papa_report (number := number)) dataset :
  parseCSV size report = Resolved dataset ->
  (size <= 100 * 1024 * 1024)%N
  /\ exists results,
       report = Completes results
       /\ filter is_critical (results_errors results) = []
       /\ results_fields results = Some (columns dataset)
       /\ columns dataset <> []
       /\ data dataset = filter has_value (results_data results)
       /\ data dataset <> []
       /\ Forall (fun row => has_value row = true) (data dataset).
Proof.
  unfold parseCSV.
  destruct (100 * 1024 * 1024 <? size)%N eqn:Hsize; [discriminate|].
  apply N.ltb_ge in Hsize.
  destruct report as [results|message]; [|discriminate].
  intros H. split; [exact Hsize|]. exists results.
  split; [reflexivity|].
  unfold complete in H. cbv zeta in H.
  assert (Hcritical : filter is_critical (results_errors results) = []).
  { destruct (results_errors results) as [|e es] eqn:He; [reflexivity|].
    destruct (filter is_critical (e :: es)); [reflexivity|discriminate]. }
  rewrite Hcritical in H.
  assert (Hrest :
    (if (length (results_data results) =? 0)%nat
     then Rejected NoDataFound
     else if (length (match results_fields results with
                      | Some fields => fields
                      | None => []
                      end) =? 0)%nat
     then Rejected NoColumnHeaders
     else if (length (filter has_value (results_data results)) =? 0)%nat
     then Rejected NoValidDataRows
     else Resolved
            {| data := filter has_value (results_data results);
               columns := match results_fields results with
                          | Some fields => fields
                          | None => []
                          end |})
    = Resolved dataset)
    by (destruct (results_errors results); exact H).
  clear H.
  destruct (length (results_data results) =? 0)%nat; [discriminate|].
  destruct (results_fields results) as [fields|];
    [|cbn [length Nat.eqb] in Hrest; discriminate].
  destruct (length fields =? 0)%nat eqn:Hfields; [discriminate|].
  destruct (length (filter has_value (results_data results)) =? 0)%nat
    eqn:Hrows; [discriminate|].
  injection Hrest as <-. cbn [data columns].
  split; [exact Hcritical|]. split; [reflexivity|].
  split; [intros ->; discriminate Hfields|].
  split; [reflexivity|].
  split; [intros Hnil; rewrite Hnil in Hrows; discriminate Hrows|].
  apply Forall_forall. intros row Hrow. now apply filter_In in Hrow.
Qed.

(** X22.  A dataset [parseCSV] resolves with.  The file is of 100 MB at most
    and the library has reported no error of type [Delimiter] or [Quotes];
    the columns are the header fields, at least one; the rows are, in their
    order, the rows reported that have a value, at least one, so that no
    row of the dataset is entirely empty.  Errors of another type change
    nothing: the outcome is the one without them. *)
Theorem parseCSV_resolves_with :
  forall (size : BinNums.N) (report : papa_report (number := number)),
    (forall dataset,
        parseCSV size report = Resolved dataset ->
        (size <= 100 * 1024 * 1024)%N
        /\ exists results,
             report = Completes results
             /\ filter is_critical (results_errors results) = []
             /\ results_fields results = Some (columns dataset)
             /\ columns dataset <> []
             /\ data dataset = filter has_value (results_data results)
             /\ data dataset <> []
             /\ Forall (fun row => has_value row = true) (data dataset))
    /\ (forall results,
           report = Completes results ->
           parseCSV size report
           = parseCSV size
               (Completes
                  {| results_data := results_data results;
                     results_errors :=
                       filter is_critical (results_errors results);
                     results_fields := results_fields results |})).
Proof.
  intros size report. split; [apply parseCSV_Resolved|].
  intros results ->. unfold parseCSV.
  destruct (100 * 1024 * 1024 <? size)%N; [reflexivity|].
  unfold complete. cbv zeta.
  cbn [results_data results_errors results_fields].
  rewrite filter_idempotent.
  destruct (results_errors results) as [|e es]; [reflexivity|].
  destruct (filter is_critical (e :: es)); reflexivity.
Qed.

End Settling.

(** A field between a no-break space (U+00A0) and a byte order mark
    (U+FEFF), both of which [trim] removes. *)
Lemma transform_reads_trimmed_text_witness :
  transform (fun _ : string => Fin 12.5)
            (character 0xA0 ++ "12.5" ++ character 0xFEFF)
  = CNumber (Fin 12.5).
Proof.
  rewrite <- (proj1 (transform_reads_trimmed_text
                       (fun _ : string => Fin 12.5)
                       (character 0xA0 ++ "12.5" ++ character 0xFEFF))).
  reflexivity.
Defined.

Lemma parseCSV_resolves_with_witness :
  let rows : list (DatasetRow ideal) :=
    [[("glucose", CNumber (Fin 148)); ("outcome", CNumber (Fin 1))];
     [("glucose", CNull); ("outcome", CNull)]]%string in
  parseCSV 2048
    (Completes
       {| results_data := rows;
          results_errors :=
            [{| error_type := FieldMismatch;
                error_message := "Too few fields" |}];
          results_fields := Some ["glucose"; "outcome"]%string |})
  = Resolved
      {| data := [[("glucose", CNumber (Fin 148));
                   ("outcome", CNumber (Fin 1))]]%string;
         columns := ["glucose"; "outcome"]%string |}.
Proof.
  intros rows.
  rewrite (proj2 (parseCSV_resolves_with 2048
                    (Completes
                       {| results_data := rows;
                          results_errors :=
                            [{| error_type := FieldMismatch;
                                error_message := "Too few fields" |}];
                          results_fields :=
                            Some ["glucose"; "outcome"]%string |}))
                 _ eq_refl).
  reflexivity.
Defined.

(** * The upload: what it hands on *)

Section UploadFacts.

Context {number : Type} {N : Number number} {E : MathExp number}.
Variable StringToNumber : string -> number.

Lemma validateFile_nil (file : File) :
  validateFile file = [] ->
  endsWith (toLowerCase (file_name file)) ".csv" = true
  /\ (0 < file_size file <= 50 * 1024 * 1024)%N.
Proof.
  unfold validateFile. cbv zeta.
  destruct (endsWith _ ".csv"); cbn [negb app].
  - destruct (file_size file =? 0)%N eqn:H0; [discriminate|].
    destruct (50 * 1024 * 1024 <? file_size file)%N eqn:H50;
      [discriminate|].
    intros _. apply N.eqb_neq in H0. apply N.ltb_ge in H50.
    split; [reflexivity|]. split; [lia|exact H50].
  - destruct (file_size file =? 0)%N; [discriminate|].
    destruct (50 * 1024 * 1024 <? file_size file)%N; discriminate.
Qed.

(** X23.  What the upload hands on.  A dataset reaches [onDatasetUploaded] only
    through the three checks: the file is named [.csv], in whatever case,
    and holds between 1 byte and 50 MB, so that the limit of 100 MB of
    [parseCSV] is never the one that refuses it; [parseCSV] resolves with
    the dataset, no row of which is entirely empty; and the validator finds
    no error in it, so that it has five rows or more, three columns or more
    and a type the trainer supports. *)
Theorem upload_hands_on_checked_datasets :
  forall (file : File) (report : papa_report (number := number)),
    (forall dataset,
        handleFileUpload StringToNumber file report = Uploaded dataset ->
        endsWith (toLowerCase (file_name file)) ".csv" = true
        /\ (0 < file_size file <= 50 * 1024 * 1024)%N
        /\ parseCSV (file_size file) report = Resolved dataset
        /\ Forall (fun row => has_value row = true) (data dataset)
        /\ validateDiabetesDataset StringToNumber dataset = []
        /\ (5 <= length (data dataset))%nat
        /\ (3 <= length (columns dataset))%nat
        /\ getDatasetType dataset <> unknown
        /\ trainDiabetesModel StringToNumber dataset
           <> Throw UnsupportedDatasetFormat)
    /\ (validateFile file = [] ->
        parseCSV (file_size file) report <> Rejected FileTooLarge).
Proof.
  intros file report. split.
  - intros dataset. unfold handleFileUpload. cbv zeta.
    destruct (validateFile file) as [|e es] eqn:Hfile;
      [|cbn [length Nat.ltb Nat.leb]; discriminate].
    cbn [length Nat.ltb Nat.leb].
    destruct (parseCSV (file_size file) report) as [ds|e] eqn:Hparse;
      [|discriminate].
    destruct (validateDiabetesDataset StringToNumber ds) as [|v vs]
      eqn:Hvalid; [|cbn [length Nat.ltb Nat.leb]; discriminate].
    cbn [length Nat.ltb Nat.leb]. intros H. injection H as <-.
    destruct (validateFile_nil file Hfile) as [Hname Hsize].
    destruct (parseCSV_Resolved _ _ Hparse)
      as (_ & results & _ & _ & _ & _ & _ & _ & Hrows).
    destruct (validated_structure StringToNumber ds Hvalid) as [Hs _].
    apply structure_errors_nil in Hs.
    destruct Hs as (H5 & H3 & _ & _ & Htype).
    repeat split; try assumption; try apply Hsize.
    intros Hthrow.
    apply (unsupported_iff_unknown StringToNumber) in Hthrow.
    contradiction.
  - intros Hfile. destruct (validateFile_nil file Hfile) as [_ [_ Hsize]].
    unfold parseCSV.
    assert (H100 : (100 * 1024 * 1024 <? file_size file)%N = false)
      by (apply N.ltb_ge; lia).
    rewrite H100. destruct report as [results|message]; [|discriminate].
    unfold complete. cbv zeta.
    destruct (results_errors results) as [|e es].
    + destruct (length (results_data results) =? 0)%nat; [discriminate|].
      destruct (length _ =? 0)%nat; [discriminate|].
      destruct (length _ =? 0)%nat; discriminate.
    + destruct (filter is_critical (e :: es)); [|discriminate].
      destruct (length (results_data results) =? 0)%nat; [discriminate|].
      destruct (length _ =? 0)%nat; [discriminate|].
      destruct (length _ =? 0)%nat; discriminate.
Qed.

End UploadFacts.

(** * Accounts: what is stored, and for whom *)

Unset Implicit Arguments.

Section AccountFacts.

Import Auth.

Variables D P : Type.

Lemma findIndex_None (p : User D P -> bool) users :
  findIndex p users = None <-> (forall u, In u users -> p u = false).
Proof.
  induction users as [|x users IH]; cbn [findIndex].
  - split; [intros _ u []|reflexivity].
  - destruct (p x) eqn:Hx.
    + split; [discriminate|]. intros H.
      rewrite (H x (or_introl eq_refl)) in Hx. discriminate.
    + destruct (findIndex p users) as [i|].
      * split; [discriminate|]. intros H.
        assert (Hnone : Some i = None)
          by (apply (proj2 IH); intros u Hu; apply H; now right).
        discriminate Hnone.
      * split; [|reflexivity]. intros _ u [<-|Hu]; [exact Hx|].
        now apply (proj1 IH).
Qed.

(** [findIndex] finds the first element that satisfies the test. *)
Lemma findIndex_Some (p : User D P -> bool) users i :
  findIndex p users = Some i ->
  exists pre x post,
    users = (pre ++ x :: post)%list /\ length pre = i /\ p x = true
    /\ (forall u, In u pre -> p u = false).
Proof.
  revert i. induction users as [|y users IH]; intros i; cbn [findIndex];
    [discriminate|].
  destruct (p y) eqn:Hy.
  - intros H. injection H as <-. exists [], y, users.
    repeat split; [assumption|intros u []].
  - destruct (findIndex p users) as [j|]; [|discriminate].
    intros H. injection H as <-.
    destruct (IH j eq_refl) as (pre & x & post & -> & Hlen & Hx & Hpre).
    exists (y :: pre), x, post. cbn [app length].
    repeat split; try assumption; [now rewrite Hlen|].
    intros u [<-|Hu]; [exact Hy|now apply Hpre].
Qed.

Lemma find_first (p : User D P -> bool) pre x post :
  p x = true -> (forall u, In u pre -> p u = false) ->
  find p (pre ++ x :: post) = Some x.
Proof.
  intros Hx Hpre. induction pre as [|y pre IH]; cbn [app find].
  - now rewrite Hx.
  - rewrite (Hpre y (or_introl eq_refl)). apply IH.
    intros u Hu. apply Hpre. now right.
Qed.

Lemma find_all_false (p : User D P -> bool) users :
  (forall u, In u users -> p u = false) -> find p users = None.
Proof.
  intros H. induction users as [|y users IH]; [reflexivity|].
  cbn [find]. rewrite (H y (or_introl eq_refl)). apply IH.
  intros u Hu. apply H. now right.
Qed.

Lemma find_None_iff (p : User D P -> bool) users :
  find p users = None <-> (forall u, In u users -> p u = false).
Proof.
  split; [apply find_none|apply find_all_false].
Qed.

Lemma assign_at (pre : list (User D P)) x post user :
  assign (pre ++ x :: post) (length pre) user = (pre ++ user :: post)%list.
Proof.
  induction pre as [|y pre IH]; cbn [app length assign]; [reflexivity|].
  now rewrite IH.
Qed.

(** What [saveUser] leaves under the key of the users. *)
Lemma saveUser_users (user : User D P) s :
  (user_of_email (email user) s = None
   /\ getStoredUsers (saveUser user s) = (getStoredUsers s ++ [user])%list)
  \/ (exists pre x post,
         getStoredUsers s = (pre ++ x :: post)%list
         /\ email x = email user
         /\ (forall u, In u pre -> email u <> email user)
         /\ user_of_email (email user) s = Some x
         /\ getStoredUsers (saveUser user s) = (pre ++ user :: post)%list).
Proof.
  unfold saveUser, user_of_email. cbv zeta.
  set (p := fun u : User D P => String.eqb (email u) (email user)).
  destruct (findIndex p (getStoredUsers s)) as [i|] eqn:Hi.
  - right. apply findIndex_Some in Hi.
    destruct Hi as (pre & x & post & Husers & <- & Hx & Hpre).
    exists pre, x, post. rewrite Husers.
    split; [reflexivity|]. split; [now apply String.eqb_eq|].
    split; [intros u Hu; apply String.eqb_neq; now apply Hpre|].
    split; [now apply find_first|].
    unfold getStoredUsers at 1. cbn [users_item]. apply assign_at.
  - left. pose proof (proj1 (findIndex_None p (getStoredUsers s)) Hi) as Hall.
    split; [now apply find_all_false|reflexivity].
Qed.

Lemma find_app (p : User D P -> bool) l l' :
  find p (l ++ l') = match find p l with
                     | Some u => Some u
                     | None => find p l'
                     end.
Proof.
  induction l as [|x l IH]; [reflexivity|].
  cbn [app find]. now destruct (p x).
Qed.

(** Adding, after users of distinct emails, a user of a new email. *)
Lemma unique_emails_add (users : list (User D P)) (u : User D P) :
  find (fun v => String.eqb (email v) (email u)) users = None ->
  NoDup (map (@email D P) users) ->
  NoDup (map (@email D P) (users ++ [u])).
Proof.
  intros Hnone Hnd. rewrite map_app. cbn [map].
  apply NoDup_app; [exact Hnd|repeat constructor; intros []|].
  intros e He [<-|[]].
  apply in_map_iff in He. destruct He as (v & Hv & Hin).
  pose proof (find_none _ _ Hnone v Hin) as Hneq. cbn beta in Hneq.
  apply String.eqb_neq in Hneq. contradiction.
Qed.

(** X24.  [saveUser] files a user under its email: it replaces the first stored
    user of that email, or, when there is none, it is added at the end.
    After it the user of that email is the one saved, the user of every
    other email is who it was, and the current user is untouched; and if no
    two stored users had one email, none have. *)
Theorem saveUser_files_by_email :
  forall (user : User D P) (s : Storage D P),
    user_of_email (email user) (saveUser user s) = Some user
    /\ (forall e, e <> email user ->
          user_of_email e (saveUser user s) = user_of_email e s)
    /\ length (getStoredUsers (saveUser user s))
       = match user_of_email (email user) s with
         | Some _ => length (getStoredUsers s)
         | None => S (length (getStoredUsers s))
         end
    /\ getCurrentUser (saveUser user s) = getCurrentUser s
    /\ (unique_emails s -> unique_emails (saveUser user s)).
Proof.
  intros user s.
  assert (Hself : String.eqb (email user) (email user) = true)
    by apply String.eqb_refl.
  destruct (saveUser_users user s)
    as [[Hnone Husers]
       |(pre & x & post & Hs & Hx & Hpre & Hsome & Husers)].
  - split.
    { unfold user_of_email in *. rewrite Husers, find_app, Hnone.
      cbn [find]. now rewrite Hself. }
    split.
    { intros e He. unfold user_of_email. rewrite Husers, find_app.
      destruct (find _ (getStoredUsers s)); [reflexivity|].
      cbn [find]. apply String.eqb_neq in He.
      now rewrite String.eqb_sym, He. }
    split.
    { rewrite Hnone, Husers, length_app. cbn [length]. lia. }
    split; [reflexivity|].
    unfold unique_emails. rewrite Husers.
    now apply unique_emails_add.
  - split.
    { unfold user_of_email. rewrite Husers. apply find_first; [exact Hself|].
      intros u Hu. apply String.eqb_neq. now apply Hpre. }
    split.
    { intros e He. unfold user_of_email. rewrite Husers, Hs, !find_app.
      destruct (find _ pre); [reflexivity|]. cbn [find].
      apply String.eqb_neq in He.
      rewrite Hx, String.eqb_sym, He. reflexivity. }
    split.
    { rewrite Hsome, Husers, Hs, !length_app. reflexivity. }
    split; [reflexivity|].
    unfold unique_emails. rewrite Husers, Hs, !map_app. cbn [map].
    now rewrite Hx.
Qed.

(** ** Signing up and signing in *)

Lemma signUp_new (e pw n now : string) (date : D) (s : Storage D P) :
  user_of_email e s = None ->
  let newUser :=
    {| id := now; email := e; name := n; createdAt := date;
       predictions := [] |} in
  signUp e pw n now date s
  = (Resolved newUser,
     {| users_item := Some (getStoredUsers s ++ [newUser])%list;
        current_user_item := Some newUser |}).
Proof.
  intros Hnone newUser. unfold signUp. unfold user_of_email in Hnone.
  rewrite Hnone. cbv zeta. fold newUser. f_equal.
  unfold setCurrentUser, saveUser. cbv zeta. cbn [users_item].
  assert (Hi : findIndex (fun u => String.eqb (email u) (email newUser))
                         (getStoredUsers s) = None).
  { apply findIndex_None. now apply find_none. }
  now rewrite Hi.
Qed.

Lemma signUp_taken (e pw n now : string) (date : D) (s : Storage D P) u :
  user_of_email e s = Some u ->
  signUp e pw n now date s = (Rejected (UserAlreadyExists), s).
Proof.
  intros Hsome. unfold signUp. unfold user_of_email in Hsome.
  now rewrite Hsome.
Qed.

(** X25.  [signUp] registers an email once.  On an email that has a stored user
    it rejects and changes nothing.  On a new email it resolves with the new
    user, who has no prediction; the new user is stored after the others and
    is the current user. *)
Theorem signUp_registers_once :
  forall (e pw n now : string) (date : D) (s : Storage D P),
    let newUser :=
      {| id := now; email := e; name := n; createdAt := date;
         predictions := [] |} in
    (user_of_email e s <> None ->
     signUp e pw n now date s = (Rejected UserAlreadyExists, s))
    /\ (user_of_email e s = None ->
        fst (signUp e pw n now date s) = Resolved newUser
        /\ getStoredUsers (snd (signUp e pw n now date s))
           = (getStoredUsers s ++ [newUser])%list
        /\ getCurrentUser (snd (signUp e pw n now date s)) = Some newUser
        /\ (unique_emails s ->
            unique_emails (snd (signUp e pw n now date s)))).
Proof.
  intros e pw n now date s newUser. split.
  - intros Hsome. destruct (user_of_email e s) as [u|] eqn:Hu;
      [|contradiction].
    exact (signUp_taken e pw n now date s u Hu).
  - intros Hnone. rewrite (signUp_new e pw n now date s Hnone).
    cbn [fst snd]. fold newUser.
    split; [reflexivity|]. split; [reflexivity|]. split; [reflexivity|].
    unfold unique_emails, getStoredUsers at 2. cbn [users_item].
    now apply unique_emails_add.
Qed.

(** X26.  [signIn] checks no password, and [signUp] stores none.  [signIn]
    resolves exactly for an email that has a stored user, with the first
    user of that email, who becomes the current user; it rejects, and
    changes nothing, for any other; and in neither case does the password
    make a difference.  So after [signUp] has registered an email under one
    password, [signIn] lets that email in under every password. *)
Theorem signIn_checks_no_password :
  forall (e pw : string) (s : Storage D P),
    (forall pw', signIn e pw' s = signIn e pw s)
    /\ (forall u,
           user_of_email e s = Some u ->
           signIn e pw s = (Resolved u, setCurrentUser (Some u) s))
    /\ (user_of_email e s = None ->
        signIn e pw s = (Rejected UserNotFound, s))
    /\ (forall n now date pw',
           user_of_email e s = None ->
           signIn e pw' (snd (signUp e pw n now date s))
           = (fst (signUp e pw n now date s),
              snd (signUp e pw n now date s))).
Proof.
  intros e pw s. split; [reflexivity|].
  split.
  { intros u Hu. unfold signIn. unfold user_of_email in Hu. now rewrite Hu. }
  split.
  { intros Hnone. unfold signIn. unfold user_of_email in Hnone.
    now rewrite Hnone. }
  intros n now date pw' Hnone.
  rewrite (signUp_new e pw n now date s Hnone). cbn [fst snd].
  unfold signIn, getStoredUsers. cbn [users_item]. fold (getStoredUsers s).
  rewrite find_app. unfold user_of_email in Hnone. rewrite Hnone.
  cbn [find email]. now rewrite String.eqb_refl.
Qed.

(** ** Recording a prediction *)

Lemma nth_error_middle (pre : list (User D P)) x post :
  nth_error (pre ++ x :: post) (length pre) = Some x.
Proof.
  induction pre as [|y pre IH]; [reflexivity|exact IH].
Qed.

Lemma update_unknown (i : string) (p : P) (s : Storage D P) :
  user_of_id i s = None -> updateUserPredictions i p s = s.
Proof.
  intros Hnone. unfold updateUserPredictions. cbv zeta.
  assert (Hi : findIndex (fun u => String.eqb (id u) i) (getStoredUsers s)
               = None).
  { apply findIndex_None. now apply find_none. }
  now rewrite Hi.
Qed.

Lemma update_known (i : string) (p : P) (s : Storage D P) u :
  user_of_id i s = Some u ->
  updateUserPredictions i p s
  = setCurrentUser (Some (with_prediction u p))
                   (saveUser (with_prediction u p) s).
Proof.
  intros Hsome. unfold updateUserPredictions. cbv zeta.
  destruct (findIndex _ (getStoredUsers s)) as [k|] eqn:Hk.
  - apply findIndex_Some in Hk.
    destruct Hk as (pre & x & post & Hs & <- & Hx & Hpre).
    unfold user_of_id in Hsome. rewrite Hs in Hsome |- *.
    rewrite (find_first _ pre x post Hx Hpre) in Hsome. injection Hsome as ->.
    now rewrite nth_error_middle.
  - pose proof (proj1 (findIndex_None _ _) Hk) as Hall.
    unfold user_of_id in Hsome. rewrite (find_all_false _ _ Hall) in Hsome.
    discriminate.
Qed.

(** Replacing, among users of distinct emails, the one of a given email. *)
Lemma replace_by_email (pre : list (User D P)) x post (e : string) u' :
  email x = e ->
  NoDup (map (@email D P) (pre ++ x :: post)) ->
  map (fun v => if String.eqb (email v) e then u' else v) (pre ++ x :: post)
  = (pre ++ u' :: post)%list.
Proof.
  intros Hx Hnd. rewrite map_app in Hnd. cbn [map] in Hnd.
  apply NoDup_remove_2 in Hnd.
  assert (Hother : forall l,
             (forall v, In v l -> email v <> e) ->
             map (fun v => if String.eqb (email v) e then u' else v) l = l).
  { intros l Hl. rewrite <- (map_id l) at 2. apply map_ext_in.
    intros v Hv. apply Hl, String.eqb_neq in Hv. now rewrite Hv. }
  rewrite map_app. cbn [map]. rewrite Hx, String.eqb_refl.
  rewrite !Hother; [reflexivity| |].
  - intros v Hv Heq. apply Hnd, in_or_app. right.
    rewrite Hx, <- Heq. now apply in_map.
  - intros v Hv Heq. apply Hnd, in_or_app. left.
    rewrite Hx, <- Heq. now apply in_map.
Qed.

Lemma update_known_users (i : string) (p : P) (s : Storage D P) u :
  user_of_id i s = Some u ->
  unique_emails s ->
  getStoredUsers (updateUserPredictions i p s)
  = map (fun v => if String.eqb (email v) (email u)
                  then with_prediction u p else v)
        (getStoredUsers s).
Proof.
  intros Hsome Hnd. rewrite (update_known i p s u Hsome).
  change (getStoredUsers (setCurrentUser _ ?s')) with (getStoredUsers s').
  destruct (saveUser_users (with_prediction u p) s)
    as [[Hnone _]|(pre & x & post & Hs & Hx & _ & _ & ->)].
  - exfalso. unfold user_of_id in Hsome. apply find_some in Hsome.
    destruct Hsome as [Hin _].
    pose proof (find_none _ _ Hnone u Hin) as Hneq. cbn beta in Hneq.
    cbn [with_prediction email] in Hneq.
    now rewrite String.eqb_refl in Hneq.
  - rewrite Hs. symmetry. apply replace_by_email; [exact Hx|].
    unfold unique_emails in Hnd. now rewrite Hs in Hnd.
Qed.

Lemma update_known_unique (i : string) (p : P) (s : Storage D P) u :
  user_of_id i s = Some u ->
  unique_emails s ->
  unique_emails (updateUserPredictions i p s).
Proof.
  intros Hsome Hnd. unfold unique_emails.
  rewrite (update_known_users i p s u Hsome Hnd), map_map.
  unfold unique_emails in Hnd.
  erewrite map_ext; [exact Hnd|].
  intros v. cbn beta.
  destruct (String.eqb (email v) (email u)) eqn:Hv; [|reflexivity].
  apply String.eqb_eq in Hv. now rewrite Hv.
Qed.

(** X27.  [updateUserPredictions] on an id that no stored user has changes
    nothing.  On the id of a stored user, the first of that id, and with no
    two stored users of one email: that user is stored with the prediction
    added after the ones it had, every other user is stored as it was, and
    the user updated becomes the current user, whoever was. *)
Theorem updateUserPredictions_appends :
  forall (i : string) (p : P) (s : Storage D P),
    (user_of_id i s = None -> updateUserPredictions i p s = s)
    /\ (forall u,
           user_of_id i s = Some u ->
           unique_emails s ->
           getStoredUsers (updateUserPredictions i p s)
           = map (fun v => if String.eqb (email v) (email u)
                           then with_prediction u p else v)
                 (getStoredUsers s)
           /\ predictions (with_prediction u p)
              = (predictions u ++ [p])%list
           /\ getCurrentUser (updateUserPredictions i p s)
              = Some (with_prediction u p)
           /\ unique_emails (updateUserPredictions i p s)).
Proof.
  intros i p s. split; [apply update_unknown|].
  intros u Hsome Hnd.
  split; [now apply update_known_users|]. split; [reflexivity|].
  split; [now rewrite (update_known i p s u Hsome)|].
  now apply (update_known_unique i p s u).
Qed.

(** ** What a session keeps *)

(** X28.  Whatever is done by signing up, signing in, signing out and recording
    predictions, from the empty storage: no two stored users have one
    email, and the current user, when there is one, is one of the stored
    users, as it is stored. *)
Theorem session_invariants :
  forall s : Storage D P,
    reachable s ->
    unique_emails s
    /\ (forall u, getCurrentUser s = Some u -> In u (getStoredUsers s)).
Proof.
  induction 1 as [|e pw n now date s _ [Hnd Hcur]
                  |e pw s _ [Hnd Hcur]
                  |s _ [Hnd Hcur]
                  |i p s _ [Hnd Hcur]].
  - split; [constructor|discriminate].
  - destruct (user_of_email e s) as [u|] eqn:Hu.
    + rewrite (signUp_taken e pw n now date s u Hu). now split.
    + rewrite (signUp_new e pw n now date s Hu). cbn [snd].
      unfold unique_emails, getCurrentUser, getStoredUsers.
      cbn [users_item current_user_item]. fold (getStoredUsers s).
      split; [now apply unique_emails_add|].
      intros v Hv. injection Hv as <-.
      apply in_or_app. right. now left.
  - unfold signIn. cbv zeta.
    destruct (find _ (getStoredUsers s)) as [u|] eqn:Hu; cbn [snd].
    + split; [exact Hnd|]. intros v Hv. injection Hv as <-.
      now apply find_some in Hu.
    + now split.
  - split; [exact Hnd|discriminate].
  - destruct (user_of_id i s) as [u|] eqn:Hu.
    + split.
      * now apply (update_known_unique i p s u).
      * intros v Hv. rewrite (update_known i p s u Hu) in Hv.
        injection Hv as <-.
        rewrite (update_known_users i p s u Hu Hnd).
        apply in_map_iff. exists u. rewrite String.eqb_refl.
        split; [reflexivity|].
        unfold user_of_id in Hu. now apply find_some in Hu.
    + rewrite (update_unknown i p s Hu). now split.
Qed.

End AccountFacts.

Set Implicit Arguments.

Lemma session_invariants_witness :
  let s :=
    Auth.updateUserPredictions "1" 7%nat
      (snd (Auth.signUp "ann@example.org" "secret" "Ann" "1" tt
              (Auth.empty unit nat))) in
  Auth.unique_emails s
  /\ (forall u, Auth.getCurrentUser s = Some u ->
        In u (Auth.getStoredUsers s)).
Proof.
  intros s. apply session_invariants.
  apply Auth.reach_update, Auth.reach_signUp, Auth.reach_empty.
Defined.

Lemma updateUserPredictions_appends_witness :
  let s :=
    snd (Auth.signUp "ann@example.org" "secret" "Ann" "1" tt
           (Auth.empty unit nat)) in
  Auth.getCurrentUser (Auth.updateUserPredictions "1" 7%nat s)
  = Some {| Auth.id := "1"; Auth.email := "ann@example.org";
            Auth.name := "Ann"; Auth.createdAt := tt;
            Auth.predictions := [7%nat] |}.
Proof.
  intros s.
  destruct (updateUserPredictions_appends unit nat "1" 7%nat s)
    as [_ Hknown].
  destruct (Hknown
              {| Auth.id := "1"; Auth.email := "ann@example.org";
                 Auth.name := "Ann"; Auth.createdAt := tt;
                 Auth.predictions := [] |})
    as (_ & _ & Hcurrent & _).
  - reflexivity.
  - repeat constructor. intros [].
  - exact Hcurrent.
Defined.
